(** * The content response cache and the multilingual aggregator of the
      BankIM management portal API client

    Shallow embedding of the [ApiService] class of the API client:
    [isPlaceholderUrl], [requestWithCache], [clearContentCache],
    [getCacheStats], [getContentByScreen], [getAllMainPageLanguages] and
    [transformApiToContentPages]; then the uncached executor [request]
    and the operations [deleteMainPageAction], [getMenuTranslations],
    [getMainPageContent] and [getMainPageAction].

    Conventions of the embedding.
    - JavaScript strings are [string]s (byte strings, UTF-8 for the text
      outside ASCII). Numbers are exact integers ([Z]): times in
      milliseconds, sequence numbers, counters; the rounding of
      floating-point numbers beyond 2^53 and [NaN] are not modelled.
    - A JavaScript object or [Map] is the list of its entries in
      enumeration (insertion) order, see [JsMap].
    - The network, the clock and the console are explicit: a call takes
      the [World] it runs in (two clock readings and what [fetch] and
      [response.json()] do) and returns its result, the new cache and the
      trace of its effects.
    - A call is one step: it reads the cache before the request and
      writes it after the response, as the code does, and no other call
      runs in between. *)

From Stdlib Require Import String Ascii List ZArith NArith Bool Lia.
From Stdlib Require Import Sorting.Sorted Sorting.Permutation.
From Stdlib Require Import DecimalString DecimalZ.
Import ListNotations.

Local Open Scope string_scope.
Local Open Scope list_scope.
Local Open Scope Z_scope.

(* ================================================================== *)
(** ** Strings: the [String.prototype] and [RegExp] methods the client uses *)
(* ================================================================== *)

Module JsString.

(** The double quote and the backslash. *)
Definition dquote : ascii := "034"%char.
Definition backslash : ascii := "092"%char.

(** [strip_prefix p s] is [Some r] when [s = p ++ r]. *)
Fixpoint strip_prefix (p s : string) : option string :=
  match p with
  | EmptyString => Some s
  | String a p' =>
      match s with
      | EmptyString => None
      | String b s' => if Ascii.eqb a b then strip_prefix p' s' else None
      end
  end.

(** [s.startsWith(p)] *)
Definition startsWith (s p : string) : bool :=
  match strip_prefix p s with Some _ => true | None => false end.

(** [s.includes(needle)] *)
Fixpoint includes (s needle : string) : bool :=
  startsWith s needle ||
  match s with
  | EmptyString => false
  | String _ t => includes t needle
  end.

(** The character class [\d]. *)
Definition is_digit (c : ascii) : bool :=
  let n := N_of_ascii c in ((48 <=? n) && (n <=? 57))%N.

(** The longest run of digits at the head of [s], and what follows it:
    what a greedy [\d*] consumes. *)
Fixpoint take_digits (s : string) : string * string :=
  match s with
  | EmptyString => (EmptyString, EmptyString)
  | String c t =>
      if is_digit c
      then let (ds, rest) := take_digits t in (String c ds, rest)
      else (EmptyString, s)
  end.

(** [parseInt(ds)] for a string of decimal digits. *)
Fixpoint parse_digits_from (acc : Z) (ds : string) : Z :=
  match ds with
  | EmptyString => acc
  | String c t => parse_digits_from (acc * 10 + (Z.of_N (N_of_ascii c) - 48)) t
  end.

Definition parseInt (ds : string) : Z := parse_digits_from 0 ds.

(** A match of the pattern [pre(\d+)post] that starts at the head of [s];
    the result is the captured group. [pre] and [post] are literal text.
    The group is greedy; giving digits back can not help, because [post]
    never starts with a digit in the two patterns of the client. *)
Definition match_at (pre post s : string) : option string :=
  match strip_prefix pre s with
  | None => None
  | Some r =>
      let (ds, rest) := take_digits r in
      match ds with
      | EmptyString => None
      | String _ _ => if startsWith rest post then Some ds else None
      end
  end.

(** [s.match(/pre(\d+)post/)]: the leftmost match, [None] for [null]. *)
Fixpoint regex_search (pre post s : string) : option string :=
  match match_at pre post s with
  | Some ds => Some ds
  | None =>
      match s with
      | EmptyString => None
      | String _ t => regex_search pre post t
      end
  end.

(** ASCII lower case, for header names (HTTP compares them without case). *)
Definition lower_ascii (c : ascii) : ascii :=
  let n := N_of_ascii c in
  if ((65 <=? n) && (n <=? 90))%N then ascii_of_N (n + 32) else c.

Fixpoint toLowerCase (s : string) : string :=
  match s with
  | EmptyString => EmptyString
  | String c t => String (lower_ascii c) (toLowerCase t)
  end.

(** JavaScript truthiness of a string, and of [string | null]. *)
Definition truthy (s : string) : bool :=
  match s with EmptyString => false | String _ _ => true end.

Definition truthy_opt (o : option string) : bool :=
  match o with Some s => truthy s | None => false end.

End JsString.

(* ================================================================== *)
(** ** [Map] and plain objects: entries in insertion order *)
(* ================================================================== *)

Module JsMap.

Section Ops.
Context {V : Type}.

Definition t : Type := list (string * V).

Definition empty : t := [].

Fixpoint get (k : string) (m : t) : option V :=
  match m with
  | [] => None
  | (k', v) :: m' => if String.eqb k k' then Some v else get k m'
  end.

Definition has (k : string) (m : t) : bool :=
  match get k m with Some _ => true | None => false end.

(** [m.set(k, v)]: an existing key keeps its place, a new one goes last. *)
Fixpoint set (k : string) (v : V) (m : t) : t :=
  match m with
  | [] => [(k, v)]
  | (k', v') :: m' =>
      if String.eqb k k' then (k, v) :: m' else (k', v') :: set k v m'
  end.

Definition clear (m : t) : t := [].

Definition entries (m : t) : list (string * V) := m.

Definition values (m : t) : list V := map snd m.

Definition size (m : t) : nat := length m.

(** [{...a, ...b}] *)
Definition spread (a b : t) : t :=
  fold_left (fun acc kv => set (fst kv) (snd kv) acc) b a.

End Ops.

Arguments t : clear implicits.

End JsMap.

(* ================================================================== *)
(** ** JavaScript values of request options, and [JSON.stringify] *)
(* ================================================================== *)

Module Json.

Import JsString.

(** The values a [RequestInit] is made of. A host object stands for a
    [FormData], [Blob], [URLSearchParams] or [Headers] instance: it has
    internal state and no own enumerable property. *)
#[warnings="-register-all"]
Inductive JsVal : Type :=
| VUndefined
| VString (s : string)
| VHost (internal : string)
| VObject (props : list (string * JsVal)).

(** A plain object: its own enumerable properties, in enumeration order. *)
Definition JsObject : Type := list (string * JsVal).

(** Two hexadecimal digits, lower case, as [JSON.stringify] prints them. *)
Definition hex_digit (n : N) : ascii :=
  if (n <? 10)%N then ascii_of_N (48 + n) else ascii_of_N (87 + n).

(** The text [JSON.stringify] writes for one character of a string
    (QuoteJSONString): the two-character escapes, [\u00xx] for the other
    control characters, the character itself otherwise. *)
Definition escape (c : ascii) : list ascii :=
  let n := N_of_ascii c in
  if (n =? 8)%N then [backslash; "b"%char]
  else if (n =? 9)%N then [backslash; "t"%char]
  else if (n =? 10)%N then [backslash; "n"%char]
  else if (n =? 12)%N then [backslash; "f"%char]
  else if (n =? 13)%N then [backslash; "r"%char]
  else if (n =? 34)%N then [backslash; dquote]
  else if (n =? 92)%N then [backslash; backslash]
  else if (n <? 32)%N
       then [backslash; "u"%char; "0"%char; "0"%char;
             hex_digit (n / 16); hex_digit (n mod 16)]
  else [c].

Definition quote (s : string) : list ascii :=
  dquote :: flat_map escape (list_ascii_of_string s) ++ [dquote].

(** [JSON.stringify(v)]; [None] is [undefined] (nothing is written).
    In an object a property whose value serialises to [undefined] is
    left out, the others are written [key:value] and joined by commas. *)
Fixpoint serialize (v : JsVal) : option (list ascii) :=
  match v with
  | VUndefined => None
  | VString s => Some (quote s)
  | VHost _ => Some ["{"%char; "}"%char]
  | VObject ps =>
      Some ("{"%char ::
            (fix members (first : bool) (ps : list (string * JsVal)) : list ascii :=
               match ps with
               | [] => []
               | (k, x) :: ps' =>
                   match serialize x with
                   | None => members first ps'
                   | Some sx =>
                       (if first then [] else [","%char])
                       ++ quote k ++ ":"%char :: sx ++ members false ps'
                   end
               end) true ps
            ++ ["}"%char])
  end.

(** The members of an object, named so that lemmas can speak of them. *)
Fixpoint members (first : bool) (ps : list (string * JsVal)) : list ascii :=
  match ps with
  | [] => []
  | (k, x) :: ps' =>
      match serialize x with
      | None => members first ps'
      | Some sx =>
          (if first then [] else [","%char])
          ++ quote k ++ ":"%char :: sx ++ members false ps'
      end
  end.

(** [JSON.stringify(o)] for an object [o]: always a string. *)
Definition stringify (o : JsObject) : string :=
  string_of_list_ascii ("{"%char :: members true o ++ ["}"%char]).

(** Values without [undefined] and without host objects: strings and
    plain objects of such values, which is what a request with a method,
    a text body and a record of headers is made of. *)
Fixpoint plain (v : JsVal) : Prop :=
  match v with
  | VString _ => True
  | VObject ps =>
      (fix all (ps : list (string * JsVal)) : Prop :=
         match ps with
         | [] => True
         | (_, x) :: ps' => plain x /\ all ps'
         end) ps
  | VUndefined | VHost _ => False
  end.

Fixpoint plain_props (ps : list (string * JsVal)) : Prop :=
  match ps with
  | [] => True
  | (_, x) :: ps' => plain x /\ plain_props ps'
  end.

(** [o[k]] *)
Definition prop (k : string) (o : JsObject) : JsVal :=
  match JsMap.get k o with Some v => v | None => VUndefined end.

(** The properties that [{...v}] copies. Host objects and [undefined]
    contribute none. (A string would spread its characters; the type
    [HeadersInit] of the one value that is spread excludes strings.) *)
Definition own_props (v : JsVal) : JsObject :=
  match v with
  | VObject ps => ps
  | VUndefined | VString _ | VHost _ => []
  end.

End Json.

(* ================================================================== *)
(** ** The API service: configuration, cache and cached requests *)
(* ================================================================== *)

(** The module constants read from [import.meta.env]. *)
Record Config : Type := {
  API_BASE_URL : string;
  CONTENT_API_URL : string;
  USE_REAL_CONTENT_DATA : bool;
  CONTENT_CACHE_TTL : Z
}.

(** The configuration of an empty environment: every constant at its
    default. *)
Definition default_config : Config := {|
  API_BASE_URL := "http://localhost:3001";
  CONTENT_API_URL := "http://localhost:3001";
  USE_REAL_CONTENT_DATA := false;
  CONTENT_CACHE_TTL := 300000
|}.

(** Detect placeholder API URLs. *)
Definition isPlaceholderUrl (cfg : Config) (url : string) : bool :=
  if USE_REAL_CONTENT_DATA cfg then false
  else JsString.includes url "your-api-domain.railway.app"
       || JsString.includes url "your-backend-domain.railway.app"
       || JsString.includes url "localhost:3001".

(** [interface ApiResponse<T>]; [None] is an absent field. *)
Record ApiResponse (T : Type) : Type := {
  success : bool;
  data : option T;
  error : option string;
  message : option string
}.
Arguments success {T}. Arguments data {T}.
Arguments error {T}. Arguments message {T}.

(** What a [catch] clause receives. *)
Inductive Thrown : Type :=
| ErrorInstance (msg : string)
| NotAnError.

(** [error instanceof Error ? error.message : 'Unknown error occurred'] *)
Definition error_message (e : Thrown) : string :=
  match e with
  | ErrorInstance msg => msg
  | NotAnError => "Unknown error occurred"
  end.

(** The entries of [contentCache]. *)
Module CacheEntry.
Record t (T : Type) : Type := {
  data : option T;
  etag : string;
  timestamp : Z;
  ttl : Z
}.
Arguments data {T}. Arguments etag {T}.
Arguments timestamp {T}. Arguments ttl {T}.
End CacheEntry.

(** What [await response.json()] does with the bytes of a body: it
    rejects, or resolves to the decoded value, taken at the type the
    client declares for it ([ApiResponse<T>]). *)
Inductive JsonResult (T : Type) : Type :=
| JsonRejects (e : Thrown)
| JsonResolves (result : ApiResponse T).
Arguments JsonRejects {T}. Arguments JsonResolves {T}.

(** A [Response]: its status, what [response.headers.get] returns for the
    three headers the client reads ([None] for [null]), and what decoding
    the bytes of its body gives. *)
Record Response (T : Type) : Type := {
  status : Z;
  ETag : option string;
  Cache_Control : option string;
  Bankim_Content_Version : option string;
  body : JsonResult T
}.
Arguments status {T}. Arguments ETag {T}. Arguments Cache_Control {T}.
Arguments Bankim_Content_Version {T}. Arguments body {T}.

(** The statuses whose response has a null body (Fetch standard). *)
Definition null_body_status (s : Z) : bool :=
  (s =? 101) || (s =? 103) || (s =? 204) || (s =? 205) || (s =? 304).

(** [await response.json()]. A response with a null body status carries no
    body, whatever was on the wire: decoding the empty input rejects with
    a [SyntaxError]. *)
Definition response_json {T} (r : Response T) : JsonResult T :=
  if null_body_status (status r)
  then JsonRejects (ErrorInstance "Unexpected end of JSON input")
  else body r.

(** What [await fetch(...)] does. *)
Inductive FetchResult (T : Type) : Type :=
| FetchRejects (e : Thrown)
| FetchResolves (r : Response T).
Arguments FetchRejects {T}. Arguments FetchResolves {T}.

(** The world of one call: [Date.now()] before the request is sent, the
    outcome of the request, and [Date.now()] once it has completed. *)
Record World (T : Type) : Type := {
  now_before : Z;
  fetched : FetchResult T;
  now_after : Z
}.
Arguments now_before {T}. Arguments fetched {T}. Arguments now_after {T}.

(** Effects of a call, in the order they happen. *)
Inductive Effect : Type :=
| Fetch (url : string) (init : Json.JsObject)
| LogCacheHit (cacheKey : string)
| LogCached (cacheKey : string) (parsedTTL : Z)
| WarnStaleCache (cacheKey : string)
| ErrorRequestFailed (e : Thrown)
| LogPlaceholder.

Definition is_fetch (e : Effect) : bool :=
  match e with Fetch _ _ => true | _ => false end.

(** The result of a call, the cache it leaves and its effects. *)
Record Outcome (T : Type) : Type := {
  returned : ApiResponse T;
  cache_after : JsMap.t (CacheEntry.t T);
  effects : list Effect
}.
Arguments returned {T}. Arguments cache_after {T}. Arguments effects {T}.

Section ApiService.

Import Json.

(** The type parameter of [requestWithCache<T>], and the constants. *)
Context {T : Type}.
Variable cfg : Config.

Definition Cache : Type := JsMap.t (CacheEntry.t T).

(** [private readonly CACHE_TTL = CONTENT_CACHE_TTL] *)
Definition CACHE_TTL : Z := CONTENT_CACHE_TTL cfg.

(** [`${endpoint}${JSON.stringify(options)}`] *)
Definition cacheKeyOf (endpoint : string) (options : JsObject) : string :=
  (endpoint ++ stringify options)%string.

(** [customTTL || this.CACHE_TTL] *)
Definition defaultTTL (customTTL : option Z) : Z :=
  match customTTL with
  | Some n => if n =? 0 then CACHE_TTL else n
  | None => CACHE_TTL
  end.

(** [cached && (Date.now() - cached.timestamp) < cached.ttl] *)
Definition cacheValid (cached : option (CacheEntry.t T)) (now : Z) : bool :=
  match cached with
  | Some c => now - CacheEntry.timestamp c <? CacheEntry.ttl c
  | None => false
  end.

(** [cacheValid && cached.etag ? { 'If-None-Match': cached.etag } : {}] *)
Definition conditionalHeader (cached : option (CacheEntry.t T)) (now : Z)
  : JsObject :=
  match cached with
  | Some c =>
      if cacheValid cached now && JsString.truthy (CacheEntry.etag c)
      then [("If-None-Match", VString (CacheEntry.etag c))]
      else []
  | None => []
  end.

(** The [headers] object of the request. *)
Definition requestHeaders (cached : option (CacheEntry.t T)) (now : Z)
    (options : JsObject) : JsObject :=
  JsMap.spread
    (JsMap.spread [("Content-Type", VString "application/json")]
                  (conditionalHeader cached now))
    (own_props (prop "headers" options)).

(** [{ ...options, headers }] *)
Definition fetchInit (options headers : JsObject) : JsObject :=
  JsMap.set "headers" (VObject headers) options.

(** Parse cache control for TTL. *)
Definition parseTTL (ttl : Z) (cacheControl : option string) : Z :=
  match cacheControl with
  | Some cc =>
      if JsString.truthy cc && JsString.includes cc "max-age="
      then match JsString.regex_search "max-age=" "" cc with
           | Some maxAge => JsString.parseInt maxAge * 1000
           | None => ttl
           end
      else ttl
  | None => ttl
  end.

(** [etag || contentVersion || ''] *)
Definition validatorOf (etag contentVersion : option string) : string :=
  if JsString.truthy_opt etag then match etag with Some e => e | None => "" end
  else if JsString.truthy_opt contentVersion
       then match contentVersion with Some v => v | None => "" end
       else "".

Definition failure (e : Thrown) : ApiResponse T :=
  {| success := false; data := None;
     error := Some (error_message e); message := None |}.

Definition hit (c : CacheEntry.t T) : ApiResponse T :=
  {| success := true; data := CacheEntry.data c;
     error := None; message := None |}.

(** The [catch] clause of [requestWithCache]. *)
Definition onThrow (cacheKey : string) (cached : option (CacheEntry.t T))
    (now : Z) (cache : Cache) (sent : list Effect) (e : Thrown) : Outcome T :=
  match cached with
  | Some c =>
      if now - CacheEntry.timestamp c <? CacheEntry.ttl c * 2
      then {| returned := hit c; cache_after := cache;
              effects := sent ++ [WarnStaleCache cacheKey] |}
      else {| returned := failure e; cache_after := cache;
              effects := sent ++ [ErrorRequestFailed e] |}
  | None =>
      {| returned := failure e; cache_after := cache;
         effects := sent ++ [ErrorRequestFailed e] |}
  end.

(** Cached request method for content API with ETag support. *)
Definition requestWithCache (endpoint : string) (options : JsObject)
    (customTTL : option Z) (w : World T) (cache : Cache) : Outcome T :=
  let cacheKey := cacheKeyOf endpoint options in
  let cached := JsMap.get cacheKey cache in
  let ttl := defaultTTL customTTL in
  let headers := requestHeaders cached (now_before w) options in
  let baseUrl :=
    if JsString.startsWith endpoint "/api/content"
    then CONTENT_API_URL cfg else API_BASE_URL cfg in
  let sent := [Fetch (baseUrl ++ endpoint)%string (fetchInit options headers)] in
  match fetched w with
  | FetchRejects e => onThrow cacheKey cached (now_after w) cache sent e
  | FetchResolves response =>
      match (if status response =? 304 then cached else None) with
      | Some c =>
          {| returned := hit c; cache_after := cache;
             effects := sent ++ [LogCacheHit cacheKey] |}
      | None =>
          match response_json response with
          | JsonRejects e => onThrow cacheKey cached (now_after w) cache sent e
          | JsonResolves result =>
              let etag := ETag response in
              let cacheControl := Cache_Control response in
              let contentVersion := Bankim_Content_Version response in
              let parsedTTL := parseTTL ttl cacheControl in
              if JsString.truthy_opt etag || JsString.truthy_opt contentVersion
              then
                {| returned := result;
                   cache_after :=
                     JsMap.set cacheKey
                       {| CacheEntry.data := data result;
                          CacheEntry.etag := validatorOf etag contentVersion;
                          CacheEntry.timestamp := now_after w;
                          CacheEntry.ttl := parsedTTL |}
                       cache;
                   effects := sent ++ [LogCached cacheKey parsedTTL] |}
              else
                {| returned := result; cache_after := cache;
                   effects := sent |}
          end
      end
  end.

(** Clear cache method. *)
Definition clearContentCache (cache : Cache) : Cache := JsMap.clear cache.

(** Get cache stats. *)
Record CacheStat : Type := {
  key : string;
  age : Z;
  hasEtag : bool
}.

Record CacheStats : Type := {
  size : nat;
  entries : list CacheStat
}.

Definition getCacheStats (now : Z) (cache : Cache) : CacheStats :=
  {| size := JsMap.size cache;
     entries :=
       map (fun kv : string * CacheEntry.t T =>
              {| key := fst kv;
                 age := now - CacheEntry.timestamp (snd kv);
                 hasEtag := JsString.truthy (CacheEntry.etag (snd kv)) |})
           (JsMap.entries cache) |}.

End ApiService.

(* ================================================================== *)
(** ** The content API: response shape, development fallback *)
(* ================================================================== *)

(** [string | string[]] *)
Inductive ContentValue : Type :=
| Text (s : string)
| Options (items : list string).

(** One value of [ContentApiResponse.content]. *)
Module ContentData.
Record t : Type := {
  value : ContentValue;
  component_type : string;
  category : string;
  language : string;
  status : string
}.
End ContentData.

(** [interface ContentApiResponse]. [content] is [None] when the decoded
    body has no such field (the aggregator tests for it). *)
Module ContentApiResponse.
Record t : Type := {
  status : string;
  screen_location : string;
  language_code : string;
  content_count : Z;
  content : option (JsMap.t ContentData.t)
}.
End ContentApiResponse.

(** [languageCode === 'ru' ? ru : languageCode === 'he' ? he : en] *)
Definition byLanguage (languageCode ru he en : string) : string :=
  if String.eqb languageCode "ru" then ru
  else if String.eqb languageCode "he" then he
  else en.

Definition mockItem (languageCode component_type category : string)
    (ru he en : string) : ContentData.t :=
  {| ContentData.value := Text (byLanguage languageCode ru he en);
     ContentData.component_type := component_type;
     ContentData.category := category;
     ContentData.language := languageCode;
     ContentData.status := "approved" |}.

(** The mock content of [getContentByScreen]. *)
Definition mockResponse (screenLocation languageCode : string)
  : ContentApiResponse.t :=
  {| ContentApiResponse.status := "success";
     ContentApiResponse.screen_location := screenLocation;
     ContentApiResponse.language_code := languageCode;
     ContentApiResponse.content_count := 7;
     ContentApiResponse.content := Some
       [ ("app.main.action.1.dropdown.income_source",
          mockItem languageCode "dropdown" "dropdowns"
            "Основной источник дохода" "מקור הכנסה עיקרי" "Primary Income Source");
         ("app.main.action.2.dropdown.employment_type",
          mockItem languageCode "dropdown" "dropdowns"
            "Тип занятости" "סוג תעסוקה" "Employment Type");
         ("app.main.action.3.dropdown.property_type",
          mockItem languageCode "dropdown" "dropdowns"
            "Тип недвижимости" "סוג נכס" "Property Type");
         ("app.main.action.4.text.page_title",
          mockItem languageCode "text" "headers"
            "Рассчитать Ипотеку" "חשב את המשכנתא שלך" "Calculate Mortgage");
         ("app.main.action.5.text.description",
          mockItem languageCode "text" "headers"
            "Кредитная история" "היסטוריית אשראי" "Credit History");
         ("app.main.action.6.text.document_type",
          mockItem languageCode "text" "labels"
            "Тип документа" "סוג מסמך" "Document Type");
         ("app.main.action.7.link.family_status",
          mockItem languageCode "link" "navigation"
            "Семейное положение" "מצב משפחתי" "Marital Status") ] |}.

(** New Content API Integration. *)
Definition getContentByScreen (cfg : Config)
    (screenLocation languageCode : string)
    (w : World ContentApiResponse.t)
    (cache : JsMap.t (CacheEntry.t ContentApiResponse.t))
  : Outcome ContentApiResponse.t :=
  if isPlaceholderUrl cfg (API_BASE_URL cfg)
  then {| returned :=
            {| success := true;
               data := Some (mockResponse screenLocation languageCode);
               error := None; message := None |};
          cache_after := cache;
          effects := [LogPlaceholder] |}
  else requestWithCache cfg
         ("/api/content/" ++ screenLocation ++ "/" ++ languageCode)%string
         [] None w cache.

(* ================================================================== *)
(** ** The content aggregator *)
(* ================================================================== *)

Inductive ContentType : Type := dropdown | text | link | mixed.

Inductive PageStatus : Type := published | draft.

(** [Partial<ContentPage>] as the aggregator fills it. The fields written
    when the page is created are always there; the titles and the content
    type are [None] until something is assigned to them. *)
Module ContentPage.
Record t : Type := {
  id : string;
  pageNumber : Z;
  actionCount : Z;
  category : string;
  status : PageStatus;
  createdAt : string;
  lastModified : string;
  createdBy : string;
  modifiedBy : string;
  url : string;
  title : option string;
  titleRu : option string;
  titleHe : option string;
  titleEn : option string;
  contentType : option ContentType
}.
End ContentPage.

Module Aggregator.

Import ContentPage.

(** [`${n}`] for the number [parseInt] returned. *)
Definition numberToString (n : Z) : string := NilEmpty.string_of_int (Z.to_int n).

(** [contentKey.match(/app\.main\.action\.(\d+)\./)], then [parseInt]. *)
Definition actionNumberOf (contentKey : string) : option Z :=
  match JsString.regex_search "app.main.action." "." contentKey with
  | Some digits => Some (JsString.parseInt digits)
  | None => None
  end.

Definition actionIdOf (actionNumber : Z) : string :=
  ("action-" ++ numberToString actionNumber)%string.

(** The page created at the first encounter of an action number. *)
Definition newPage (actionNumber : Z) (contentData : ContentData.t) : t :=
  {| id := actionIdOf actionNumber;
     pageNumber := actionNumber;
     actionCount := 1;
     category := "main";
     status := if String.eqb (ContentData.status contentData) "approved"
               then published else draft;
     createdAt := "2024-12-01";
     lastModified := "2024-12-15";
     createdBy := "content-manager";
     modifiedBy := "content-manager";
     url := ("/dropdown-action-" ++ numberToString actionNumber)%string;
     title := None; titleRu := None; titleHe := None; titleEn := None;
     contentType := None |}.

(** [Array.isArray(v) ? v[0] : v]; [None] is [undefined]. *)
Definition titleOf (v : ContentValue) : option string :=
  match v with
  | Text s => Some s
  | Options items => hd_error items
  end.

(** Set titles based on language. *)
Definition setTitles (language_code : string) (contentData : ContentData.t)
    (page : t) : t :=
  let v := titleOf (ContentData.value contentData) in
  if String.eqb language_code "ru" then
    {| id := id page; pageNumber := pageNumber page;
       actionCount := actionCount page; category := category page;
       status := status page; createdAt := createdAt page;
       lastModified := lastModified page; createdBy := createdBy page;
       modifiedBy := modifiedBy page; url := url page;
       title := v; titleRu := v;
       titleHe := titleHe page; titleEn := titleEn page;
       contentType := contentType page |}
  else if String.eqb language_code "he" then
    {| id := id page; pageNumber := pageNumber page;
       actionCount := actionCount page; category := category page;
       status := status page; createdAt := createdAt page;
       lastModified := lastModified page; createdBy := createdBy page;
       modifiedBy := modifiedBy page; url := url page;
       title := title page; titleRu := titleRu page;
       titleHe := v; titleEn := titleEn page;
       contentType := contentType page |}
  else if String.eqb language_code "en" then
    {| id := id page; pageNumber := pageNumber page;
       actionCount := actionCount page; category := category page;
       status := status page; createdAt := createdAt page;
       lastModified := lastModified page; createdBy := createdBy page;
       modifiedBy := modifiedBy page; url := url page;
       title := title page; titleRu := titleRu page;
       titleHe := titleHe page; titleEn := v;
       contentType := contentType page |}
  else page.

(** [n || 1] *)
Definition orOne (n : Z) : Z := if n =? 0 then 1 else n.

(** Set content type based on component type. *)
Definition setContentType (contentData : ContentData.t) (page : t) : t :=
  let ct := ContentData.component_type contentData in
  let kind :=
    if String.eqb ct "dropdown" then dropdown
    else if String.eqb ct "text" then text
    else if String.eqb ct "link" then link
    else mixed in
  let count :=
    if String.eqb ct "dropdown" then
      match ContentData.value contentData with
      | Options items =>
          Z.max (orOne (actionCount page)) (Z.of_nat (length items))
      | Text _ => actionCount page
      end
    else actionCount page in
  {| id := id page; pageNumber := pageNumber page;
     actionCount := count; category := category page;
     status := status page; createdAt := createdAt page;
     lastModified := lastModified page; createdBy := createdBy page;
     modifiedBy := modifiedBy page; url := url page;
     title := title page; titleRu := titleRu page;
     titleHe := titleHe page; titleEn := titleEn page;
     contentType := Some kind |}.

(** The body of the inner [forEach]: one [(contentKey, contentData)] of a
    response in language [language_code]. The page object is shared with
    the map, so assigning to its fields updates the entry in place. *)
Definition processEntry (language_code : string) (contentMap : JsMap.t t)
    (kv : string * ContentData.t) : JsMap.t t :=
  let (contentKey, contentData) := kv in
  match actionNumberOf contentKey with
  | None => contentMap
  | Some actionNumber =>
      let actionId := actionIdOf actionNumber in
      let contentMap1 :=
        if JsMap.has actionId contentMap then contentMap
        else JsMap.set actionId (newPage actionNumber contentData) contentMap in
      match JsMap.get actionId contentMap1 with
      | None => contentMap1
      | Some page =>
          JsMap.set actionId
            (setContentType contentData (setTitles language_code contentData page))
            contentMap1
      end
  end.

(** The body of the outer [forEach]. *)
Definition processResponse (contentMap : JsMap.t t)
    (response : ContentApiResponse.t) : JsMap.t t :=
  match ContentApiResponse.content response with
  | Some content =>
      fold_left (processEntry (ContentApiResponse.language_code response))
                (JsMap.entries content) contentMap
  | None => contentMap
  end.

(** [a || b] on [string | undefined]. *)
Definition orElse (a b : option string) : option string :=
  if JsString.truthy_opt a then a else b.

(** The [map] step: ensure all required fields are present. *)
Definition finalize (page : t) : t :=
  {| id := id page; pageNumber := pageNumber page;
     actionCount := orOne (actionCount page); category := category page;
     status := status page; createdAt := createdAt page;
     lastModified := lastModified page; createdBy := createdBy page;
     modifiedBy := modifiedBy page; url := url page;
     title := orElse (title page)
                (orElse (titleRu page) (orElse (titleEn page) (Some "Untitled")));
     titleRu := titleRu page;
     titleHe := titleHe page; titleEn := titleEn page;
     contentType := contentType page |}.

(** [Array.prototype.sort(compare)]: the sort is stable, and for a
    consistent comparator its result is the one of a stable insertion
    sort. *)
Section Sort.
Context {A : Type}.
Variable compare : A -> A -> Z.

Fixpoint insert (x : A) (l : list A) : list A :=
  match l with
  | [] => [x]
  | y :: l' => if compare x y <=? 0 then x :: y :: l' else y :: insert x l'
  end.

Fixpoint sort (l : list A) : list A :=
  match l with
  | [] => []
  | x :: l' => insert x (sort l')
  end.
End Sort.

(** [(a, b) => (a.pageNumber || 0) - (b.pageNumber || 0)] *)
Definition byPageNumber (a b : t) : Z := pageNumber a - pageNumber b.

Definition transformApiToContentPages (apiResponses : list ContentApiResponse.t)
  : list t :=
  let contentMap := fold_left processResponse apiResponses JsMap.empty in
  sort byPageNumber
    (map finalize
       (filter (fun page => JsString.truthy_opt (title page))
               (JsMap.values contentMap))).

(** [getAllMainPageLanguages], from the three settled results of
    [getContentByScreen('main_page', lang)] for [lang] in [ru, he, en]
    (the calls never reject: they return [success: false] instead). *)
Definition validResponses (results : list (ApiResponse ContentApiResponse.t))
  : list ContentApiResponse.t :=
  flat_map (fun r => if success r then
                       match data r with Some d => [d] | None => [] end
                     else []) results.

Definition getAllMainPageLanguages
    (results : list (ApiResponse ContentApiResponse.t))
  : ApiResponse (list t) :=
  match validResponses results with
  | [] => {| success := false; data := None;
             error := Some "No content data available for any language";
             message := None |}
  | valid => {| success := true;
                data := Some (transformApiToContentPages valid);
                error := None; message := None |}
  end.

End Aggregator.

(* ================================================================== *)
(** ** Vocabulary of the properties *)
(* ================================================================== *)

Module Props.

Import Json.

(** *** Requests and their headers *)

(** HTTP header names are compared without case. *)
Definition isConditionalName (k : string) : bool :=
  String.eqb (JsString.toLowerCase k) "if-none-match".

(** The conditional headers among the properties of a headers object. *)
Definition conditionalHeaders (headers : JsObject) : list (string * JsVal) :=
  filter (fun kv => isConditionalName (fst kv)) headers.

(** The [headers] object of every network call in a trace. *)
Definition sentHeaders (effs : list Effect) : list JsObject :=
  flat_map (fun e => match e with
                     | Fetch _ init => [own_props (prop "headers" init)]
                     | _ => []
                     end) effs.

(** The network calls of a trace. *)
Definition networkCalls (effs : list Effect) : list Effect :=
  filter is_fetch effs.

(** *** The development fallback *)

(** The addresses that [isPlaceholderUrl] takes for placeholders. *)
Definition placeholderPatterns : list string :=
  [ "your-api-domain.railway.app";
    "your-backend-domain.railway.app";
    "localhost:3001" ].

(** [url] matches a placeholder pattern: it contains one of them. *)
Definition matchesPlaceholder (url : string) : Prop :=
  exists pattern a b,
    In pattern placeholderPatterns /\ url = (a ++ pattern ++ b)%string.

(** The values of the content of a response, in order. *)
Definition contentValues (r : ContentApiResponse.t) : list ContentValue :=
  match ContentApiResponse.content r with
  | Some content => map (fun kv => ContentData.value (snd kv)) content
  | None => []
  end.

(** *** Response metadata *)

(** The seconds of the [max-age] directive of a [Cache-Control] value:
    the digits of the leftmost [max-age=<digits>]. *)
Definition maxAge (cacheControl : option string) : option Z :=
  match cacheControl with
  | Some cc =>
      match JsString.regex_search "max-age=" "" cc with
      | Some digits => Some (JsString.parseInt digits)
      | None => None
      end
  | None => None
  end.

(** A response carries a header when [headers.get] returns a non-empty
    string for it: [null] and the empty string are both falsy. *)
Definition carries (h : option string) (v : string) : Prop :=
  h = Some v /\ v <> EmptyString.

Definition carried (h : option string) : Prop := exists v, carries h v.

(** *** Histories of a service instance *)

(** The operations on the cache that the class offers: a cached request
    (through any of the public methods that use it), clearing the cache,
    reading its statistics. *)
Inductive Op (T : Type) : Type :=
| OpRequest (endpoint : string) (options : JsObject) (customTTL : option Z)
            (w : World T)
| OpClear
| OpStats (now : Z).
Arguments OpRequest {T}. Arguments OpClear {T}. Arguments OpStats {T}.

Definition step {T} (cfg : Config) (cache : JsMap.t (CacheEntry.t T))
    (op : Op T) : JsMap.t (CacheEntry.t T) :=
  match op with
  | OpRequest endpoint options customTTL w =>
      cache_after (requestWithCache cfg endpoint options customTTL w cache)
  | OpClear => clearContentCache cache
  | OpStats _ => cache
  end.

(** The cache of a fresh instance ([new Map()]) after a history. *)
Definition run {T} (cfg : Config) (history : list (Op T))
  : JsMap.t (CacheEntry.t T) :=
  fold_left (step cfg) history JsMap.empty.

(** *** Fingerprints *)

(** Two option objects describe the same request when every property has
    the same value in both, whatever the order they were written in. *)
Definition sameRequest (o1 o2 : JsObject) : Prop :=
  forall k, prop k o1 = prop k o2.

(** Every character, for checks by enumeration. *)
Definition all_ascii : list ascii := map ascii_of_nat (seq 0 256).

Fixpoint is_prefix (l1 l2 : list ascii) : bool :=
  match l1, l2 with
  | [], _ => true
  | _ :: _, [] => false
  | a :: l1', b :: l2' => Ascii.eqb a b && is_prefix l1' l2'
  end.

(** *** Aggregation *)

(** The content items of a list of responses with the language of their
    response, in the order the aggregator visits them. *)
Definition itemsOf (responses : list ContentApiResponse.t)
  : list (string * (string * ContentData.t)) :=
  flat_map (fun r =>
              match ContentApiResponse.content r with
              | Some content =>
                  map (fun kv => (ContentApiResponse.language_code r, kv))
                      (JsMap.entries content)
              | None => []
              end) responses.

(** Does an item belong to [language] and carry sequence number [n]? *)
Definition concerns (language : string) (n : Z)
    (item : string * (string * ContentData.t)) : bool :=
  String.eqb (fst item) language &&
  match Aggregator.actionNumberOf (fst (snd item)) with
  | Some m => m =? n
  | None => false
  end.

(** The titles that the responses in [language] supply for sequence
    number [n], in processing order. *)
Definition suppliedTitles (language : string) (n : Z)
    (items : list (string * (string * ContentData.t))) : list (option string) :=
  map (fun item => Aggregator.titleOf (ContentData.value (snd (snd item))))
      (filter (concerns language n) items).

(** The title that is in force at the end: the last one supplied. *)
Definition lastTitle (language : string) (n : Z)
    (items : list (string * (string * ContentData.t))) : option string :=
  last (suppliedTitles language n items) None.

(** Some response, in whatever language, supplies a non-empty title for
    sequence number [n]. *)
Definition someTitle (n : Z)
    (items : list (string * (string * ContentData.t))) : Prop :=
  exists item s,
    In item items /\
    Aggregator.actionNumberOf (fst (snd item)) = Some n /\
    Aggregator.titleOf (ContentData.value (snd (snd item))) = Some s /\
    s <> EmptyString.

(** An entry for sequence number [n] is in the output. *)
Definition appears (n : Z) (pages : list ContentPage.t) : Prop :=
  exists page, In page pages /\ ContentPage.pageNumber page = n.

(** The order of the output. *)
Definition ascending (a b : ContentPage.t) : Prop :=
  ContentPage.pageNumber a <= ContentPage.pageNumber b.

(** One step of the aggregator on an item of [itemsOf]. *)
Definition processItem (contentMap : JsMap.t ContentPage.t)
    (item : string * (string * ContentData.t)) : JsMap.t ContentPage.t :=
  Aggregator.processEntry (fst item) contentMap (snd item).

(** Every page of the map sits under the identifier of its own number,
    and no identifier occurs twice. *)
Definition wellKeyed (contentMap : JsMap.t ContentPage.t) : Prop :=
  NoDup (map fst contentMap)
  /\ Forall (fun kv => fst kv
                       = Aggregator.actionIdOf (ContentPage.pageNumber (snd kv)))
            contentMap.

(** What the map holds for sequence number [n] once [items] have been
    processed: nothing when no item carries [n], otherwise the page of
    [n] with, in each title slot, the last title its language supplied. *)
Definition tracks (n : Z) (items : list (string * (string * ContentData.t)))
    (contentMap : JsMap.t ContentPage.t) : Prop :=
  match JsMap.get (Aggregator.actionIdOf n) contentMap with
  | None =>
      forall item, In item items ->
                   Aggregator.actionNumberOf (fst (snd item)) <> Some n
  | Some page =>
      ContentPage.pageNumber page = n
      /\ ContentPage.title page = lastTitle "ru" n items
      /\ ContentPage.titleRu page = lastTitle "ru" n items
      /\ ContentPage.titleHe page = lastTitle "he" n items
      /\ ContentPage.titleEn page = lastTitle "en" n items
  end.

(** A response in Hebrew alone, with a title for sequence number 1. *)
Definition hebrewOnly : ContentApiResponse.t :=
  {| ContentApiResponse.status := "success";
     ContentApiResponse.screen_location := "main_page";
     ContentApiResponse.language_code := "he";
     ContentApiResponse.content_count := 1;
     ContentApiResponse.content := Some
       [("app.main.action.1.dropdown.income_source",
         {| ContentData.value := Text "Aleph";
            ContentData.component_type := "dropdown";
            ContentData.category := "dropdowns";
            ContentData.language := "he";
            ContentData.status := "approved" |})] |}.

(** The orders in which the sequence numbers 1, 2 and 3 can come. *)
Definition ordersOf123 : list (list Z) :=
  [[3; 1; 2]; [3; 2; 1]; [1; 2; 3]; [1; 3; 2]; [2; 1; 3]; [2; 3; 1]].

(** A response in Russian with one text item per sequence number, in the
    given order. *)
Definition ruResponse (sequence : list Z) : ContentApiResponse.t :=
  {| ContentApiResponse.status := "success";
     ContentApiResponse.screen_location := "main_page";
     ContentApiResponse.language_code := "ru";
     ContentApiResponse.content_count := Z.of_nat (length sequence);
     ContentApiResponse.content := Some
       (map (fun n =>
               (("app.main.action." ++ Aggregator.numberToString n ++ ".text.item")%string,
                {| ContentData.value := Text "title";
                   ContentData.component_type := "text";
                   ContentData.category := "headers";
                   ContentData.language := "ru";
                   ContentData.status := "approved" |}))
            sequence) |}.

(** The three results of [getAllMainPageLanguages]: Russian arrived,
    Hebrew failed, English arrived (with the Hebrew-only content). *)
Definition settledResults : list (ApiResponse ContentApiResponse.t) :=
  [ {| success := true; data := Some (ruResponse [3; 1; 2]);
       error := None; message := None |};
    {| success := false; data := None;
       error := Some "Failed to fetch"; message := None |};
    {| success := true; data := Some hebrewOnly;
       error := None; message := None |} ].

(** *** Sample data: a service whose payloads are strings *)

Definition sample_endpoint : string := "/api/content/mortgage".

Definition sample_key : string := "/api/content/mortgage{}".

(** An entry stored at time 0 with validator [v1] and a window of one
    second. *)
Definition sample_entry : CacheEntry.t string :=
  {| CacheEntry.data := Some "cached payload";
     CacheEntry.etag := "v1";
     CacheEntry.timestamp := 0;
     CacheEntry.ttl := 1000 |}.

Definition sample_cache : JsMap.t (CacheEntry.t string) :=
  [(sample_key, sample_entry)].

(** The network is down: [fetch] rejects with a [TypeError]. *)
Definition world_offline (now : Z) : World string :=
  {| now_before := now;
     fetched := FetchRejects (ErrorInstance "Failed to fetch");
     now_after := now |}.

(** The server answers 304 Not Modified. *)
Definition world_not_modified (now : Z) : World string :=
  {| now_before := now;
     fetched := FetchResolves
       {| status := 304; ETag := Some "v1"; Cache_Control := None;
          Bankim_Content_Version := None;
          body := JsonRejects (ErrorInstance "Unexpected end of JSON input") |};
     now_after := now |}.

Definition fresh_body : ApiResponse string :=
  {| success := true; data := Some "fresh payload";
     error := None; message := None |}.

(** The server answers 200 with a new body, validator [v2] and a
    [max-age] of one minute. *)
Definition world_ok (now : Z) : World string :=
  {| now_before := now;
     fetched := FetchResolves
       {| status := 200; ETag := Some "v2";
          Cache_Control := Some "public, max-age=60";
          Bankim_Content_Version := None;
          body := JsonResolves fresh_body |};
     now_after := now |}.

(** The server answers 200 with a body that is not JSON. *)
Definition world_malformed (now : Z) : World string :=
  {| now_before := now;
     fetched := FetchResolves
       {| status := 200; ETag := Some "v2"; Cache_Control := None;
          Bankim_Content_Version := None;
          body := JsonRejects
                    (ErrorInstance "Unexpected token < in JSON at position 0") |};
     now_after := now |}.

(** The network is down, for a service of content responses. *)
Definition world_of_content_failure (now : Z) : World ContentApiResponse.t :=
  {| now_before := now;
     fetched := FetchRejects (ErrorInstance "Failed to fetch");
     now_after := now |}.

(** The same POST request, written with its properties in two orders. *)
Definition post_method_first : JsObject :=
  [("method", VString "POST"); ("body", VString "{}")].

Definition post_body_first : JsObject :=
  [("body", VString "{}"); ("method", VString "POST")].

(** Two POST requests whose bodies are different forms. *)
Definition post_form (fields : string) : JsObject :=
  [("method", VString "POST"); ("body", VHost fields)].

(** Two POST requests whose bodies are different texts. *)
Definition post_text (body : string) : JsObject :=
  [("method", VString "POST"); ("body", VString body)].

(** Options with an [If-None-Match] header of the caller's own. *)
Definition caller_tag_options : JsObject :=
  [("headers", VObject [("If-None-Match", VString "caller-tag")])].

End Props.

(* ================================================================== *)
(** ** The uncached executor and the operations on top of the two *)
(* ================================================================== *)

Inductive ConsoleLevel : Type := ConsoleLog | ConsoleWarn | ConsoleError.

(** What an operation does besides returning: the effects of the
    executor it goes through, and its own console output (the text of
    the message; further arguments are left out). *)
Inductive Event : Type :=
| OfCall (e : Effect)
| Console (level : ConsoleLevel) (text : string).

Definition is_call (ev : Event) : bool :=
  match ev with
  | OfCall e => is_fetch e
  | Console _ _ => false
  end.

(** [{ headers: { 'Content-Type': 'application/json', ...options.headers },
      ...options }]: the options are spread last, over the [headers] that
    was just built. *)
Definition requestInit (options : Json.JsObject) : Json.JsObject :=
  JsMap.spread
    [("headers",
      Json.VObject
        (JsMap.spread [("Content-Type", Json.VString "application/json")]
                      (Json.own_props (Json.prop "headers" options))))]
    options.

(** [private async request<T>(endpoint, options)] *)
Definition request {T : Type} (cfg : Config) (endpoint : string)
    (options : Json.JsObject) (w : World T) : ApiResponse T * list Event :=
  let sent :=
    [OfCall (Fetch (API_BASE_URL cfg ++ endpoint)%string (requestInit options))] in
  let caught (e : Thrown) :=
    (failure e, sent ++ [Console ConsoleError "API request failed:"]) in
  match fetched w with
  | FetchRejects e => caught e
  | FetchResolves response =>
      match response_json response with
      | JsonRejects e => caught e
      | JsonResolves result => (result, sent)
      end
  end.

(** [deleteMainPageAction(actionId)] *)
Definition deleteMainPageAction (cfg : Config) (actionId : string)
    (w : World unit) : ApiResponse unit * list Event :=
  if isPlaceholderUrl cfg (API_BASE_URL cfg)
  then ({| success := true; data := None; error := None; message := None |},
        [Console ConsoleLog
           "API URL is placeholder, simulating delete action for development"])
  else request cfg ("/api/content/main/actions/" ++ actionId)%string
         [("method", Json.VString "DELETE")] w.

Section CachedOperations.

(** The payload of the endpoint is of type [any]; what the operation
    asks of it is its truthiness. *)
Context {T : Type}.
Variable truthyData : T -> bool.
Variable cfg : Config.



(** [response.error || 'Failed to fetch menu translations from database'] *)
Definition errorOr (e : option string) (fallback : string) : string :=
  match e with
  | Some s => if JsString.truthy s then s else fallback
  | None => fallback
  end.




End CachedOperations.

(* ================================================================== *)
(** ** The main page: its actions *)
(* ================================================================== *)

Inductive ActionStatus : Type :=
| action_published | action_draft | action_archived.

(** [interface MainPageAction]; dates are instants in milliseconds.
    [titleRu] is [None] when it was read from an empty array. *)
Module MainPageAction.
Record t : Type := {
  id : string;
  actionNumber : Z;
  title : string;
  titleRu : option string;
  titleHe : string;
  titleEn : string;
  actionType : string;
  status : ActionStatus;
  createdBy : string;
  lastModified : Z;
  createdAt : Z
}.
End MainPageAction.

(** [interface MainPageContent] *)
Module MainPageContent.
Record t : Type := {
  pageTitle : option string;
  actionCount : Z;
  lastModified : string;
  actions : list MainPageAction.t;
  galleryImages : list string
}.
End MainPageContent.

Module MainPage.

Import MainPageAction.

Section Operations.

(** The successive values of [new Date()] during a call, and the two
    formatting methods of [Date] for the locale [ru-RU]. *)
Variable clock : nat -> Z.
Variable toLocaleDateString : Z -> string.
Variable toLocaleTimeString : Z -> string.
Variable cfg : Config.

(** [key.match(/app\.main\.action\.(\d+)\.dropdown\./)], then [parseInt]. *)
Definition dropdownNumberOf (key : string) : option Z :=
  match JsString.regex_search "app.main.action." ".dropdown." key with
  | Some digits => Some (JsString.parseInt digits)
  | None => None
  end.

(** [`${value}`] for [string | string[]]: an array prints its items
    joined by commas. *)
Definition valueToString (v : ContentValue) : string :=
  match v with
  | Text s => s
  | Options items => String.concat "," items
  end.

(** [typeof v === 'string' ? v : v[0]] *)
Definition firstOf (v : ContentValue) : option string :=
  match v with
  | Text s => Some s
  | Options items => hd_error items
  end.

(** The action pushed for a matching key; [tick] counts the dates
    already taken. *)
Definition actionOf (tick : nat) (actionNumber : Z) (value : ContentData.t)
  : MainPageAction.t :=
  {| id := Aggregator.actionIdOf actionNumber;
     actionNumber := actionNumber;
     title := (Aggregator.numberToString actionNumber ++ "."
               ++ valueToString (ContentData.value value))%string;
     titleRu := firstOf (ContentData.value value);
     titleHe := EmptyString;
     titleEn := EmptyString;
     actionType := "Дропдаун";
     status := if String.eqb (ContentData.status value) "approved"
               then action_published else action_draft;
     createdBy := "content-manager";
     lastModified := clock tick;
     createdAt := clock (S tick) |}.

(** Extract actions from content: the [forEach] over
    [Object.entries(apiData.content)]. *)
Fixpoint extractActions (tick : nat) (content : JsMap.t ContentData.t)
  : list MainPageAction.t :=
  match content with
  | [] => []
  | (key, value) :: content' =>
      match dropdownNumberOf key with
      | Some actionNumber =>
          actionOf tick actionNumber value
          :: extractActions (S (S tick)) content'
      | None => extractActions tick content'
      end
  end.

(** [(a, b) => a.actionNumber - b.actionNumber] *)
Definition byActionNumber (a b : MainPageAction.t) : Z :=
  actionNumber a - actionNumber b.

(** [apiData.content['app.main.page.title']?.value || '...'], then
    [typeof pageTitle === 'string' ? pageTitle : pageTitle[0]]. An empty
    string is falsy, an array never is. *)
Definition pageTitleOf (content : JsMap.t ContentData.t) : option string :=
  match JsMap.get "app.main.page.title" content with
  | Some item =>
      match ContentData.value item with
      | Text EmptyString => Some "Калькулятор ипотеки Страница №2"
      | Text s => Some s
      | Options items => hd_error items
      end
  | None => Some "Калькулятор ипотеки Страница №2"
  end.

Definition galleryImages : list string :=
  [ "data:image/svg+xml;base64,PHN2ZyB3aWR0aD0iNDAwIiBoZWlnaHQ9IjMwMCIgeG1sbnM9Imh0dHA6Ly93d3cudzMub3JnLzIwMDAvc3ZnIj48cmVjdCB3aWR0aD0iMTAwJSIgaGVpZ2h0PSIxMDAlIiBmaWxsPSIjMUYyQTM3Ii8+PHRleHQgeD0iNTAlIiB5PSI1MCUiIGZvbnQtZmFtaWx5PSJBcmlhbCIgZm9udC1zaXplPSIyNCIgZmlsbD0iI0ZGRkZGRiIgdGV4dC1hbmNob3I9Im1pZGRsZSIgZHk9Ii4zZW0iPtCh0YLRgNCw0L3QuNGG0LAgMTwvdGV4dD48L3N2Zz4=";
    "data:image/svg+xml;base64,PHN2ZyB3aWR0aD0iNDAwIiBoZWlnaHQ9IjMwMCIgeG1sbnM9Imh0dHA6Ly93d3cudzMub3JnLzIwMDAvc3ZnIj48cmVjdCB3aWR0aD0iMTAwJSIgaGVpZ2h0PSIxMDAlIiBmaWxsPSIjMUYyQTM3Ci8+PHRleHQgeD0iNTAlIiB5PSI1MCUiIGZvbnQtZmFtaWx5PSJBcmlhbCIgZm9udC1zaXplPSIyNCIgZmlsbD0iI0ZGRkZGRiIgdGV4dC1hbmNob3I9Im1pZGRsZSIgZHk9Ii4zZW0iPtCh0YLRgNCw0L3QuNGG0LAgMjwvdGV4dD48L3N2Zz4=";
    "data:image/svg+xml;base64,PHN2ZyB3aWR0aD0iNDAwIiBoZWlnaHQ9IjMwMCIgeG1sbnM9Imh0dHA6Ly93d3cudzMub3JnLzIwMDAvc3ZnIj48cmVjdCB3aWR0aD0iMTAwJSIgaGVpZ2h0PSIxMDAlIiBmaWxsPSIjMUYyQTM3Ci8+PHRleHQgeD0iNTAlIiB5PSI1MCUiIGZvbnQtZmFtaWx5PSJBcmlhbCIgZm9udC1zaXplPSIyNCIgZmlsbD0iI0ZGRkZGRiIgdGV4dC1hbmNob3I9Im1pZGRsZSIgZHk9Ii4zZW0iPtCh0YLRgNCw0L3QuNGG0LAgMzwvdGV4dD48L3N2Zz4=";
    "data:image/svg+xml;base64,PHN2ZyB3aWR0aD0iNDAwIiBoZWlnaHQ9IjMwMCIgeG1sbnM9Imh0dHA6Ly93d3cudzMub3JnLzIwMDAvc3ZnIj48cmVjdCB3aWR0aD0iMTAwJSIgaGVpZ2h0PSIxMDAlIiBmaWxsPSIjMUYyQTM3Ci8+PHRleHQgeD0iNTAlIiB5PSI1MCUiIGZvbnQtZmFtaWx5PSJBcmlhbCIgZm9udC1zaXplPSIyNCIgZmlsbD0iI0ZGRkZGRiIgdGV4dC1hbmNob3I9Im1pZGRsZSIgZHk9Ii4zZW0iPtCh0YLRgNCw0L3QuNGG0LAgNDwvdGV4dD48L3N2Zz4=";
    "data:image/svg+xml;base64,PHN2ZyB3aWR0aD0iNDAwIiBoZWlnaHQ9IjMwMCIgeG1sbnM9Imh0dHA6Ly93d3cudzMub3JnLzIwMDAvc3ZnIj48cmVjdCB3aWR0aD0iMTAwJSIgaGVpZ2h0PSIxMDAlIiBmaWxsPSIjMUYyQTM3Ci8+PHRleHQgeD0iNTAlIiB5PSI1MCUiIGZvbnQtZmFtaWx5PSJBcmlhbCIgZm9udC1zaXplPSIyNCIgZmlsbD0iI0ZGRkZGRiIgdGV4dC1hbmNob3I9Im1pZGRsZSIgZHk9Ii4zZW0iPtCh0YLRgNCw0L3QuNGG0LAgNTwvdGV4dD48L3N2Zz4=";
    "data:image/svg+xml;base64,PHN2ZyB3aWR0aD0iNDAwIiBoZWlnaHQ9IjMwMCIgeG1sbnM9Imh0dHA6Ly93d3cudzMub3JnLzIwMDAvc3ZnIj48cmVjdCB3aWR0aD0iMTAwJSIgaGVpZ2h0PSIxMDAlIiBmaWxsPSIjMUYyQTM3Ci8+PHRleHQgeD0iNTAlIiB5PSI1MCUiIGZvbnQtZmFtaWx5PSJBcmlhbCIgZm9udC1saXNpdGl6ZT0iMjQiIGZpbGw9IiNGRkZGRkYiIHRleHQtYW5jaG9yPSJtaWRkbGUiIGR5PSIuM2VtIj7QodGC0YDQsNC90LjRhtCwIDY8L3RleHQ+PC9zdmc+" ].

Definition Result (A : Type) : Type :=
  (ApiResponse A * JsMap.t (CacheEntry.t ContentApiResponse.t) * list Event)%type.

(** [getMainPageContent()] *)
Definition getMainPageContent (w : World ContentApiResponse.t)
    (cache : JsMap.t (CacheEntry.t ContentApiResponse.t))
  : Result MainPageContent.t :=
  let out := getContentByScreen cfg "main_page" "ru" w cache in
  let contentResponse := returned out in
  let trace := map OfCall (effects out) in
  let caught (e : Thrown) : Result MainPageContent.t :=
    ({| success := false; data := None;
        error := Some (error_message e); message := None |},
     cache_after out,
     trace ++ [Console ConsoleError "Error fetching main page content:"]) in
  match (if success contentResponse then data contentResponse else None) with
  | None =>
      caught (ErrorInstance
                (errorOr (error contentResponse) "Failed to fetch content"))
  | Some apiData =>
      match ContentApiResponse.content apiData with
      | None =>
          (* [Object.entries(undefined)] throws a [TypeError] *)
          caught (ErrorInstance "Cannot convert undefined or null to object")
      | Some content =>
          let actions :=
            Aggregator.sort byActionNumber (extractActions 0 content) in
          let taken := (2 * length actions)%nat in
          ({| success := true;
              data := Some
                {| MainPageContent.pageTitle := pageTitleOf content;
                   MainPageContent.actionCount := Z.of_nat (length actions);
                   MainPageContent.lastModified :=
                     (toLocaleDateString (clock taken) ++ " | "
                      ++ toLocaleTimeString (clock (S taken)))%string;
                   MainPageContent.actions := actions;
                   MainPageContent.galleryImages := galleryImages |};
              error := None; message := None |},
           cache_after out, trace)
      end
  end.

(** [a => a.id === actionId || a.id === `action-${a.actionNumber}`] *)
Definition matchesAction (actionId : string) (a : MainPageAction.t) : bool :=
  String.eqb (id a) actionId
  || String.eqb (id a) (Aggregator.actionIdOf (actionNumber a)).

(** [getMainPageAction(actionId)]; the data is [Some None] for [null]. *)
Definition getMainPageAction (actionId : string)
    (w : World ContentApiResponse.t)
    (cache : JsMap.t (CacheEntry.t ContentApiResponse.t))
  : Result (option MainPageAction.t) :=
  let '(pagesResp, cache', trace) := getMainPageContent w cache in
  match (if success pagesResp then data pagesResp else None) with
  | None =>
      ({| success := false; data := None;
          error := Some (errorOr (error pagesResp)
                                 "Failed to load main page content");
          message := None |}, cache', trace)
  | Some content =>
      ({| success := true;
          data := Some (find (matchesAction actionId)
                             (MainPageContent.actions content));
          error := None; message := None |}, cache', trace)
  end.

End Operations.

End MainPage.

(* ================================================================== *)
(** ** Vocabulary of the further properties *)
(* ================================================================== *)

Module Behaviour.

Import Json.

(** The network calls of an operation. *)
Definition calls (trace : list Event) : list Effect :=
  flat_map (fun ev => match ev with
                      | OfCall (Fetch url init) => [Fetch url init]
                      | _ => []
                      end) trace.

(** The endpoint of [getContentByScreen]. *)
Definition screenEndpoint (screenLocation languageCode : string) : string :=
  ("/api/content/" ++ screenLocation ++ "/" ++ languageCode)%string.

(** A configuration whose addresses are real backends. *)
Definition production_config : Config := {|
  API_BASE_URL := "https://admin.bankim.example";
  CONTENT_API_URL := "https://content.bankim.example";
  USE_REAL_CONTENT_DATA := false;
  CONTENT_CACHE_TTL := 300000
|}.

(** The body of a server error. *)
Definition error_body : ApiResponse string :=
  {| success := false; data := None;
     error := Some "Internal server error"; message := None |}.

(** The server answers 500 with an error body and a validator. *)
Definition world_server_error (now : Z) : World string :=
  {| now_before := now;
     fetched := FetchResolves
       {| status := 500; ETag := Some "e500"; Cache_Control := None;
          Bankim_Content_Version := None;
          body := JsonResolves error_body |};
     now_after := now |}.

(** *** Aggregation *)

(** [Number.MAX_SAFE_INTEGER], 2^53 - 1. The numbers of the client are
    doubles: up to this bound [parseInt] reads a decimal numeral
    exactly, a template literal prints an integer in decimal, and a
    product of integers that stays within the bound is exact. Beyond it
    [parseInt] rounds. *)
Definition MAX_SAFE_INTEGER : Z := 9007199254740991.

(** A string of [k] zeros. *)
Fixpoint zeros (k : nat) : string :=
  match k with
  | O => EmptyString
  | S k' => String "0" (zeros k')
  end.

(** Does an item carry sequence number [n], in whatever language? *)
Definition carriesNumber (n : Z)
    (item : string * (string * ContentData.t)) : bool :=
  match Aggregator.actionNumberOf (fst (snd item)) with
  | Some m => m =? n
  | None => false
  end.

(** The items of sequence number [n], in processing order. *)
Definition itemsFor (n : Z) (items : list (string * (string * ContentData.t)))
  : list (string * (string * ContentData.t)) :=
  filter (carriesNumber n) items.

(** The classification of a component type. *)
Definition kindOf (component_type : string) : ContentType :=
  if String.eqb component_type "dropdown" then dropdown
  else if String.eqb component_type "text" then text
  else if String.eqb component_type "link" then link
  else mixed.

(** The publication status of a content status. *)
Definition statusOf (status : string) : PageStatus :=
  if String.eqb status "approved" then published else draft.

(** A response without the content whose key has no sequence number. *)
Definition actionKeysOnly (r : ContentApiResponse.t) : ContentApiResponse.t :=
  {| ContentApiResponse.status := ContentApiResponse.status r;
     ContentApiResponse.screen_location := ContentApiResponse.screen_location r;
     ContentApiResponse.language_code := ContentApiResponse.language_code r;
     ContentApiResponse.content_count := ContentApiResponse.content_count r;
     ContentApiResponse.content :=
       match ContentApiResponse.content r with
       | Some content =>
           Some (filter (fun kv =>
                           match Aggregator.actionNumberOf (fst kv) with
                           | Some _ => true
                           | None => false
                           end) content)
       | None => None
       end |}.

(** The fields of a page that follow from its sequence number, and the
    bounds its counters keep. *)
Definition shapedBy (n : Z) (page : ContentPage.t) : Prop :=
  0 <= n
  /\ ContentPage.pageNumber page = n
  /\ ContentPage.id page = Aggregator.actionIdOf n
  /\ ContentPage.url page
     = ("/dropdown-action-" ++ Aggregator.numberToString n)%string
  /\ ContentPage.category page = "main"
  /\ 1 <= ContentPage.actionCount page.

(** What the map holds for [n] beside the titles: the status of the first
    item that carried [n], the kind of the last. *)
Definition tracksMeta (n : Z) (items : list (string * (string * ContentData.t)))
    (contentMap : JsMap.t ContentPage.t) : Prop :=
  match JsMap.get (Aggregator.actionIdOf n) contentMap with
  | None => itemsFor n items = []
  | Some page =>
      shapedBy n page
      /\ exists first,
           hd_error (itemsFor n items) = Some first
           /\ ContentPage.status page
              = statusOf (ContentData.status (snd (snd first)))
           /\ ContentPage.contentType page
              = Some (kindOf (ContentData.component_type
                                (snd (snd (last (itemsFor n items) first)))))
  end.

(** The number of options of an item, when it is a dropdown whose value
    is an array. *)
Definition optionCount (item : string * (string * ContentData.t)) : list Z :=
  if String.eqb (ContentData.component_type (snd (snd item))) "dropdown"
  then match ContentData.value (snd (snd item)) with
       | Options options => [Z.of_nat (length options)]
       | Text _ => []
       end
  else [].

(** The option counts of the dropdowns of sequence number [n]. *)
Definition optionCounts (n : Z)
    (items : list (string * (string * ContentData.t))) : list Z :=
  flat_map optionCount (itemsFor n items).

(** The largest of [1] and the numbers of a list. *)
Definition largest (counts : list Z) : Z := fold_right Z.max 1 counts.

(** The counter the map holds for [n]. *)
Definition tracksCount (n : Z) (items : list (string * (string * ContentData.t)))
    (contentMap : JsMap.t ContentPage.t) : Prop :=
  match JsMap.get (Aggregator.actionIdOf n) contentMap with
  | None => itemsFor n items = []
  | Some page => ContentPage.actionCount page = largest (optionCounts n items)
  end.

(** A settled result that [getAllMainPageLanguages] can use. *)
Definition usable (r : ApiResponse ContentApiResponse.t) : bool :=
  success r && match data r with
               | Some _ => true
               | None => false
               end.

(** Two responses for one sequence number: a draft dropdown in Russian,
    then an approved text in Hebrew. *)
Definition draftDropdownRu : ContentApiResponse.t :=
  {| ContentApiResponse.status := "success";
     ContentApiResponse.screen_location := "main_page";
     ContentApiResponse.language_code := "ru";
     ContentApiResponse.content_count := 2;
     ContentApiResponse.content := Some
       [("app.main.page.title",
         {| ContentData.value := Text "Главная";
            ContentData.component_type := "text";
            ContentData.category := "headers";
            ContentData.language := "ru";
            ContentData.status := "approved" |});
        ("app.main.action.5.dropdown.bank",
         {| ContentData.value := Options ["Банк"; "Другой банк"];
            ContentData.component_type := "dropdown";
            ContentData.category := "dropdowns";
            ContentData.language := "ru";
            ContentData.status := "pending" |})] |}.

Definition approvedTextHe : ContentApiResponse.t :=
  {| ContentApiResponse.status := "success";
     ContentApiResponse.screen_location := "main_page";
     ContentApiResponse.language_code := "he";
     ContentApiResponse.content_count := 1;
     ContentApiResponse.content := Some
       [("app.main.action.05.text.bank",
         {| ContentData.value := Text "Bank";
            ContentData.component_type := "text";
            ContentData.category := "headers";
            ContentData.language := "he";
            ContentData.status := "approved" |})] |}.

(** The main page in Russian: two dropdowns, number 7 before number 3,
    and a key that is not a dropdown. *)
Definition twoDropdowns : ContentApiResponse.t :=
  {| ContentApiResponse.status := "success";
     ContentApiResponse.screen_location := "main_page";
     ContentApiResponse.language_code := "ru";
     ContentApiResponse.content_count := 3;
     ContentApiResponse.content := Some
       [("app.main.action.7.dropdown.city",
         {| ContentData.value := Text "Город";
            ContentData.component_type := "dropdown";
            ContentData.category := "dropdowns";
            ContentData.language := "ru";
            ContentData.status := "approved" |});
        ("app.main.action.3.text.note",
         {| ContentData.value := Text "Примечание";
            ContentData.component_type := "text";
            ContentData.category := "headers";
            ContentData.language := "ru";
            ContentData.status := "approved" |});
        ("app.main.action.3.dropdown.bank",
         {| ContentData.value := Options ["Банк"; "Другой банк"];
            ContentData.component_type := "dropdown";
            ContentData.category := "dropdowns";
            ContentData.language := "ru";
            ContentData.status := "pending" |})] |}.

(** The server answers 200 with the given content and a validator. *)
Definition world_of_content (now : Z) (r : ContentApiResponse.t)
  : World ContentApiResponse.t :=
  {| now_before := now;
     fetched := FetchResolves
       {| status := 200; ETag := Some "c1"; Cache_Control := None;
          Bankim_Content_Version := None;
          body := JsonResolves
                    {| success := true; data := Some r;
                       error := None; message := None |} |};
     now_after := now |}.

(** A cache that holds the Hebrew main page. *)
Definition hebrew_cache : JsMap.t (CacheEntry.t ContentApiResponse.t) :=
  [(cacheKeyOf (screenEndpoint "main_page" "he") [],
    {| CacheEntry.data := Some Props.hebrewOnly;
       CacheEntry.etag := "he1";
       CacheEntry.timestamp := 0;
       CacheEntry.ttl := 1000 |})].


(** The network is down, for an operation without payload. *)
Definition world_of_delete_failure : World unit :=
  {| now_before := 0;
     fetched := FetchRejects (ErrorInstance "Failed to fetch");
     now_after := 0 |}.

(** A clock that stands still, and formatting that prints nothing. *)
Definition still_clock (tick : nat) : Z := 0.

Definition no_format (instant : Z) : string := EmptyString.

End Behaviour.

(* ================================================================== *)
(** * Properties *)
(* ================================================================== *)

(** ** Maps *)

Module JsMapFacts.

Section Facts.
Context {V : Type}.
Implicit Types (m : JsMap.t V) (k : string) (v : V).

Lemma get_set_same k v m : JsMap.get k (JsMap.set k v m) = Some v.
Proof.
  induction m as [|[k' v'] m IH]; simpl.
  - now rewrite String.eqb_refl.
  - destruct (String.eqb k k') eqn:E; simpl; rewrite ?E, ?String.eqb_refl; auto.
Qed.

Lemma get_set_other k k' v m :
  k' <> k -> JsMap.get k' (JsMap.set k v m) = JsMap.get k' m.
Proof.
  intros Hne. induction m as [|[k0 v0] m IH]; simpl.
  - destruct (String.eqb k' k) eqn:E; auto.
    apply String.eqb_eq in E. contradiction.
  - destruct (String.eqb k k0) eqn:E; simpl.
    + apply String.eqb_eq in E. subst k0.
      destruct (String.eqb k' k) eqn:E'; auto.
      apply String.eqb_eq in E'. contradiction.
    + now rewrite IH.
Qed.

(** Every value of [set k v m] is [v] or a value of [m]. *)
Lemma in_set k v m kv :
  In kv (JsMap.set k v m) -> kv = (k, v) \/ In kv m.
Proof.
  induction m as [|[k0 v0] m IH]; simpl.
  - intros [H|[]]; auto.
  - destruct (String.eqb k k0); simpl; intros [H|H]; auto.
    destruct (IH H); auto.
Qed.

Lemma get_in k v m : JsMap.get k m = Some v -> In (k, v) m.
Proof.
  induction m as [|[k0 v0] m IH]; simpl; [discriminate|].
  destruct (String.eqb k k0) eqn:E.
  - apply String.eqb_eq in E. subst. intros [= ->]. now left.
  - intros H. right. auto.
Qed.

Lemma keys_set k v m :
  map fst (JsMap.set k v m) =
  if JsMap.has k m then map fst m else map fst m ++ [k].
Proof.
  unfold JsMap.has.
  induction m as [|[k0 v0] m IH]; simpl; auto.
  destruct (String.eqb k k0) eqn:E; simpl.
  - apply String.eqb_eq in E. now subst.
  - rewrite IH. now destruct (JsMap.get k m).
Qed.

Lemma has_in_keys k m : JsMap.has k m = true <-> In k (map fst m).
Proof.
  unfold JsMap.has.
  induction m as [|[k0 v0] m IH]; simpl.
  - split; [discriminate | tauto].
  - destruct (String.eqb k k0) eqn:E.
    + apply String.eqb_eq in E. subst. tauto.
    + rewrite IH. split; auto. intros [H|H]; auto.
      subst. now rewrite String.eqb_refl in E.
Qed.

Lemma NoDup_keys_set k v m :
  NoDup (map fst m) -> NoDup (map fst (JsMap.set k v m)).
Proof.
  intros Hnd. rewrite keys_set.
  destruct (JsMap.has k m) eqn:E; auto.
  apply NoDup_app; auto.
  - constructor; [intros [] | constructor].
  - intros x Hx [<-|[]]. apply has_in_keys in Hx. congruence.
Qed.

Lemma in_get k v m : NoDup (map fst m) -> In (k, v) m -> JsMap.get k m = Some v.
Proof.
  induction m as [|[k0 v0] m IH]; simpl; [tauto|].
  intros Hnd [H|H].
  - injection H as -> ->. now rewrite String.eqb_refl.
  - inversion Hnd; subst.
    destruct (String.eqb k k0) eqn:E; auto.
    apply String.eqb_eq in E. subst k0.
    exfalso. apply H2. now apply (in_map fst) in H.
Qed.

(** Writing a property that a filter on names rejects does not change
    what the filter keeps. *)
Lemma filter_set (P : string -> bool) k v m :
  P k = false ->
  filter (fun kv => P (fst kv)) (JsMap.set k v m) =
  filter (fun kv => P (fst kv)) m.
Proof.
  intros HP. induction m as [|[k0 v0] m IH]; simpl.
  - now rewrite HP.
  - destruct (String.eqb k k0) eqn:E; simpl.
    + apply String.eqb_eq in E. subst k0. now rewrite HP.
    + now rewrite IH.
Qed.

Lemma filter_spread (P : string -> bool) (a b : JsMap.t V) :
  filter (fun kv => P (fst kv)) b = [] ->
  filter (fun kv => P (fst kv)) (JsMap.spread a b) =
  filter (fun kv => P (fst kv)) a.
Proof.
  unfold JsMap.spread. revert a.
  induction b as [|[k v] b IH]; simpl; intros a Hb; auto.
  destruct (P k) eqn:E; [discriminate|].
  rewrite IH by assumption. now apply filter_set.
Qed.

End Facts.

End JsMapFacts.

(** ** Strings *)

Module JsStringFacts.

Import JsString.

Lemma strip_prefix_spec p s r : strip_prefix p s = Some r <-> s = (p ++ r)%string.
Proof.
  revert s. induction p as [|a p IH]; intros s; simpl.
  - split; [now intros [= ->] | now intros ->].
  - destruct s as [|b s].
    + split; discriminate.
    + destruct (Ascii.eqb_spec a b) as [->|Hne].
      * rewrite IH. split; [now intros -> | now intros [= ->]].
      * split; [discriminate | intros [= <- _]; contradiction].
  Qed.

Lemma includes_unfold s p :
  includes s p =
  startsWith s p || match s with
                    | EmptyString => false
                    | String _ t => includes t p
                    end.
Proof. now destruct s. Qed.

(** [includes] finds exactly the substrings. *)
Lemma includes_spec s p :
  includes s p = true <-> exists a b, s = (a ++ p ++ b)%string.
Proof.
  split.
  - induction s as [|c s IH]; rewrite includes_unfold; unfold startsWith;
      destruct (strip_prefix p _) as [r|] eqn:E; simpl; try discriminate;
      try (intros _; apply strip_prefix_spec in E; now exists EmptyString, r).
    intros H. destruct (IH H) as [a [b ->]]. now exists (String c a), b.
  - intros [a [b ->]]. induction a as [|c a IH]; rewrite includes_unfold.
    + unfold startsWith.
      destruct (strip_prefix p _) as [r|] eqn:E; [reflexivity|].
      assert (H : strip_prefix p (p ++ b) = Some b) by now apply strip_prefix_spec.
      simpl in E. congruence.
    + simpl (match _ with EmptyString => _ | String _ _ => _ end).
      rewrite IH. apply orb_true_r.
Qed.

Lemma take_digits_spec s ds rest :
  take_digits s = (ds, rest) -> s = (ds ++ rest)%string.
Proof.
  revert ds rest. induction s as [|c s IH]; simpl; intros ds rest.
  - now intros [= <- <-].
  - destruct (is_digit c).
    + destruct (take_digits s) as [ds' rest']. intros [= <- <-].
      simpl. f_equal. now apply IH.
    + now intros [= <- <-].
Qed.

(** A match of [pre(\d+)post] is an occurrence of [pre], a non-empty
    group and [post] in the subject. *)
Lemma regex_search_sound pre post s ds :
  regex_search pre post s = Some ds ->
  ds <> EmptyString /\
  exists a b, s = (a ++ pre ++ ds ++ post ++ b)%string.
Proof.
  assert (Hat : forall s, match_at pre post s = Some ds ->
            ds <> EmptyString /\ exists b, s = (pre ++ ds ++ post ++ b)%string).
  { intros s0. unfold match_at.
    destruct (strip_prefix pre s0) as [r|] eqn:E; [|discriminate].
    destruct (take_digits r) as [ds' rest] eqn:Et.
    destruct ds' as [|d ds']; [discriminate|].
    unfold startsWith.
    destruct (strip_prefix post rest) as [b|] eqn:Ep; [|discriminate].
    intros [= <-]. split; [discriminate|]. exists b.
    apply strip_prefix_spec in E, Ep. apply take_digits_spec in Et.
    now subst. }
  induction s as [|c s IH]; simpl.
  - destruct (match_at pre post "") eqn:E; [|discriminate].
    intros [= ->]. destruct (Hat _ E) as [Hne [b Hb]].
    split; auto. now exists EmptyString, b.
  - destruct (match_at pre post (String c s)) eqn:E.
    + intros [= ->]. destruct (Hat _ E) as [Hne [b Hb]].
      split; auto. now exists EmptyString, b.
    + intros H. destruct (IH H) as [Hne [a [b ->]]].
      split; auto. now exists (String c a), b.
Qed.

Lemma regex_search_includes pre post s ds :
  regex_search pre post s = Some ds -> includes s pre = true.
Proof.
  intros H. apply regex_search_sound in H. destruct H as [_ [a [b ->]]].
  apply includes_spec. now exists a, (ds ++ post ++ b)%string.
Qed.

Lemma includes_truthy s p :
  p <> EmptyString -> includes s p = true -> truthy s = true.
Proof.
  intros Hp. destruct s; [|reflexivity].
  destruct p; [contradiction|]. discriminate.
Qed.

Lemma truthy_opt_spec (o : option string) :
  truthy_opt o = true <-> exists s, o = Some s /\ s <> EmptyString.
Proof.
  destruct o as [[|c s]|]; simpl; split; try discriminate.
  - intros [s [[= <-] H]]. contradiction.
  - intros _. eexists. split; [reflexivity | discriminate].
  - reflexivity.
  - intros [s [H _]]. discriminate.
Qed.

End JsStringFacts.

(** ** The cached request executor *)

Module CacheProps.

Import Json Props.

Section Executor.

Context {T : Type}.
Variable cfg : Config.

Implicit Types (endpoint : string) (options : JsObject)
  (customTTL : option Z) (w : World T) (cache : JsMap.t (CacheEntry.t T)).

(** The [catch] clause never writes the cache. *)
Lemma onThrow_cache cacheKey cached now cache sent e :
  cache_after (onThrow (T:=T) cacheKey cached now cache sent e) = cache.
Proof.
  unfold onThrow. destruct cached as [c|]; [|reflexivity].
  now destruct (_ <? _).
Qed.

(** A call whose [fetch] rejects ends in the [catch] clause. *)
Lemma requestWithCache_rejected endpoint options customTTL w cache e :
  fetched w = FetchRejects e ->
  requestWithCache cfg endpoint options customTTL w cache =
  onThrow (cacheKeyOf endpoint options)
    (JsMap.get (cacheKeyOf endpoint options) cache) (now_after w) cache
    [Fetch ((if JsString.startsWith endpoint "/api/content"
             then CONTENT_API_URL cfg else API_BASE_URL cfg) ++ endpoint)%string
           (fetchInit options
              (requestHeaders
                 (JsMap.get (cacheKeyOf endpoint options) cache)
                 (now_before w) options))]
    e.
Proof. intros H. unfold requestWithCache. now rewrite H. Qed.

(** C1 (amended). When [fetch] throws: if the cache holds an entry for
    the fingerprint of the request and the age of the entry, at the
    time of the failure, is less than twice its ttl, the call returns
    success with the cached payload; that stale cache was served is
    recorded by one console warning, [Network error, using stale cache]
    with the fingerprint, and by nothing in the result, which is the
    very result of a 304 hit on the same entry. Otherwise (no entry, or
    an age of at least twice the ttl) the call returns a failure whose
    error is the message of the thrown error, or [Unknown error
    occurred] when what was thrown is not an [Error], and nothing is
    warned. The cache is left as it was. *)
Theorem transport_failure_stale_fallback
    endpoint options customTTL w cache (e : Thrown) :
  fetched w = FetchRejects e ->
  let cacheKey := cacheKeyOf endpoint options in
  let out := requestWithCache cfg endpoint options customTTL w cache in
  (forall c,
      JsMap.get cacheKey cache = Some c ->
      now_after w - CacheEntry.timestamp c < 2 * CacheEntry.ttl c ->
      returned out = {| success := true; data := CacheEntry.data c;
                        error := None; message := None |}
      /\ (exists url init,
             effects out = [Fetch url init; WarnStaleCache cacheKey])
      /\ (forall w' r,
             fetched w' = FetchResolves r -> status r = 304 ->
             returned (requestWithCache cfg endpoint options customTTL w' cache)
             = returned out))
  /\ (JsMap.get cacheKey cache = None
      \/ (exists c, JsMap.get cacheKey cache = Some c
                    /\ 2 * CacheEntry.ttl c
                       <= now_after w - CacheEntry.timestamp c) ->
      returned out
      = {| success := false; data := None;
           error := Some match e with
                         | ErrorInstance msg => msg
                         | NotAnError => "Unknown error occurred"
                         end;
           message := None |}
      /\ ~ In (WarnStaleCache cacheKey) (effects out))
  /\ cache_after out = cache.
Proof.
  intros Hw cacheKey out. subst out.
  rewrite (requestWithCache_rejected _ _ _ _ _ _ Hw). fold cacheKey.
  split; [|split].
  - intros c Hc Hage. rewrite Hc. unfold onThrow.
    destruct (Z.ltb_spec (now_after w - CacheEntry.timestamp c)
                         (CacheEntry.ttl c * 2)) as [_|Hge]; [|lia].
    simpl. split; [reflexivity|]. split; [eexists; eexists; reflexivity|].
    intros w' r Hw' Hs. unfold requestWithCache. fold cacheKey.
    rewrite Hw', Hs, Hc. reflexivity.
  - intros [Hnone | [c [Hc Hage]]].
    + rewrite Hnone. simpl. split; [now destruct e|].
      intros [H|[H|[]]]; discriminate.
    + rewrite Hc. unfold onThrow.
      destruct (Z.ltb_spec (now_after w - CacheEntry.timestamp c)
                           (CacheEntry.ttl c * 2)) as [Hlt|_]; [lia|].
      simpl. split; [now destruct e|].
      intros [H|[H|[]]]; discriminate.
  - apply onThrow_cache.
Qed.

(** C2. When the server answers 304: with an entry for the fingerprint
    in the cache the call returns success with the payload of that
    entry and writes nothing; without one it returns a failure without
    data, and again writes nothing. *)
Theorem not_modified_returns_cached
    endpoint options customTTL w cache (r : Response T) :
  fetched w = FetchResolves r ->
  status r = 304 ->
  let cacheKey := cacheKeyOf endpoint options in
  let out := requestWithCache cfg endpoint options customTTL w cache in
  (forall c,
      JsMap.get cacheKey cache = Some c ->
      returned out = {| success := true; data := CacheEntry.data c;
                        error := None; message := None |}
      /\ cache_after out = cache)
  /\ (JsMap.get cacheKey cache = None ->
      success (returned out) = false
      /\ data (returned out) = None
      /\ cache_after out = cache).
Proof.
  intros Hw Hs cacheKey out. subst out. unfold requestWithCache.
  fold cacheKey. rewrite Hw, Hs. simpl (304 =? 304).
  split.
  - intros c Hc. rewrite Hc. simpl. auto.
  - intros Hnone. rewrite Hnone. cbv iota.
    unfold response_json. rewrite Hs. simpl. auto.
Qed.

(** *** Response metadata *)

Lemma carries_truthy (h : option string) v :
  carries h v -> JsString.truthy_opt h = true.
Proof. intros [-> Hv]. destruct v; [contradiction | reflexivity]. Qed.

Lemma not_carried_falsy (h : option string) :
  ~ carried h -> JsString.truthy_opt h = false.
Proof.
  intros Hn. destruct h as [[|c s]|]; try reflexivity.
  exfalso. apply Hn. exists (String c s). split; [reflexivity | discriminate].
Qed.

Lemma validatorOf_truthy (etag contentVersion : option string) :
  JsString.truthy_opt etag || JsString.truthy_opt contentVersion = true ->
  validatorOf etag contentVersion <> EmptyString.
Proof.
  unfold validatorOf.
  destruct etag as [[|c s]|]; simpl; try discriminate;
    destruct contentVersion as [[|c' s']|]; simpl; discriminate.
Qed.

(** The freshness window: the [max-age] of the response in
    milliseconds, the default without one. *)
Lemma parseTTL_maxAge (ttl : Z) (cacheControl : option string) :
  parseTTL ttl cacheControl =
  match maxAge cacheControl with
  | Some seconds => seconds * 1000
  | None => ttl
  end.
Proof.
  unfold parseTTL, maxAge. destruct cacheControl as [cc|]; [|reflexivity].
  destruct (JsString.regex_search "max-age=" "" cc) as [ds|] eqn:E.
  - pose proof (JsStringFacts.regex_search_includes _ _ _ _ E) as Hi.
    rewrite Hi, (JsStringFacts.includes_truthy cc "max-age="); auto.
    discriminate.
  - now destruct (_ && _).
Qed.

(** *** The shape of a call *)

(** Every call sends exactly one request, first of all: the trace is
    the [fetch] followed by console output. *)
Lemma requestWithCache_effects endpoint options customTTL w cache :
  exists url tail,
    effects (requestWithCache cfg endpoint options customTTL w cache) =
    Fetch url
      (fetchInit options
         (requestHeaders (JsMap.get (cacheKeyOf endpoint options) cache)
                         (now_before w) options)) :: tail
    /\ Forall (fun e => is_fetch e = false) tail.
Proof.
  unfold requestWithCache, onThrow.
  repeat match goal with
         | |- context [match ?x with _ => _ end] => destruct x
         end; simpl; eexists; eexists; (split; [reflexivity|]);
    repeat constructor.
Qed.

(** A call leaves the cache as it was or writes one entry, under the
    fingerprint of the request and with a non-empty validator. *)
Lemma requestWithCache_cache_after endpoint options customTTL w cache :
  let out := requestWithCache cfg endpoint options customTTL w cache in
  cache_after out = cache
  \/ exists entry,
      cache_after out = JsMap.set (cacheKeyOf endpoint options) entry cache
      /\ CacheEntry.etag entry <> EmptyString.
Proof.
  unfold requestWithCache.
  destruct (fetched w) as [e|r]; [left; apply onThrow_cache|].
  destruct (if status r =? 304 then _ else _); [now left|].
  destruct (response_json r) as [e|result]; [left; apply onThrow_cache|].
  destruct (JsString.truthy_opt (ETag r)
            || JsString.truthy_opt (Bankim_Content_Version r)) eqn:E;
    [|now left].
  right. eexists. split; [reflexivity|]. simpl.
  now apply validatorOf_truthy.
Qed.

(** C4. A response other than 304 whose body decodes to [result]: the
    call returns [result]; it writes an entry under the fingerprint
    when the response carries an [ETag] or a [Bankim-Content-Version]
    header, and nothing otherwise. The validator of the entry is the
    [ETag] when the response carries one (so also when it carries
    both), the content version otherwise; its payload is
    [result.data], its timestamp the time of the write, and its window
    the [max-age] of [Cache-Control] in milliseconds, or the default
    ttl without such a directive. *)
Theorem successful_response_is_cached
    endpoint options customTTL w cache (r : Response T)
    (result : ApiResponse T) :
  fetched w = FetchResolves r ->
  status r <> 304 ->
  response_json r = JsonResolves result ->
  let cacheKey := cacheKeyOf endpoint options in
  let out := requestWithCache cfg endpoint options customTTL w cache in
  let window := match maxAge (Cache_Control r) with
                | Some seconds => seconds * 1000
                | None => defaultTTL cfg customTTL
                end in
  let entry validator :=
    {| CacheEntry.data := data result;
       CacheEntry.etag := validator;
       CacheEntry.timestamp := now_after w;
       CacheEntry.ttl := window |} in
  returned out = result
  /\ (forall v, carries (ETag r) v ->
                cache_after out = JsMap.set cacheKey (entry v) cache)
  /\ (forall v, ~ carried (ETag r) ->
                carries (Bankim_Content_Version r) v ->
                cache_after out = JsMap.set cacheKey (entry v) cache)
  /\ (~ carried (ETag r) -> ~ carried (Bankim_Content_Version r) ->
      cache_after out = cache).
Proof.
  intros Hw Hs Hj cacheKey out window entry. subst out.
  unfold requestWithCache. fold cacheKey. rewrite Hw.
  apply Z.eqb_neq in Hs. rewrite Hs, Hj, parseTTL_maxAge. fold window.
  repeat split.
  - now destruct (_ || _).
  - intros v Hv. rewrite (carries_truthy _ _ Hv). simpl.
    unfold validatorOf. rewrite (carries_truthy _ _ Hv).
    destruct Hv as [-> _]. reflexivity.
  - intros v Hne Hv.
    rewrite (not_carried_falsy _ Hne), (carries_truthy _ _ Hv). simpl.
    unfold validatorOf.
    rewrite (not_carried_falsy _ Hne), (carries_truthy _ _ Hv).
    destruct Hv as [-> _]. reflexivity.
  - intros Hne Hnv.
    now rewrite (not_carried_falsy _ Hne), (not_carried_falsy _ Hnv).
Qed.

(** What a body that does not decode leads to: the [catch] clause, the
    one that serves transport failures. *)
Lemma decode_failure_is_caught
    endpoint options customTTL w cache (r : Response T) (e : Thrown) :
  fetched w = FetchResolves r ->
  status r <> 304 ->
  response_json r = JsonRejects e ->
  exists sent,
    requestWithCache cfg endpoint options customTTL w cache =
    onThrow (cacheKeyOf endpoint options)
      (JsMap.get (cacheKeyOf endpoint options) cache) (now_after w)
      cache sent e.
Proof.
  intros Hw Hs Hj. unfold requestWithCache. rewrite Hw.
  apply Z.eqb_neq in Hs. rewrite Hs, Hj. eexists. reflexivity.
Qed.

(** *** Histories *)

Lemma step_validators (cache : JsMap.t (CacheEntry.t T)) (op : Op T) :
  Forall (fun kv => CacheEntry.etag (snd kv) <> EmptyString) cache ->
  Forall (fun kv => CacheEntry.etag (snd kv) <> EmptyString) (step cfg cache op).
Proof.
  intros Hinv. destruct op as [endpoint options customTTL w| |now]; simpl.
  - destruct (requestWithCache_cache_after endpoint options customTTL w cache)
      as [->|[entry [-> Hentry]]]; auto.
    apply Forall_forall. intros kv Hin.
    apply JsMapFacts.in_set in Hin. destruct Hin as [->|Hin]; auto.
    revert kv Hin. now apply Forall_forall.
  - constructor.
  - assumption.
Qed.

Lemma run_validators (history : list (Op T)) (cache : JsMap.t (CacheEntry.t T)) :
  Forall (fun kv => CacheEntry.etag (snd kv) <> EmptyString) cache ->
  Forall (fun kv => CacheEntry.etag (snd kv) <> EmptyString)
         (fold_left (step cfg) history cache).
Proof.
  revert cache. induction history as [|op history IH]; simpl; auto.
  intros cache Hinv. apply IH. now apply step_validators.
Qed.

(** A call writes the cache only on a response that carries an [ETag]
    or a content version. *)
Lemma write_needs_validator endpoint options customTTL w cache :
  cache_after (requestWithCache cfg endpoint options customTTL w cache) <> cache ->
  exists r,
    fetched w = FetchResolves r
    /\ (carried (ETag r) \/ carried (Bankim_Content_Version r)).
Proof.
  unfold requestWithCache.
  destruct (fetched w) as [e|r]; [now rewrite onThrow_cache|].
  intros Hw. exists r. split; [reflexivity|]. revert Hw.
  destruct (if status r =? 304 then _ else _); [contradiction|].
  destruct (response_json r) as [e|result]; [now rewrite onThrow_cache|].
  destruct (JsString.truthy_opt (ETag r)) eqn:Ee.
  - intros _. left. now apply JsStringFacts.truthy_opt_spec.
  - destruct (JsString.truthy_opt (Bankim_Content_Version r)) eqn:Ev.
    + intros _. right. now apply JsStringFacts.truthy_opt_spec.
    + simpl. contradiction.
Qed.

(** C10. Whatever the history of a service instance (cached requests in
    any world, clearing, reading statistics), every entry of its cache
    has a non-empty validator, and [getCacheStats] reports
    [hasEtag = true] for every entry. A call writes the cache only when
    the response carried an [ETag] or a content version. *)
Theorem stored_entries_have_validator (history : list (Op T)) (now : Z) :
  Forall (fun kv => CacheEntry.etag (snd kv) <> EmptyString)
         (JsMap.entries (run cfg history))
  /\ Forall (fun stat => hasEtag stat = true)
            (entries (getCacheStats now (run cfg history)))
  /\ (forall endpoint options customTTL w cache,
         cache_after (requestWithCache cfg endpoint options customTTL w cache)
         <> cache ->
         exists r,
           fetched w = FetchResolves r
           /\ (carried (ETag r) \/ carried (Bankim_Content_Version r))).
Proof.
  assert (H : Forall (fun kv => CacheEntry.etag (snd kv) <> EmptyString)
                     (run cfg history))
    by (apply run_validators; constructor).
  split; [exact H|]. split; [|exact write_needs_validator].
  unfold getCacheStats, JsMap.entries. simpl.
  apply Forall_map. revert H. apply Forall_impl.
  intros [k c] Hc. simpl in *. now destruct (CacheEntry.etag c).
Qed.

(** *** The conditional header *)

Lemma conditionalHeaders_request
    (cached : option (CacheEntry.t T)) (now : Z) options :
  conditionalHeaders (own_props (prop "headers" options)) = [] ->
  conditionalHeaders (requestHeaders cached now options) =
  conditionalHeader cached now.
Proof.
  intros Hopt. unfold requestHeaders, conditionalHeaders in *.
  rewrite (JsMapFacts.filter_spread isConditionalName) by exact Hopt.
  unfold conditionalHeader.
  destruct cached as [c|]; [|reflexivity].
  now destruct (_ && _).
Qed.

Lemma sentHeaders_no_fetch (tail : list Effect) :
  Forall (fun e => is_fetch e = false) tail -> sentHeaders tail = [].
Proof.
  induction 1 as [|e tail He _ IH]; [reflexivity|].
  unfold sentHeaders in *. simpl. rewrite IH.
  now destruct e.
Qed.

(** C3 (amended). When the options of the caller bring no
    [If-None-Match] header of their own, the one request of the call
    carries a conditional header exactly when the cache holds an entry
    for the fingerprint that is fresh at the time of the call (age less
    than ttl) and has a non-empty validator; the header is then
    [If-None-Match] with that validator. With no entry, a stale entry or
    an empty validator the request has no conditional header. The
    executor is private, and each of its callers passes the endpoint
    alone: at every call that the client makes the options are empty
    and bring no header. *)
Theorem conditional_header_iff_fresh_validator
    endpoint options customTTL w cache :
  conditionalHeaders (own_props (prop "headers" options)) = [] ->
  let cacheKey := cacheKeyOf endpoint options in
  let out := requestWithCache cfg endpoint options customTTL w cache in
  exists headers,
    sentHeaders (effects out) = [headers]
    /\ (forall c,
           JsMap.get cacheKey cache = Some c ->
           now_before w - CacheEntry.timestamp c < CacheEntry.ttl c ->
           CacheEntry.etag c <> EmptyString ->
           conditionalHeaders headers =
           [("If-None-Match", VString (CacheEntry.etag c))])
    /\ (JsMap.get cacheKey cache = None
        \/ (exists c,
               JsMap.get cacheKey cache = Some c
               /\ (CacheEntry.ttl c <= now_before w - CacheEntry.timestamp c
                   \/ CacheEntry.etag c = EmptyString)) ->
        conditionalHeaders headers = []).
Proof.
  intros Hopt cacheKey out. subst out.
  destruct (requestWithCache_effects endpoint options customTTL w cache)
    as [url [tail [-> Htail]]].
  fold cacheKey.
  exists (requestHeaders (JsMap.get cacheKey cache) (now_before w) options).
  split; [|split].
  - unfold sentHeaders. simpl.
    fold (sentHeaders tail). rewrite (sentHeaders_no_fetch _ Htail).
    unfold fetchInit, prop. now rewrite JsMapFacts.get_set_same.
  - intros c Hc Hfresh Hetag.
    rewrite conditionalHeaders_request by exact Hopt.
    rewrite Hc. simpl.
    destruct (Z.ltb_spec (now_before w - CacheEntry.timestamp c)
                         (CacheEntry.ttl c)) as [_|Hge]; [|lia].
    destruct (CacheEntry.etag c); [contradiction | reflexivity].
  - intros Hcase. rewrite conditionalHeaders_request by exact Hopt.
    destruct Hcase as [->|[c [-> [Hstale|Hempty]]]]; simpl; auto.
    + destruct (Z.ltb_spec (now_before w - CacheEntry.timestamp c)
                           (CacheEntry.ttl c)) as [Hlt|_]; [lia|].
      reflexivity.
    + rewrite Hempty. simpl. now rewrite andb_false_r.
Qed.

End Executor.


(** The two halves at work on an entry of time 0 with a window of 1000:
    offline at time 1500 the entry is served and the console warns;
    offline at time 2000, the bound of twice the window, and with an
    empty cache, the call fails with the message of the error. *)
Lemma transport_failure_stale_fallback_witness :
  fetched (world_offline 1500) = FetchRejects (ErrorInstance "Failed to fetch")
  /\ JsMap.get sample_key sample_cache = Some sample_entry
  /\ returned (requestWithCache default_config sample_endpoint [] None
                 (world_offline 1500) sample_cache)
     = {| success := true; data := Some "cached payload";
          error := None; message := None |}
  /\ (exists url init,
         effects (requestWithCache default_config sample_endpoint [] None
                    (world_offline 1500) sample_cache)
         = [Fetch url init; WarnStaleCache "/api/content/mortgage{}"])
  /\ returned (requestWithCache default_config sample_endpoint [] None
                 (world_offline 2000) sample_cache)
     = {| success := false; data := None;
          error := Some "Failed to fetch"; message := None |}
  /\ returned (requestWithCache default_config sample_endpoint [] None
                 (world_offline 1500) [])
     = {| success := false; data := None;
          error := Some "Failed to fetch"; message := None |}.
Proof.
  split; [reflexivity|]. split; [reflexivity|].
  pose proof (transport_failure_stale_fallback default_config
                sample_endpoint [] None (world_offline 1500) sample_cache
                (ErrorInstance "Failed to fetch") eq_refl) as [Hstale _].
  pose proof (transport_failure_stale_fallback default_config
                sample_endpoint [] None (world_offline 2000) sample_cache
                (ErrorInstance "Failed to fetch") eq_refl) as [_ [Hold _]].
  pose proof (transport_failure_stale_fallback (T:=string) default_config
                sample_endpoint [] None (world_offline 1500) []
                (ErrorInstance "Failed to fetch") eq_refl) as [_ [Hnone _]].
  destruct (Hstale sample_entry) as (Hret & Hwarn & _);
    [reflexivity | simpl; lia |].
  split; [exact Hret|]. split; [exact Hwarn|]. split.
  - apply Hold. right. exists sample_entry.
    split; [reflexivity | simpl; lia].
  - apply Hnone. left. reflexivity.
Defined.

(** C1, as stated, fails: the result served from stale cache carries no
    mark. Offline at time 1500 the entry, stale by 500, is served by
    the fallback; at time 500 the server answers 304 and the entry is
    served as a hit. The two calls return the same value, so nothing
    that reads a result tells the one from the other; they differ in
    the console alone. *)
Lemma stale_result_carries_no_mark :
  fetched (world_offline 1500) = FetchRejects (ErrorInstance "Failed to fetch")
  /\ returned (requestWithCache default_config sample_endpoint [] None
                 (world_offline 1500) sample_cache)
     = {| success := true; data := Some "cached payload";
          error := None; message := None |}
  /\ returned (requestWithCache default_config sample_endpoint [] None
                 (world_offline 1500) sample_cache)
     = returned (requestWithCache default_config sample_endpoint [] None
                   (world_not_modified 500) sample_cache)
  /\ (forall marked : ApiResponse string -> bool,
         marked (returned (requestWithCache default_config sample_endpoint []
                             None (world_offline 1500) sample_cache))
         = marked (returned (requestWithCache default_config sample_endpoint []
                               None (world_not_modified 500) sample_cache)))
  /\ effects (requestWithCache default_config sample_endpoint [] None
                (world_offline 1500) sample_cache)
     = [Fetch "http://localhost:3001/api/content/mortgage"
              [("headers", VObject [("Content-Type", VString "application/json")])];
        WarnStaleCache sample_key]
  /\ effects (requestWithCache default_config sample_endpoint [] None
                (world_not_modified 500) sample_cache)
     = [Fetch "http://localhost:3001/api/content/mortgage"
              [("headers",
                VObject [("Content-Type", VString "application/json");
                         ("If-None-Match", VString "v1")])];
        LogCacheHit sample_key].
Proof. repeat split. Qed.

(** Beyond twice the window the same call fails. *)
Example transport_failure_beyond_bound :
  returned (requestWithCache default_config sample_endpoint [] None
              (world_offline 2000) sample_cache)
  = {| success := false; data := None;
       error := Some "Failed to fetch"; message := None |}.
Proof. reflexivity. Qed.

Lemma not_modified_returns_cached_witness :
  fetched (world_not_modified 500)
  = FetchResolves
      {| status := 304; ETag := Some "v1"; Cache_Control := None;
         Bankim_Content_Version := None;
         body := JsonRejects (ErrorInstance "Unexpected end of JSON input") |}
  /\ returned (requestWithCache default_config sample_endpoint [] None
                 (world_not_modified 500) sample_cache)
     = {| success := true; data := Some "cached payload";
          error := None; message := None |}
  /\ success (returned (requestWithCache default_config sample_endpoint []
                          None (world_not_modified 500) [])) = false.
Proof.
  split; [reflexivity|].
  split.
  - pose proof (not_modified_returns_cached default_config sample_endpoint []
                  None (world_not_modified 500) sample_cache _
                  eq_refl eq_refl) as [H _].
    apply (H sample_entry). reflexivity.
  - pose proof (not_modified_returns_cached default_config sample_endpoint []
                  None (world_not_modified 500) [] _
                  eq_refl eq_refl) as [_ H].
    apply H. reflexivity.
Defined.

Lemma successful_response_is_cached_witness :
  fetched (world_ok 1500)
  = FetchResolves
      {| status := 200; ETag := Some "v2";
         Cache_Control := Some "public, max-age=60";
         Bankim_Content_Version := None;
         body := JsonResolves fresh_body |}
  /\ cache_after (requestWithCache default_config sample_endpoint [] None
                    (world_ok 1500) sample_cache)
     = [(sample_key,
         {| CacheEntry.data := Some "fresh payload";
            CacheEntry.etag := "v2";
            CacheEntry.timestamp := 1500;
            CacheEntry.ttl := 60000 |})].
Proof.
  split; [reflexivity|].
  pose proof (successful_response_is_cached default_config sample_endpoint []
                None (world_ok 1500) sample_cache _ fresh_body
                eq_refl ltac:(discriminate) eq_refl) as [_ [H _]].
  apply (H "v2"). split; [reflexivity | discriminate].
Defined.

(** A history that leaves one entry: the sample request, answered. *)
Lemma stored_entries_have_validator_witness :
  cache_after (requestWithCache default_config sample_endpoint [] None
                 (world_ok 1500) sample_cache) <> sample_cache
  /\ (exists r,
         fetched (world_ok 1500) = FetchResolves r
         /\ (carried (ETag r) \/ carried (Bankim_Content_Version r)))
  /\ entries (getCacheStats 2000
                (run default_config
                   [OpRequest sample_endpoint [] None (world_ok 1500)]))
     = [{| key := sample_key; age := 500; hasEtag := true |}].
Proof.
  assert (Hw : cache_after (requestWithCache default_config sample_endpoint []
                              None (world_ok 1500) sample_cache)
               <> sample_cache) by discriminate.
  split; [exact Hw|]. split; [|reflexivity].
  destruct (stored_entries_have_validator (T:=string) default_config [] 0)
    as (_ & _ & H).
  exact (H sample_endpoint [] None (world_ok 1500) sample_cache Hw).
Defined.

(** The directive on usual values of [Cache-Control]. *)
Example maxAge_examples :
  maxAge (Some "public, max-age=3600, must-revalidate") = Some 3600
  /\ maxAge (Some "max-age=0") = Some 0
  /\ maxAge (Some "no-cache") = None
  /\ maxAge (Some "max-age=abc") = None
  /\ maxAge None = None.
Proof. repeat split. Qed.

(** The scenario of a revalidation: a hit at time 500, and at time 1500,
    the entry being stale, a request without a conditional header whose
    answer overwrites the entry. *)
Example revalidation_scenario :
  sentHeaders (effects (requestWithCache default_config sample_endpoint []
                          None (world_not_modified 500) sample_cache))
  = [[("Content-Type", VString "application/json");
      ("If-None-Match", VString "v1")]]
  /\ sentHeaders (effects (requestWithCache default_config sample_endpoint []
                             None (world_ok 1500) sample_cache))
     = [[("Content-Type", VString "application/json")]]
  /\ JsMap.get sample_key
       (cache_after (requestWithCache default_config sample_endpoint []
                       None (world_ok 1500) sample_cache))
     = Some {| CacheEntry.data := Some "fresh payload";
               CacheEntry.etag := "v2";
               CacheEntry.timestamp := 1500;
               CacheEntry.ttl := 60000 |}.
Proof. repeat split. Qed.

(** C5. A body that does not decode, with an entry of age 1500 and window
    1000 in the cache: the call does not fail, it returns success with
    the cached payload, and the console reports a network error that did
    not happen. *)
Theorem decode_failure_served_from_stale_cache :
  let out := requestWithCache default_config sample_endpoint [] None
               (world_malformed 1500) sample_cache in
  returned out = {| success := true; data := Some "cached payload";
                    error := None; message := None |}
  /\ effects out
     = [Fetch "http://localhost:3001/api/content/mortgage"
              [("headers", VObject [("Content-Type", VString "application/json")])];
        WarnStaleCache sample_key].
Proof. split; reflexivity. Qed.

(** Without an entry that is young enough the same response is a failure
    with the message of the decoder. *)
Example decode_failure_without_cache :
  returned (requestWithCache default_config sample_endpoint [] None
              (world_malformed 1500) [])
  = {| success := false; data := None;
       error := Some "Unexpected token < in JSON at position 0";
       message := None |}.
Proof. reflexivity. Qed.

(** C3, as stated, fails for a caller whose options bring an
    [If-None-Match] header of their own. With no entry in the cache the
    request is not issued without a conditional header: the header of
    the caller is sent. With an entry that is fresh and has the
    validator [v1], the header that is sent does not carry the stored
    validator: the value of the caller takes its place. *)
Lemma caller_conditional_header_sent :
  JsMap.get (cacheKeyOf sample_endpoint caller_tag_options)
            ([] : JsMap.t (CacheEntry.t string)) = None
  /\ sentHeaders
       (effects (requestWithCache default_config sample_endpoint
                   caller_tag_options None (world_ok 0) []))
     = [[("Content-Type", VString "application/json");
         ("If-None-Match", VString "caller-tag")]]
  /\ conditionalHeaders
       [("Content-Type", VString "application/json");
        ("If-None-Match", VString "caller-tag")] <> []
  /\ JsMap.get (cacheKeyOf sample_endpoint caller_tag_options)
       [(cacheKeyOf sample_endpoint caller_tag_options, sample_entry)]
     = Some sample_entry
  /\ now_before (world_ok 500) - CacheEntry.timestamp sample_entry
     < CacheEntry.ttl sample_entry
  /\ CacheEntry.etag sample_entry = "v1"
  /\ sentHeaders
       (effects (requestWithCache default_config sample_endpoint
                   caller_tag_options None (world_ok 500)
                   [(cacheKeyOf sample_endpoint caller_tag_options,
                     sample_entry)]))
     = [[("Content-Type", VString "application/json");
         ("If-None-Match", VString "caller-tag")]].
Proof. repeat split. discriminate. Qed.

(** With the empty options of the callers: at time 500 the sample
    entry is fresh and its validator is sent; at time 1000, the end of
    its window, and with an empty cache, no conditional header is. *)
Lemma conditional_header_iff_fresh_validator_witness :
  conditionalHeaders (own_props (prop "headers" [])) = []
  /\ (exists headers,
         sentHeaders
           (effects (requestWithCache default_config sample_endpoint [] None
                       (world_not_modified 500) sample_cache))
         = [headers]
         /\ conditionalHeaders headers = [("If-None-Match", VString "v1")])
  /\ (exists headers,
         sentHeaders
           (effects (requestWithCache default_config sample_endpoint [] None
                       (world_ok 1000) sample_cache))
         = [headers]
         /\ conditionalHeaders headers = [])
  /\ (exists headers,
         sentHeaders
           (effects (requestWithCache default_config sample_endpoint [] None
                       (world_ok 500) []))
         = [headers]
         /\ conditionalHeaders headers = []).
Proof.
  split; [reflexivity|]. split; [|split].
  - destruct (conditional_header_iff_fresh_validator default_config
                sample_endpoint [] None (world_not_modified 500) sample_cache
                eq_refl) as [headers [Hsent [Hfresh _]]].
    exists headers. split; [exact Hsent|].
    apply (Hfresh sample_entry); [reflexivity | simpl; lia | discriminate].
  - destruct (conditional_header_iff_fresh_validator default_config
                sample_endpoint [] None (world_ok 1000) sample_cache
                eq_refl) as [headers [Hsent [_ Hnone]]].
    exists headers. split; [exact Hsent|].
    apply Hnone. right. exists sample_entry.
    split; [reflexivity | left; simpl; lia].
  - destruct (conditional_header_iff_fresh_validator (T:=string)
                default_config sample_endpoint [] None (world_ok 500) []
                eq_refl) as [headers [Hsent [_ Hnone]]].
    exists headers. split; [exact Hsent|].
    apply Hnone. left. reflexivity.
Defined.

End CacheProps.

(** ** The development fallback guard *)

Module FallbackProps.

Import Props.

Lemma isPlaceholderUrl_matches (cfg : Config) (url : string) :
  USE_REAL_CONTENT_DATA cfg = false ->
  matchesPlaceholder url ->
  isPlaceholderUrl cfg url = true.
Proof.
  intros Hflag [pattern [a [b [Hin ->]]]].
  unfold isPlaceholderUrl. rewrite Hflag.
  assert (Hinc : JsString.includes (a ++ pattern ++ b) pattern = true)
    by (apply JsStringFacts.includes_spec; now exists a, b).
  destruct Hin as [<-|[<-|[<-|[]]]]; rewrite Hinc;
    rewrite ?orb_true_r; reflexivity.
Qed.

(** C6. With the real-content-data flag off and a base address that
    contains one of the placeholder patterns, [isPlaceholderUrl] is true
    and [getContentByScreen] returns the mock response for the screen and
    the language it was asked for, whatever the world and the cache: it
    makes no network call and leaves the cache alone. The values of the
    mock are the Russian texts for [ru], the Hebrew texts for [he] and the
    English texts for every other language. With the flag on,
    [isPlaceholderUrl] is false for every address. *)
Theorem placeholder_guard (cfg : Config) :
  (USE_REAL_CONTENT_DATA cfg = false ->
   (forall url, matchesPlaceholder url -> isPlaceholderUrl cfg url = true)
   /\ (matchesPlaceholder (API_BASE_URL cfg) ->
       forall screenLocation languageCode w cache,
         let out := getContentByScreen cfg screenLocation languageCode w cache in
         returned out
         = {| success := true;
              data := Some (mockResponse screenLocation languageCode);
              error := None; message := None |}
         /\ networkCalls (effects out) = []
         /\ cache_after out = cache))
  /\ (forall screenLocation,
         contentValues (mockResponse screenLocation "ru")
         = [ Text "Основной источник дохода"; Text "Тип занятости";
             Text "Тип недвижимости"; Text "Рассчитать Ипотеку";
             Text "Кредитная история"; Text "Тип документа";
             Text "Семейное положение" ]
         /\ contentValues (mockResponse screenLocation "he")
            = [ Text "מקור הכנסה עיקרי"; Text "סוג תעסוקה"; Text "סוג נכס";
                Text "חשב את המשכנתא שלך"; Text "היסטוריית אשראי";
                Text "סוג מסמך"; Text "מצב משפחתי" ]
         /\ forall languageCode,
              languageCode <> "ru" -> languageCode <> "he" ->
              contentValues (mockResponse screenLocation languageCode)
              = [ Text "Primary Income Source"; Text "Employment Type";
                  Text "Property Type"; Text "Calculate Mortgage";
                  Text "Credit History"; Text "Document Type";
                  Text "Marital Status" ])
  /\ (USE_REAL_CONTENT_DATA cfg = true ->
      forall url, isPlaceholderUrl cfg url = false).
Proof.
  split; [|split].
  - intros Hflag. split.
    + intros url. now apply isPlaceholderUrl_matches.
    + intros Hbase screenLocation languageCode w cache out. subst out.
      unfold getContentByScreen.
      rewrite (isPlaceholderUrl_matches cfg _ Hflag Hbase).
      repeat split.
  - intros screenLocation. repeat split.
    intros languageCode Hru Hhe.
    apply String.eqb_neq in Hru, Hhe.
    unfold contentValues, mockResponse, mockItem, byLanguage. simpl.
    now rewrite Hru, Hhe.
  - intros Hflag url. unfold isPlaceholderUrl. now rewrite Hflag.
Qed.

Lemma placeholder_guard_witness :
  USE_REAL_CONTENT_DATA default_config = false
  /\ matchesPlaceholder (API_BASE_URL default_config)
  /\ returned (getContentByScreen default_config "main_page" "he"
                 (world_of_content_failure 0) [])
     = {| success := true; data := Some (mockResponse "main_page" "he");
          error := None; message := None |}.
Proof.
  assert (Hbase : matchesPlaceholder (API_BASE_URL default_config)).
  { exists "localhost:3001", "http://", EmptyString.
    split; [simpl; tauto | reflexivity]. }
  split; [reflexivity|]. split; [exact Hbase|].
  destruct (placeholder_guard default_config) as [H _].
  destruct (H eq_refl) as [_ Hmock].
  apply (Hmock Hbase "main_page" "he" (world_of_content_failure 0) []).
Defined.

(** With the flag on, the same address is taken for a real backend and
    the request goes to the network. *)
Example real_content_data_reaches_network :
  networkCalls
    (effects (getContentByScreen
                {| API_BASE_URL := "http://localhost:3001";
                   CONTENT_API_URL := "http://localhost:3001";
                   USE_REAL_CONTENT_DATA := true;
                   CONTENT_CACHE_TTL := 300000 |}
                "main_page" "he" (world_of_content_failure 0) []))
  = [Fetch "http://localhost:3001/api/content/main_page/he"
           [("headers",
             Json.VObject [("Content-Type", Json.VString "application/json")])]].
Proof. reflexivity. Qed.

End FallbackProps.

(** ** The fingerprint *)

Module FingerprintProps.

Import Json Props.

(** *** Characters by enumeration *)

Lemma all_ascii_complete (c : ascii) : In c all_ascii.
Proof.
  unfold all_ascii. rewrite <- (ascii_nat_embedding c).
  apply in_map, in_seq. pose proof (nat_ascii_bounded c). lia.
Qed.

Lemma forall_ascii (P : ascii -> bool) :
  forallb P all_ascii = true -> forall c, P c = true.
Proof.
  intros H c. rewrite forallb_forall in H. apply H, all_ascii_complete.
Qed.

(** An escape is never empty and never starts with a double quote. *)
Lemma escape_head (c : ascii) :
  exists x t, escape c = x :: t /\ x <> JsString.dquote.
Proof.
  pose proof (forall_ascii
                (fun c => match escape c with
                          | [] => false
                          | x :: _ => negb (Ascii.eqb x JsString.dquote)
                          end)
                ltac:(vm_compute; reflexivity) c) as H.
  cbv beta in H. destruct (escape c) as [|x t]; [discriminate|].
  exists x, t. split; [reflexivity|].
  intros ->. now rewrite Ascii.eqb_refl in H.
Qed.

(** The escapes form a prefix code. *)
Lemma escape_prefix_code (c1 c2 : ascii) :
  is_prefix (escape c1) (escape c2) = true -> c1 = c2.
Proof.
  pose proof (forall_ascii
                (fun c1 => forallb (fun c2 =>
                   implb (is_prefix (escape c1) (escape c2)) (Ascii.eqb c1 c2))
                   all_ascii)
                ltac:(vm_compute; reflexivity) c1) as H.
  cbv beta in H. rewrite forallb_forall in H.
  specialize (H c2 (all_ascii_complete c2)).
  intros Hp. rewrite Hp in H. simpl in H. now apply Ascii.eqb_eq.
Qed.

Lemma app_eq_prefix (l1 l2 r1 r2 : list ascii) :
  l1 ++ r1 = l2 ++ r2 -> is_prefix l1 l2 = true \/ is_prefix l2 l1 = true.
Proof.
  revert l2. induction l1 as [|a l1 IH]; intros l2; [now left|].
  destruct l2 as [|b l2]; [now right|].
  simpl. intros [= -> H]. rewrite Ascii.eqb_refl. simpl. now apply IH.
Qed.

(** *** Strings *)

(** The text of a string ends at its closing quote: whatever follows, the
    string and the rest can be read back. *)
Lemma escapes_prefix_free (la lb r1 r2 : list ascii) :
  flat_map escape la ++ JsString.dquote :: r1 =
  flat_map escape lb ++ JsString.dquote :: r2 ->
  la = lb /\ r1 = r2.
Proof.
  revert lb. induction la as [|a la IH]; intros lb; destruct lb as [|b lb]; simpl.
  - now intros [= ->].
  - destruct (escape_head b) as [x [t [-> Hx]]]. simpl.
    intros [= H _]. now symmetry in H.
  - destruct (escape_head a) as [x [t [-> Hx]]]. simpl.
    intros [= H _]. contradiction.
  - rewrite <- !app_assoc. intros H.
    assert (a = b) as ->.
    { destruct (app_eq_prefix _ _ _ _ H) as [Hp|Hp];
        [|symmetry]; now apply escape_prefix_code. }
    apply app_inv_head in H. destruct (IH _ H) as [-> ->]. auto.
Qed.

Lemma list_ascii_of_string_inj (a b : string) :
  list_ascii_of_string a = list_ascii_of_string b -> a = b.
Proof.
  intros H. rewrite <- (string_of_list_ascii_of_string a),
              <- (string_of_list_ascii_of_string b). now rewrite H.
Qed.

Lemma string_of_list_ascii_inj (a b : list ascii) :
  string_of_list_ascii a = string_of_list_ascii b -> a = b.
Proof.
  intros H. rewrite <- (list_ascii_of_string_of_list_ascii a),
              <- (list_ascii_of_string_of_list_ascii b). now rewrite H.
Qed.

Lemma quote_prefix_free (a b : string) (r1 r2 : list ascii) :
  quote a ++ r1 = quote b ++ r2 -> a = b /\ r1 = r2.
Proof.
  unfold quote. simpl. rewrite <- !app_assoc. simpl. intros [= H].
  apply escapes_prefix_free in H. destruct H as [H ->].
  split; [now apply list_ascii_of_string_inj | reflexivity].
Qed.

Lemma quote_head (a : string) :
  exists t, quote a = JsString.dquote :: t.
Proof. unfold quote. eexists. reflexivity. Qed.

(** *** Values *)

(** Induction on values, with the hypothesis for every property of an
    object. *)
Lemma JsVal_induction (P : JsVal -> Prop) :
  P VUndefined ->
  (forall s, P (VString s)) ->
  (forall i, P (VHost i)) ->
  (forall ps, Forall (fun kv => P (snd kv)) ps -> P (VObject ps)) ->
  forall v, P v.
Proof.
  intros Hu Hs Hh Ho.
  fix IH 1. intros [| s | i | ps].
  - exact Hu.
  - apply Hs.
  - apply Hh.
  - apply Ho. induction ps as [|[k x] ps IHps]; constructor.
    + apply IH.
    + exact IHps.
Qed.

Lemma serialize_object (ps : list (string * JsVal)) :
  serialize (VObject ps) = Some ("{"%char :: members true ps ++ ["}"%char]).
Proof. reflexivity. Qed.

Lemma plain_object (ps : list (string * JsVal)) :
  plain (VObject ps) <-> plain_props ps.
Proof.
  simpl. induction ps as [|[k x] ps IH]; simpl; tauto.
Qed.

Lemma plain_serializes (v : JsVal) : plain v -> exists s, serialize v = Some s.
Proof.
  destruct v; simpl; try contradiction; intros _; eexists; reflexivity.
Qed.

(** The text of a plain value starts with a quote or with a brace. *)
Lemma serialize_head (v : JsVal) (s : list ascii) :
  plain v -> serialize v = Some s ->
  exists t, s = JsString.dquote :: t \/ s = "{"%char :: t.
Proof.
  destruct v as [| a | i | ps]; simpl; try contradiction; intros _ [= <-].
  - eexists. left. reflexivity.
  - eexists. right. reflexivity.
Qed.

Ltac flatten_app :=
  repeat (rewrite <- app_assoc || rewrite <- app_comm_cons).

(** The members of an object end at its closing brace. *)
Lemma members_prefix_free (ps1 : list (string * JsVal)) :
  Forall (fun kv =>
            forall v2 s1 s2 r1 r2,
              plain (snd kv) -> plain v2 ->
              serialize (snd kv) = Some s1 -> serialize v2 = Some s2 ->
              s1 ++ r1 = s2 ++ r2 -> snd kv = v2 /\ r1 = r2) ps1 ->
  forall first ps2 r1 r2,
    plain_props ps1 -> plain_props ps2 ->
    members first ps1 ++ "}"%char :: r1 = members first ps2 ++ "}"%char :: r2 ->
    ps1 = ps2 /\ r1 = r2.
Proof.
  induction 1 as [|[k1 x1] ps1 Hx1 _ IH]; intros first ps2 r1 r2 Hp1 Hp2;
    destruct ps2 as [|[k2 x2] ps2]; cbn [members plain_props snd] in *.
  - simpl. now intros [= ->].
  - destruct Hp2 as [Hx2 _].
    destruct (plain_serializes _ Hx2) as [s2 ->].
    destruct (quote_head k2) as [t ->].
    destruct first; simpl; discriminate.
  - destruct Hp1 as [Hx _].
    destruct (plain_serializes _ Hx) as [s1 ->].
    destruct (quote_head k1) as [t ->].
    destruct first; simpl; discriminate.
  - destruct Hp1 as [Hpx1 Hp1], Hp2 as [Hpx2 Hp2].
    destruct (plain_serializes _ Hpx1) as [s1 Hs1].
    destruct (plain_serializes _ Hpx2) as [s2 Hs2].
    rewrite Hs1, Hs2. flatten_app. intros H.
    apply app_inv_head in H.
    apply quote_prefix_free in H. destruct H as [-> H].
    injection H as H.
    destruct (Hx1 x2 s1 s2 _ _ Hpx1 Hpx2 Hs1 Hs2 H) as [-> H'].
    destruct (IH false ps2 r1 r2 Hp1 Hp2 H') as [-> ->]. auto.
Qed.

(** The text of a plain value can be read back, whatever follows it. *)
Lemma serialize_prefix_free (v1 : JsVal) :
  forall v2 s1 s2 r1 r2,
    plain v1 -> plain v2 ->
    serialize v1 = Some s1 -> serialize v2 = Some s2 ->
    s1 ++ r1 = s2 ++ r2 -> v1 = v2 /\ r1 = r2.
Proof.
  induction v1 as [| a | i | ps1 IH] using JsVal_induction;
    intros v2 s1 s2 r1 r2 Hp1 Hp2 Hs1 Hs2 H; try contradiction.
  - destruct v2 as [| b | i | ps2]; try contradiction.
    + simpl in Hs1, Hs2. injection Hs1 as <-. injection Hs2 as <-.
      apply quote_prefix_free in H. destruct H as [-> ->]. auto.
    + rewrite serialize_object in Hs2. simpl in Hs1.
      injection Hs1 as <-. injection Hs2 as <-.
      destruct (quote_head a) as [t Ht]. rewrite Ht in H. discriminate.
  - destruct v2 as [| b | i | ps2]; try contradiction.
    + rewrite serialize_object in Hs1. simpl in Hs2.
      injection Hs1 as <-. injection Hs2 as <-.
      destruct (quote_head b) as [t Ht]. rewrite Ht in H. discriminate.
    + rewrite serialize_object in Hs1, Hs2.
      injection Hs1 as <-. injection Hs2 as <-.
      revert H. flatten_app. simpl. intros [= H].
      apply plain_object in Hp1, Hp2.
      destruct (members_prefix_free ps1 IH true ps2 r1 r2 Hp1 Hp2 H) as [-> ->].
      auto.
Qed.

(** [JSON.stringify] is injective on plain option objects. *)
Lemma stringify_injective (o1 o2 : JsObject) :
  plain_props o1 -> plain_props o2 ->
  stringify o1 = stringify o2 -> o1 = o2.
Proof.
  intros Hp1 Hp2 H. unfold stringify in H.
  apply string_of_list_ascii_inj in H.
  assert (Hinj : VObject o1 = VObject o2 /\ @nil ascii = []).
  { apply (serialize_prefix_free (VObject o1) (VObject o2)
             ("{"%char :: members true o1 ++ ["}"%char])
             ("{"%char :: members true o2 ++ ["}"%char]) [] []);
      try (now apply plain_object); try apply serialize_object.
    now rewrite !app_nil_r. }
  destruct Hinj as [[= ->] _]. reflexivity.
Qed.

Lemma append_inv_head (e s1 s2 : string) :
  (e ++ s1)%string = (e ++ s2)%string -> s1 = s2.
Proof.
  induction e as [|c e IH]; simpl; [auto|]. intros [= H]. auto.
Qed.

(** *** What the fingerprint tells apart *)

(** C7, as stated, fails on two counts. Two option objects with the same
    method and the same body, written in different orders, describe the
    same request and have different fingerprints. And a body that is a
    host object does not reach the fingerprint: two requests with
    different forms are keyed alike. *)
Lemma fingerprint_follows_the_text_of_options :
  (sameRequest post_method_first post_body_first
   /\ cacheKeyOf sample_endpoint post_method_first
      <> cacheKeyOf sample_endpoint post_body_first)
  /\ (prop "body" (post_form "a=1") <> prop "body" (post_form "a=2")
      /\ cacheKeyOf sample_endpoint (post_form "a=1")
         = cacheKeyOf sample_endpoint (post_form "a=2")).
Proof.
  split; split; try discriminate; try reflexivity.
  intros k. unfold prop, post_method_first, post_body_first. simpl.
  destruct (String.eqb_spec k "method") as [->|_]; [reflexivity|].
  now destruct (String.eqb k "body").
Qed.

(** C7 (amended). The fingerprint is the endpoint followed by
    [JSON.stringify(options)]: equal endpoints and equal option objects
    (the same properties in the same order) give equal fingerprints; and
    for option objects made of strings and plain objects of strings (a
    method, a text body, a record of headers), two requests to the same
    endpoint with equal fingerprints have equal options, so that requests
    that differ in their body or in their method have different
    fingerprints. *)
Theorem fingerprint_of_plain_options (endpoint : string) (o1 o2 : JsObject) :
  (o1 = o2 -> cacheKeyOf endpoint o1 = cacheKeyOf endpoint o2)
  /\ (plain_props o1 -> plain_props o2 ->
      (cacheKeyOf endpoint o1 = cacheKeyOf endpoint o2 -> o1 = o2)
      /\ (prop "body" o1 <> prop "body" o2
          \/ prop "method" o1 <> prop "method" o2 ->
          cacheKeyOf endpoint o1 <> cacheKeyOf endpoint o2)).
Proof.
  split; [now intros ->|].
  intros Hp1 Hp2.
  assert (Hinj : cacheKeyOf endpoint o1 = cacheKeyOf endpoint o2 -> o1 = o2).
  { unfold cacheKeyOf. intros H. apply append_inv_head in H.
    now apply stringify_injective. }
  split; [exact Hinj|].
  intros Hdiff Hkey. apply Hinj in Hkey. subst o2.
  destruct Hdiff as [H|H]; now apply H.
Qed.

Lemma fingerprint_of_plain_options_witness :
  plain_props (post_text "a") /\ plain_props (post_text "b")
  /\ cacheKeyOf sample_endpoint (post_text "a")
     <> cacheKeyOf sample_endpoint (post_text "b").
Proof.
  assert (Ha : plain_props (post_text "a")) by (simpl; tauto).
  assert (Hb : plain_props (post_text "b")) by (simpl; tauto).
  split; [exact Ha|]. split; [exact Hb|].
  destruct (fingerprint_of_plain_options sample_endpoint
              (post_text "a") (post_text "b")) as [_ H].
  destruct (H Ha Hb) as [_ Hdiff].
  apply Hdiff. left. discriminate.
Defined.

End FingerprintProps.

(** ** The content aggregator *)

Module AggregatorProps.

Import Props Aggregator.

(** *** Sorting *)

Lemma insert_perm (x : ContentPage.t) (l : list ContentPage.t) :
  Permutation (insert byPageNumber x l) (x :: l).
Proof.
  induction l as [|y l IH]; simpl; [reflexivity|].
  destruct (byPageNumber x y <=? 0); [reflexivity|].
  rewrite IH. apply perm_swap.
Qed.

Lemma sort_perm (l : list ContentPage.t) : Permutation (sort byPageNumber l) l.
Proof.
  induction l as [|x l IH]; simpl; [reflexivity|].
  rewrite insert_perm. now constructor.
Qed.

Lemma insert_sorted (x : ContentPage.t) (l : list ContentPage.t) :
  StronglySorted ascending l ->
  StronglySorted ascending (insert byPageNumber x l).
Proof.
  induction 1 as [|y l Hl IH Hy]; simpl.
  - repeat constructor.
  - unfold byPageNumber at 1.
    destruct (Z.leb_spec (ContentPage.pageNumber x - ContentPage.pageNumber y) 0)
      as [Hle|Hgt].
    + constructor; [now constructor|].
      constructor; [unfold ascending; lia|].
      revert Hy. apply Forall_impl. unfold ascending. intros; lia.
    + constructor; [exact IH|].
      eapply Permutation_Forall; [symmetry; apply insert_perm|].
      constructor; [unfold ascending; lia | exact Hy].
Qed.

Lemma sort_sorted (l : list ContentPage.t) :
  StronglySorted ascending (sort byPageNumber l).
Proof.
  induction l as [|x l IH]; simpl; [constructor | now apply insert_sorted].
Qed.

(** A sorted list without repeated keys is strictly sorted. *)
Lemma sorted_nodup_strict (l : list Z) :
  StronglySorted Z.le l -> NoDup l -> StronglySorted Z.lt l.
Proof.
  induction 1 as [|x l Hl IH Hx]; intros Hnd; [constructor|].
  inversion Hnd as [|? ? Hnotin Hnd']; subst.
  constructor; [auto|].
  apply Forall_forall. intros y Hy.
  rewrite Forall_forall in Hx. specialize (Hx y Hy).
  assert (x <> y) by (intros ->; contradiction). lia.
Qed.

Lemma sorted_map_pageNumber (l : list ContentPage.t) :
  StronglySorted ascending l ->
  StronglySorted Z.le (map ContentPage.pageNumber l).
Proof.
  induction 1 as [|x l Hl IH Hx]; simpl; constructor; auto.
  now apply Forall_map.
Qed.

(** *** Identifiers *)

Lemma numberToString_inj (a b : Z) :
  numberToString a = numberToString b -> a = b.
Proof.
  unfold numberToString. intros H.
  apply DecimalZ.to_int_inj.
  assert (Hs : Some (Z.to_int a) = Some (Z.to_int b))
    by (rewrite <- !NilEmpty.isi; now rewrite H).
  now injection Hs.
Qed.

Lemma actionIdOf_inj (a b : Z) : actionIdOf a = actionIdOf b -> a = b.
Proof.
  unfold actionIdOf. intros H.
  apply FingerprintProps.append_inv_head in H. now apply numberToString_inj.
Qed.

(** *** The aggregator as a fold over items *)

Lemma fold_processItem (m : JsMap.t ContentPage.t) (language : string)
    (content : JsMap.t ContentData.t) :
  fold_left (processEntry language) content m
  = fold_left processItem (map (fun kv => (language, kv)) content) m.
Proof.
  revert m. induction content as [|kv content IH]; intros m; simpl; auto.
Qed.

Lemma fold_items (responses : list ContentApiResponse.t)
    (m : JsMap.t ContentPage.t) :
  fold_left processResponse responses m
  = fold_left processItem (itemsOf responses) m.
Proof.
  revert m. induction responses as [|r responses IH]; intros m; simpl; auto.
  rewrite fold_left_app, IH. f_equal.
  unfold processResponse, JsMap.entries.
  destruct (ContentApiResponse.content r); [apply fold_processItem | reflexivity].
Qed.

(** *** Titles *)

Lemma lastTitle_snoc (language : string) (n : Z)
    (items : list (string * (string * ContentData.t)))
    (item : string * (string * ContentData.t)) :
  lastTitle language n (items ++ [item])
  = if concerns language n item
    then titleOf (ContentData.value (snd (snd item)))
    else lastTitle language n items.
Proof.
  unfold lastTitle, suppliedTitles. rewrite filter_app, map_app. simpl.
  destruct (concerns language n item); simpl.
  - apply last_last.
  - now rewrite app_nil_r.
Qed.

Lemma suppliedTitles_none (language : string) (n : Z)
    (items : list (string * (string * ContentData.t))) :
  (forall item, In item items -> actionNumberOf (fst (snd item)) <> Some n) ->
  suppliedTitles language n items = [].
Proof.
  intros H. unfold suppliedTitles.
  induction items as [|item items IH]; simpl; [reflexivity|].
  assert (Hc : concerns language n item = false).
  { unfold concerns. specialize (H item (or_introl eq_refl)).
    destruct (actionNumberOf (fst (snd item))) as [k|];
      [|apply andb_false_r].
    destruct (Z.eqb_spec k n) as [->|_]; [congruence | apply andb_false_r]. }
  rewrite Hc. apply IH. intros item' Hin. apply H. now right.
Qed.

Lemma last_some_in (l : list (option string)) (s : string) :
  last l None = Some s -> In (Some s) l.
Proof.
  induction l as [|x l IH]; [discriminate|].
  destruct l as [|y l]; [intros H; left; exact H|].
  intros H. right. apply IH. exact H.
Qed.

(** A title supplied last was supplied by some item. *)
Lemma lastTitle_supplied (language : string) (n : Z)
    (items : list (string * (string * ContentData.t))) (s : string) :
  lastTitle language n items = Some s ->
  exists item,
    In item items /\ concerns language n item = true
    /\ titleOf (ContentData.value (snd (snd item))) = Some s.
Proof.
  unfold lastTitle, suppliedTitles. intros H.
  apply last_some_in, in_map_iff in H. destruct H as [item [Ht Hin]].
  apply filter_In in Hin. destruct Hin as [Hin Hc]. now exists item.
Qed.

(** The fields of a page that the loop body rewrites. *)
Lemma updated_page (language : string) (d : ContentData.t) (page : ContentPage.t) :
  let page' := setContentType d (setTitles language d page) in
  let v := titleOf (ContentData.value d) in
  ContentPage.pageNumber page' = ContentPage.pageNumber page
  /\ ContentPage.title page'
     = (if String.eqb language "ru" then v else ContentPage.title page)
  /\ ContentPage.titleRu page'
     = (if String.eqb language "ru" then v else ContentPage.titleRu page)
  /\ ContentPage.titleHe page'
     = (if String.eqb language "he" then v else ContentPage.titleHe page)
  /\ ContentPage.titleEn page'
     = (if String.eqb language "en" then v else ContentPage.titleEn page).
Proof.
  unfold setTitles.
  destruct (String.eqb_spec language "ru") as [->|Hru]; [simpl; auto|].
  destruct (String.eqb_spec language "he") as [->|Hhe]; [simpl; auto|].
  destruct (String.eqb_spec language "en") as [->|Hen]; simpl; auto.
Qed.

(** *** One step of the loop *)

(** The loop body, with the page it works on made explicit. *)
Lemma processItem_eq (m : JsMap.t ContentPage.t) (language key : string)
    (d : ContentData.t) :
  processItem m (language, (key, d))
  = match actionNumberOf key with
    | None => m
    | Some k =>
        let page := match JsMap.get (actionIdOf k) m with
                    | Some page => page
                    | None => newPage k d
                    end in
        JsMap.set (actionIdOf k) (setContentType d (setTitles language d page))
          (if JsMap.has (actionIdOf k) m then m
           else JsMap.set (actionIdOf k) (newPage k d) m)
    end.
Proof.
  unfold processItem, processEntry. simpl.
  destruct (actionNumberOf key) as [k|]; [|reflexivity].
  unfold JsMap.has.
  destruct (JsMap.get (actionIdOf k) m) as [page|] eqn:E.
  - now rewrite E.
  - now rewrite JsMapFacts.get_set_same.
Qed.

Lemma wellKeyed_set (m : JsMap.t ContentPage.t) (k : Z) (page : ContentPage.t) :
  wellKeyed m -> ContentPage.pageNumber page = k ->
  wellKeyed (JsMap.set (actionIdOf k) page m).
Proof.
  intros [Hnd Hkeys] <-. split; [now apply JsMapFacts.NoDup_keys_set|].
  apply Forall_forall. intros kv Hin.
  apply JsMapFacts.in_set in Hin. destruct Hin as [->|Hin]; [reflexivity|].
  revert kv Hin. now apply Forall_forall.
Qed.

Lemma wellKeyed_get (m : JsMap.t ContentPage.t) (k : Z) (page : ContentPage.t) :
  wellKeyed m -> JsMap.get (actionIdOf k) m = Some page ->
  ContentPage.pageNumber page = k.
Proof.
  intros [_ Hkeys] Hget. apply JsMapFacts.get_in in Hget.
  rewrite Forall_forall in Hkeys. specialize (Hkeys _ Hget). simpl in Hkeys.
  symmetry. now apply actionIdOf_inj.
Qed.

Lemma processItem_wellKeyed (m : JsMap.t ContentPage.t)
    (item : string * (string * ContentData.t)) :
  wellKeyed m -> wellKeyed (processItem m item).
Proof.
  intros Hwk. destruct item as [language [key d]]. rewrite processItem_eq.
  destruct (actionNumberOf key) as [k|]; [|exact Hwk]. cbv zeta.
  pose proof (updated_page language d) as Hupd. cbv zeta in Hupd.
  unfold JsMap.has.
  destruct (JsMap.get (actionIdOf k) m) as [page|] eqn:E.
  - apply wellKeyed_set; [exact Hwk|].
    destruct (Hupd page) as [-> _]. now apply (wellKeyed_get m).
  - apply wellKeyed_set; [now apply wellKeyed_set|].
    destruct (Hupd (newPage k d)) as [-> _]. reflexivity.
Qed.

(** An item that does not carry [n] leaves what is tracked for [n]. *)
Lemma tracks_other (n : Z) (items : list (string * (string * ContentData.t)))
    (item : string * (string * ContentData.t)) (m m' : JsMap.t ContentPage.t) :
  actionNumberOf (fst (snd item)) <> Some n ->
  JsMap.get (actionIdOf n) m' = JsMap.get (actionIdOf n) m ->
  tracks n items m -> tracks n (items ++ [item]) m'.
Proof.
  intros Hother Hget. unfold tracks. rewrite Hget, !lastTitle_snoc.
  assert (Hc : forall language, concerns language n item = false).
  { intros language. unfold concerns.
    destruct (actionNumberOf (fst (snd item))) as [k|]; [|apply andb_false_r].
    destruct (Z.eqb_spec k n) as [->|_]; [congruence | apply andb_false_r]. }
  rewrite !Hc.
  destruct (JsMap.get (actionIdOf n) m) as [page|]; [auto|].
  intros Hnone item' Hin. apply in_app_or in Hin.
  destruct Hin as [Hin|[<-|[]]]; auto.
Qed.

Lemma processItem_tracks (n : Z) (items : list (string * (string * ContentData.t)))
    (item : string * (string * ContentData.t)) (m : JsMap.t ContentPage.t) :
  tracks n items m -> tracks n (items ++ [item]) (processItem m item).
Proof.
  intros Htr. destruct item as [language [key d]].
  destruct (actionNumberOf key) as [k|] eqn:Ek.
  - destruct (Z.eq_dec k n) as [->|Hne].
    + (* the item carries [n] *)
      rewrite processItem_eq, Ek. cbv zeta.
      unfold tracks in *. rewrite JsMapFacts.get_set_same, !lastTitle_snoc.
      unfold concerns. simpl fst. simpl snd. rewrite Ek, Z.eqb_refl, !andb_true_r.
      pose proof (updated_page language d) as Hupd. cbv zeta in Hupd.
      destruct (JsMap.get (actionIdOf n) m) as [page|] eqn:E.
      * destruct (Hupd page) as (Hn & Ht & Hru & Hhe & Hen).
        destruct Htr as (Hn' & Ht' & Hru' & Hhe' & Hen').
        rewrite Hn, Ht, Hru, Hhe, Hen, Hn', Ht', Hru', Hhe', Hen'.
        repeat split.
      * destruct (Hupd (newPage n d)) as (Hn & Ht & Hru & Hhe & Hen).
        rewrite Hn, Ht, Hru, Hhe, Hen.
        unfold lastTitle. rewrite !(suppliedTitles_none _ n items Htr).
        repeat split.
    + (* the item carries another number *)
      apply (tracks_other n items _ m); [simpl; congruence | | exact Htr].
      rewrite processItem_eq, Ek. cbv zeta.
      assert (Hid : actionIdOf n <> actionIdOf k)
        by (intros H; apply actionIdOf_inj in H; congruence).
      rewrite JsMapFacts.get_set_other by exact Hid.
      destruct (JsMap.has (actionIdOf k) m); [reflexivity|].
      now rewrite JsMapFacts.get_set_other.
  - (* the key has no sequence number *)
    apply (tracks_other n items _ m); [simpl; congruence | | exact Htr].
    now rewrite processItem_eq, Ek.
Qed.

(** What the map holds after all items. *)
Lemma fold_tracks (n : Z) (items : list (string * (string * ContentData.t))) :
  wellKeyed (fold_left processItem items JsMap.empty)
  /\ tracks n items (fold_left processItem items JsMap.empty).
Proof.
  induction items as [|item items [IHwk IHtr]] using rev_ind.
  - split; [split; constructor | intros item []].
  - rewrite fold_left_app. simpl.
    split; [now apply processItem_wellKeyed | now apply processItem_tracks].
Qed.

(** *** The output *)

Lemma finalize_fields (page : ContentPage.t) :
  JsString.truthy_opt (ContentPage.title page) = true ->
  ContentPage.pageNumber (finalize page) = ContentPage.pageNumber page
  /\ ContentPage.title (finalize page) = ContentPage.title page
  /\ ContentPage.titleHe (finalize page) = ContentPage.titleHe page
  /\ ContentPage.titleEn (finalize page) = ContentPage.titleEn page.
Proof.
  intros Ht. unfold finalize, orElse. simpl. rewrite Ht. auto.
Qed.

(** The output is the titled pages of the map, finalized and reordered. *)
Lemma output_perm (responses : list ContentApiResponse.t) :
  Permutation
    (transformApiToContentPages responses)
    (map finalize
       (filter (fun page => JsString.truthy_opt (ContentPage.title page))
          (JsMap.values
             (fold_left processItem (itemsOf responses) JsMap.empty)))).
Proof.
  unfold transformApiToContentPages. rewrite fold_items. apply sort_perm.
Qed.

(** Every page of the output is the page the map holds for its number. *)
Lemma page_of_output (responses : list ContentApiResponse.t)
    (page : ContentPage.t) :
  In page (transformApiToContentPages responses) ->
  exists q,
    JsMap.get (actionIdOf (ContentPage.pageNumber page))
      (fold_left processItem (itemsOf responses) JsMap.empty) = Some q
    /\ JsString.truthy_opt (ContentPage.title q) = true
    /\ page = finalize q.
Proof.
  intros Hin. apply (Permutation_in _ (output_perm responses)) in Hin.
  apply in_map_iff in Hin. destruct Hin as [q [<- Hq]].
  apply filter_In in Hq. destruct Hq as [Hq Ht].
  exists q. split; [|auto].
  destruct (finalize_fields q Ht) as [-> _].
  apply in_map_iff in Hq. destruct Hq as [[k q'] [Hsnd Hq]].
  simpl in Hsnd. subst q'.
  destruct (fold_tracks 0 (itemsOf responses)) as [[Hnd Hkeys] _].
  rewrite Forall_forall in Hkeys. pose proof (Hkeys _ Hq) as Hk.
  simpl in Hk. subst k. now apply JsMapFacts.in_get.
Qed.

Lemma output_of_page (responses : list ContentApiResponse.t) (n : Z)
    (q : ContentPage.t) :
  JsMap.get (actionIdOf n)
    (fold_left processItem (itemsOf responses) JsMap.empty) = Some q ->
  JsString.truthy_opt (ContentPage.title q) = true ->
  In (finalize q) (transformApiToContentPages responses).
Proof.
  intros Hget Ht.
  apply (Permutation_in _ (Permutation_sym (output_perm responses))).
  apply in_map, filter_In. split; [|exact Ht].
  apply JsMapFacts.get_in in Hget.
  apply in_map_iff. now exists (actionIdOf n, q).
Qed.

(** The titles of a page of the output are the last ones supplied. *)
Lemma output_titles (responses : list ContentApiResponse.t)
    (page : ContentPage.t) :
  In page (transformApiToContentPages responses) ->
  let n := ContentPage.pageNumber page in
  let items := itemsOf responses in
  JsString.truthy_opt (lastTitle "ru" n items) = true
  /\ ContentPage.title page = lastTitle "ru" n items
  /\ ContentPage.titleHe page = lastTitle "he" n items
  /\ ContentPage.titleEn page = lastTitle "en" n items.
Proof.
  intros Hin n items.
  destruct (page_of_output responses page Hin) as [q [Hget [Ht ->]]].
  fold n in Hget.
  destruct (fold_tracks n (itemsOf responses)) as [_ Htr].
  unfold tracks in Htr. rewrite Hget in Htr.
  destruct Htr as (_ & Htitle & _ & Hhe & Hen).
  destruct (finalize_fields q Ht) as (_ & -> & -> & ->).
  fold items in Htitle, Hhe, Hen.
  rewrite <- Htitle. auto.
Qed.

(** No sequence number occurs twice in the output. *)
Lemma output_numbers_nodup (responses : list ContentApiResponse.t) :
  NoDup (map ContentPage.pageNumber (transformApiToContentPages responses)).
Proof.
  eapply Permutation_NoDup;
    [apply Permutation_map, Permutation_sym, output_perm|].
  rewrite map_map.
  destruct (fold_tracks 0 (itemsOf responses)) as [[Hnd Hkeys] _].
  set (m := fold_left processItem (itemsOf responses) JsMap.empty) in *.
  assert (Hnum : NoDup (map ContentPage.pageNumber (JsMap.values m))).
  { apply (NoDup_map_inv actionIdOf). unfold JsMap.values.
    rewrite !map_map.
    erewrite map_ext_in; [exact Hnd|].
    intros kv Hin. rewrite Forall_forall in Hkeys. symmetry. now apply Hkeys. }
  clearbody m. clear Hnd Hkeys. unfold JsMap.values in *.
  induction (map snd m) as [|q l IH]; simpl; [constructor|].
  inversion Hnum as [|? ? Hnotin Hnd']; subst.
  destruct (JsString.truthy_opt (ContentPage.title q)) eqn:Ht; simpl; auto.
  constructor; auto.
  intros Hin. apply Hnotin.
  apply in_map_iff in Hin. destruct Hin as [q' [Heq Hq']].
  apply filter_In in Hq'. destruct Hq' as [Hq' _].
  simpl in Heq. rewrite <- Heq. now apply in_map.
Qed.

Lemma output_sorted (responses : list ContentApiResponse.t) :
  StronglySorted Z.lt
    (map ContentPage.pageNumber (transformApiToContentPages responses)).
Proof.
  apply sorted_nodup_strict; [|apply output_numbers_nodup].
  apply sorted_map_pageNumber. unfold transformApiToContentPages.
  apply sort_sorted.
Qed.

(** *** Order and presence of the entries *)

(** C8. The pages that the aggregator returns are in ascending order of
    their sequence numbers, strictly: no number comes twice. So are the
    pages that [getAllMainPageLanguages] hands out. For a response whose
    keys carry the numbers 1, 2 and 3, in any of their six orders, the
    pages come out in the order 1, 2, 3. *)
Theorem aggregated_pages_sorted :
  (forall responses,
      StronglySorted Z.lt
        (map ContentPage.pageNumber (transformApiToContentPages responses)))
  /\ (forall results pages,
         data (getAllMainPageLanguages results) = Some pages ->
         StronglySorted Z.lt (map ContentPage.pageNumber pages))
  /\ Forall (fun sequence =>
               map ContentPage.pageNumber
                   (transformApiToContentPages [ruResponse sequence])
               = [1; 2; 3])
            ordersOf123.
Proof.
  split; [exact output_sorted|]. split.
  - intros results pages. unfold getAllMainPageLanguages.
    destruct (validResponses results) as [|r valid]; [discriminate|].
    simpl. intros [= <-]. apply output_sorted.
  - repeat constructor.
Qed.

Lemma aggregated_pages_sorted_witness :
  data (getAllMainPageLanguages settledResults)
  = Some (transformApiToContentPages [ruResponse [3; 1; 2]; hebrewOnly])
  /\ StronglySorted Z.lt
       (map ContentPage.pageNumber
            (transformApiToContentPages [ruResponse [3; 1; 2]; hebrewOnly])).
Proof.
  split; [reflexivity|].
  destruct aggregated_pages_sorted as [_ [H _]].
  apply (H settledResults). reflexivity.
Defined.

(** C9, as stated, fails: a title in Hebrew alone is a non-empty title
    for sequence number 1, and yet the output has no entry for it. *)
Lemma secondary_title_alone_is_dropped :
  someTitle 1 (itemsOf [hebrewOnly])
  /\ ~ appears 1 (transformApiToContentPages [hebrewOnly]).
Proof.
  split.
  - eexists. exists "Aleph". split; [left; reflexivity|].
    repeat split. discriminate.
  - intros [page [[] _]].
Qed.

(** C9 (amended). An entry for a sequence number is in the output if and
    only if the last title that the responses in the primary language
    ([ru]) supplied for that number is non-empty; so an entry is there
    only if some response supplied a non-empty title for its number. The
    entry shows, in each title slot, the last title its language
    supplied: an entry with a primary-language title and no title in
    Hebrew or in English is there with those slots empty. *)
Theorem entry_appears_iff_primary_title
    (responses : list ContentApiResponse.t) (n : Z) :
  let items := itemsOf responses in
  let pages := transformApiToContentPages responses in
  (appears n pages
   <-> exists s, lastTitle "ru" n items = Some s /\ s <> EmptyString)
  /\ (appears n pages -> someTitle n items)
  /\ (forall page,
         In page pages -> ContentPage.pageNumber page = n ->
         ContentPage.title page = lastTitle "ru" n items
         /\ ContentPage.titleHe page = lastTitle "he" n items
         /\ ContentPage.titleEn page = lastTitle "en" n items)
  /\ (forall page,
         In page pages -> ContentPage.pageNumber page = n ->
         (suppliedTitles "he" n items = [] -> ContentPage.titleHe page = None)
         /\ (suppliedTitles "en" n items = [] -> ContentPage.titleEn page = None)).
Proof.
  intros items pages.
  assert (Hiff : appears n pages
                 <-> exists s, lastTitle "ru" n items = Some s /\ s <> EmptyString).
  { split.
    - intros [page [Hin <-]].
      destruct (output_titles responses page Hin) as [Ht _].
      now apply JsStringFacts.truthy_opt_spec.
    - intros Hs. apply JsStringFacts.truthy_opt_spec in Hs.
      destruct (fold_tracks n (itemsOf responses)) as [_ Htr].
      unfold tracks in Htr.
      destruct (JsMap.get (actionIdOf n) _) as [q|] eqn:Hget.
      + destruct Htr as (Hn & Htitle & _).
        fold items in Htitle. rewrite <- Htitle in Hs.
        exists (finalize q). split; [now apply (output_of_page responses n)|].
        now destruct (finalize_fields q Hs) as [-> _].
      + fold items in Htr. unfold lastTitle in Hs.
        rewrite (suppliedTitles_none _ n items Htr) in Hs. discriminate. }
  assert (Htitles : forall page,
             In page pages -> ContentPage.pageNumber page = n ->
             ContentPage.title page = lastTitle "ru" n items
             /\ ContentPage.titleHe page = lastTitle "he" n items
             /\ ContentPage.titleEn page = lastTitle "en" n items).
  { intros page Hin <-.
    now destruct (output_titles responses page Hin) as [_ H]. }
  split; [exact Hiff|]. split; [|split; [exact Htitles|]].
  - intros Happ. apply Hiff in Happ. destruct Happ as [s [Hs Hne]].
    apply lastTitle_supplied in Hs. destruct Hs as [item [Hin [Hc Ht]]].
    exists item, s. repeat split; auto.
    unfold concerns in Hc. apply andb_prop in Hc. destruct Hc as [_ Hc].
    destruct (actionNumberOf (fst (snd item))) as [k|]; [|discriminate].
    apply Z.eqb_eq in Hc. now subst.
  - intros page Hin Hn.
    destruct (Htitles page Hin Hn) as (_ & -> & ->).
    unfold lastTitle. split; intros ->; reflexivity.
Qed.

(** The Russian response alone: every entry is there, with empty slots
    for Hebrew and English. *)
Lemma entry_appears_iff_primary_title_witness :
  In (finalize
        (setContentType
           {| ContentData.value := Text "title";
              ContentData.component_type := "text";
              ContentData.category := "headers";
              ContentData.language := "ru";
              ContentData.status := "approved" |}
           (setTitles "ru"
              {| ContentData.value := Text "title";
                 ContentData.component_type := "text";
                 ContentData.category := "headers";
                 ContentData.language := "ru";
                 ContentData.status := "approved" |}
              (newPage 2
                 {| ContentData.value := Text "title";
                    ContentData.component_type := "text";
                    ContentData.category := "headers";
                    ContentData.language := "ru";
                    ContentData.status := "approved" |}))))
     (transformApiToContentPages [ruResponse [3; 1; 2]])
  /\ suppliedTitles "he" 2 (itemsOf [ruResponse [3; 1; 2]]) = []
  /\ forall page,
       In page (transformApiToContentPages [ruResponse [3; 1; 2]]) ->
       ContentPage.pageNumber page = 2 ->
       ContentPage.title page = Some "title"
       /\ ContentPage.titleHe page = None.
Proof.
  split; [simpl; tauto|]. split; [reflexivity|].
  intros page Hin Hn.
  destruct (entry_appears_iff_primary_title [ruResponse [3; 1; 2]] 2)
    as (_ & _ & Htitles & Hempty).
  destruct (Htitles page Hin Hn) as [-> _].
  destruct (Hempty page Hin Hn) as [Hhe _].
  split; [reflexivity | now apply Hhe].
Defined.

End AggregatorProps.

(** ** Numbers in decimal *)

Module NumberFacts.

Import JsString.

(** Reading the digits of a decimal numeral. *)
Lemma parse_uint_acc (d : Decimal.uint) (p : positive) :
  parse_digits_from (Zpos p) (NilEmpty.string_of_uint d)
  = Zpos (Pos.of_uint_acc d p).
Proof.
  revert p.
  induction d; intros p;
    cbn [NilEmpty.string_of_uint parse_digits_from Pos.of_uint_acc];
    try reflexivity; rewrite <- IHd; f_equal;
    match goal with
    | |- context [Z.of_N (N_of_ascii ?c) - 48] =>
        let k := eval vm_compute in (Z.of_N (N_of_ascii c) - 48) in
        change (Z.of_N (N_of_ascii c) - 48) with k
    end; lia.
Qed.

Lemma parse_uint (d : Decimal.uint) :
  parse_digits_from 0 (NilEmpty.string_of_uint d) = Z.of_N (Pos.of_uint d).
Proof.
  induction d;
    cbn [NilEmpty.string_of_uint parse_digits_from Pos.of_uint];
    try reflexivity; try exact IHd;
    cbn [Z.of_N]; rewrite <- parse_uint_acc; reflexivity.
Qed.

(** [parseInt(`${n}`) = n] for a non-negative integer. *)
Lemma parseInt_numberToString (n : Z) :
  0 <= n -> parseInt (Aggregator.numberToString n) = n.
Proof.
  intros Hn. unfold parseInt, Aggregator.numberToString.
  rewrite <- (DecimalZ.of_to n) at 2.
  destruct n as [|p|p]; [reflexivity | | lia].
  cbn [Z.to_int NilEmpty.string_of_int Z.of_int]. apply parse_uint.
Qed.

Lemma take_digits_uint (d : Decimal.uint) (rest : string) :
  fst (take_digits rest) = EmptyString ->
  take_digits (NilEmpty.string_of_uint d ++ rest)
  = (NilEmpty.string_of_uint d, rest).
Proof.
  intros Hrest. induction d; simpl; try (rewrite IHd; reflexivity).
  destruct rest as [|c rest]; [reflexivity|]. simpl in *.
  destruct (is_digit c); [|reflexivity].
  destruct (take_digits rest). discriminate.
Qed.

(** The numeral of a non-negative integer is a non-empty run of digits. *)
Lemma take_digits_numberToString (n : Z) (rest : string) :
  0 <= n ->
  fst (take_digits rest) = EmptyString ->
  take_digits (Aggregator.numberToString n ++ rest)
  = (Aggregator.numberToString n, rest)
  /\ Aggregator.numberToString n <> EmptyString.
Proof.
  intros Hn Hrest. unfold Aggregator.numberToString.
  destruct n as [|p|p]; [| |lia];
    cbn [Z.to_int NilEmpty.string_of_int].
  - split; [now apply take_digits_uint | discriminate].
  - split; [now apply take_digits_uint|].
    pose proof (DecimalPos.Unsigned.to_uint_nonnil p) as Hnil.
    destruct (Pos.to_uint p); try discriminate. contradiction.
Qed.

End NumberFacts.

(** ** Objects: spreading *)

Module ObjectFacts.

Section Facts.
Context {V : Type}.
Implicit Types (m a b : JsMap.t V) (k : string) (v : V).

Lemma has_set k k' v m :
  JsMap.has k m = true -> JsMap.has k (JsMap.set k' v m) = true.
Proof.
  unfold JsMap.has. intros H.
  destruct (String.eqb_spec k k') as [->|Hne].
  - now rewrite JsMapFacts.get_set_same.
  - now rewrite JsMapFacts.get_set_other.
Qed.

Lemma size_set k v m :
  JsMap.size (JsMap.set k v m)
  = if JsMap.has k m then JsMap.size m else S (JsMap.size m).
Proof.
  unfold JsMap.size.
  rewrite <- (length_map fst (JsMap.set k v m)), JsMapFacts.keys_set.
  destruct (JsMap.has k m); rewrite ?length_app, length_map; simpl; lia.
Qed.

(** A property that [b] does not name is read from [a]. *)
Lemma get_spread_absent k a b :
  JsMap.get k b = None -> JsMap.get k (JsMap.spread a b) = JsMap.get k a.
Proof.
  unfold JsMap.spread. revert a.
  induction b as [|[k' v'] b IH]; intros a; simpl; [reflexivity|].
  destruct (String.eqb_spec k k') as [->|Hne]; [discriminate|].
  intros Hb. rewrite IH by exact Hb. simpl.
  now apply JsMapFacts.get_set_other.
Qed.

(** A property that [b] names once is read from [b]. *)
Lemma get_spread_present k v a b :
  NoDup (map fst b) -> JsMap.get k b = Some v ->
  JsMap.get k (JsMap.spread a b) = Some v.
Proof.
  unfold JsMap.spread. revert a.
  induction b as [|[k' v'] b IH]; intros a Hnd; simpl; [discriminate|].
  inversion Hnd as [|? ? Hnotin Hnd']; subst.
  destruct (String.eqb_spec k k') as [->|Hne].
  - intros [= ->].
    assert (Hb : JsMap.get k' b = None).
    { destruct (JsMap.get k' b) eqn:E; [|reflexivity].
      apply JsMapFacts.get_in in E. apply (in_map fst) in E. contradiction. }
    fold (JsMap.spread (JsMap.set k' v a) b).
    rewrite (get_spread_absent _ _ _ Hb). apply JsMapFacts.get_set_same.
  - intros Hb. now apply IH.
Qed.

(** Spreading never removes a property. *)
Lemma has_spread k a b :
  JsMap.has k a = true -> JsMap.has k (JsMap.spread a b) = true.
Proof.
  unfold JsMap.spread. revert a.
  induction b as [|[k' v'] b IH]; intros a Ha; simpl; [exact Ha|].
  apply IH. now apply has_set.
Qed.

End Facts.

End ObjectFacts.

(** ** The cache across calls *)

Module CacheExtras.

Import Json Props Behaviour.

Section Calls.

Context {T : Type}.
Variable cfg : Config.

Implicit Types (endpoint : string) (options : JsObject)
  (customTTL : option Z) (w : World T) (cache : JsMap.t (CacheEntry.t T)).

(** What a decodable response with a validator writes. *)
Lemma requestWithCache_written
    endpoint options customTTL w cache (r : Response T) (result : ApiResponse T) :
  fetched w = FetchResolves r ->
  status r <> 304 ->
  response_json r = JsonResolves result ->
  carried (ETag r) \/ carried (Bankim_Content_Version r) ->
  let out := requestWithCache cfg endpoint options customTTL w cache in
  returned out = result
  /\ cache_after out
     = JsMap.set (cacheKeyOf endpoint options)
         {| CacheEntry.data := data result;
            CacheEntry.etag := validatorOf (ETag r) (Bankim_Content_Version r);
            CacheEntry.timestamp := now_after w;
            CacheEntry.ttl := parseTTL (defaultTTL cfg customTTL) (Cache_Control r) |}
         cache.
Proof.
  intros Hw Hs Hj Hv. simpl. unfold requestWithCache. rewrite Hw.
  apply Z.eqb_neq in Hs. rewrite Hs, Hj.
  assert (Ht : JsString.truthy_opt (ETag r)
               || JsString.truthy_opt (Bankim_Content_Version r) = true).
  { apply orb_true_iff.
    destruct Hv as [Hv|Hv]; [left|right];
      now apply JsStringFacts.truthy_opt_spec. }
  rewrite Ht. split; reflexivity.
Qed.

(** The headers of the one request of a call. *)
Lemma requestWithCache_sent endpoint options customTTL w cache :
  sentHeaders (effects (requestWithCache cfg endpoint options customTTL w cache))
  = [requestHeaders (JsMap.get (cacheKeyOf endpoint options) cache)
                    (now_before w) options].
Proof.
  destruct (CacheProps.requestWithCache_effects cfg endpoint options
              customTTL w cache) as [url [tail [-> Htail]]].
  unfold sentHeaders. simpl. fold (sentHeaders tail).
  rewrite (CacheProps.sentHeaders_no_fetch tail Htail).
  unfold fetchInit, prop. now rewrite JsMapFacts.get_set_same.
Qed.

(** X1. A cached request touches no entry but the one of its own
    fingerprint: every other key reads as before, no key disappears, and
    the cache grows by one entry at most. *)
Theorem cached_request_frame endpoint options customTTL w cache :
  let cacheKey := cacheKeyOf endpoint options in
  let after :=
    cache_after (requestWithCache cfg endpoint options customTTL w cache) in
  (forall k, k <> cacheKey -> JsMap.get k after = JsMap.get k cache)
  /\ (forall k, JsMap.has k cache = true -> JsMap.has k after = true)
  /\ (JsMap.size cache <= JsMap.size after <= S (JsMap.size cache))%nat.
Proof.
  intros cacheKey after. subst after.
  destruct (CacheProps.requestWithCache_cache_after cfg endpoint options
              customTTL w cache) as [->|[entry [-> _]]].
  - repeat split; auto.
  - fold cacheKey. split; [|split].
    + intros k Hk. now apply JsMapFacts.get_set_other.
    + intros k Hk. now apply ObjectFacts.has_set.
    + rewrite ObjectFacts.size_set. destruct (JsMap.has cacheKey cache); lia.
Qed.

(** X2. Write, then revalidate. After a response with a validator was
    stored, the next call for the same request that starts within the
    window of the entry sends [If-None-Match] with that validator
    (the caller bringing no such header); when the server answers 304,
    the call returns the payload stored by the first call and leaves the
    cache as the first call left it. *)
Theorem written_entry_is_revalidated
    endpoint options ttl1 ttl2 (w1 w2 : World T) cache
    (r1 : Response T) (result : ApiResponse T) :
  fetched w1 = FetchResolves r1 ->
  status r1 <> 304 ->
  response_json r1 = JsonResolves result ->
  carried (ETag r1) \/ carried (Bankim_Content_Version r1) ->
  conditionalHeaders (own_props (prop "headers" options)) = [] ->
  let out1 := requestWithCache cfg endpoint options ttl1 w1 cache in
  let out2 := requestWithCache cfg endpoint options ttl2 w2 (cache_after out1) in
  now_before w2 - now_after w1
  < parseTTL (defaultTTL cfg ttl1) (Cache_Control r1) ->
  (exists headers,
      sentHeaders (effects out2) = [headers]
      /\ conditionalHeaders headers
         = [("If-None-Match",
             VString (validatorOf (ETag r1) (Bankim_Content_Version r1)))])
  /\ (forall r2,
         fetched w2 = FetchResolves r2 -> status r2 = 304 ->
         returned out2 = {| success := true; data := data result;
                            error := None; message := None |}
         /\ cache_after out2 = cache_after out1).
Proof.
  intros Hw1 Hs1 Hj1 Hv Hopt out1 out2 Hfresh. subst out2.
  destruct (requestWithCache_written endpoint options ttl1 w1 cache r1 result
              Hw1 Hs1 Hj1 Hv) as [_ Hcache].
  fold out1 in Hcache. rewrite Hcache.
  set (entry := {| CacheEntry.data := data result;
                   CacheEntry.etag := validatorOf (ETag r1)
                                        (Bankim_Content_Version r1);
                   CacheEntry.timestamp := now_after w1;
                   CacheEntry.ttl := parseTTL (defaultTTL cfg ttl1)
                                       (Cache_Control r1) |}) in *.
  set (cacheKey := cacheKeyOf endpoint options).
  assert (Hget : JsMap.get cacheKey (JsMap.set cacheKey entry cache) = Some entry)
    by apply JsMapFacts.get_set_same.
  split.
  - eexists. split; [apply requestWithCache_sent|]. fold cacheKey.
    rewrite CacheProps.conditionalHeaders_request by exact Hopt.
    rewrite Hget. simpl.
    destruct (Z.ltb_spec (now_before w2 - now_after w1)
                (parseTTL (defaultTTL cfg ttl1) (Cache_Control r1)))
      as [_|Hge]; [|lia].
    assert (Hne : validatorOf (ETag r1) (Bankim_Content_Version r1)
                  <> EmptyString).
    { apply CacheProps.validatorOf_truthy. apply orb_true_iff.
      destruct Hv as [H|H]; [left|right];
        now apply JsStringFacts.truthy_opt_spec. }
    destruct (validatorOf (ETag r1) (Bankim_Content_Version r1));
      [contradiction | reflexivity].
  - intros r2 Hw2 Hs2. unfold requestWithCache. fold cacheKey.
    rewrite Hw2, Hs2, Hget. simpl. auto.
Qed.

(** X3. The stale fallback reports success whatever the response that
    filled the cache said. A response of any status other than 304 (a
    500, say) whose body decodes and which carries a validator is
    stored; when the next call for the same request meets a transport
    failure within twice the window, it returns [success: true] with the
    [data] of that body, and the [success] flag and the [error] of the
    body are gone. *)
Theorem fallback_forgets_the_flag
    endpoint options ttl1 ttl2 (w1 w2 : World T) cache
    (r1 : Response T) (result : ApiResponse T) (e : Thrown) :
  fetched w1 = FetchResolves r1 ->
  status r1 <> 304 ->
  response_json r1 = JsonResolves result ->
  carried (ETag r1) \/ carried (Bankim_Content_Version r1) ->
  fetched w2 = FetchRejects e ->
  let out1 := requestWithCache cfg endpoint options ttl1 w1 cache in
  let out2 := requestWithCache cfg endpoint options ttl2 w2 (cache_after out1) in
  now_after w2 - now_after w1
  < 2 * parseTTL (defaultTTL cfg ttl1) (Cache_Control r1) ->
  returned out1 = result
  /\ returned out2 = {| success := true; data := data result;
                        error := None; message := None |}.
Proof.
  intros Hw1 Hs1 Hj1 Hv Hw2 out1 out2 Hage. subst out2.
  destruct (requestWithCache_written endpoint options ttl1 w1 cache r1 result
              Hw1 Hs1 Hj1 Hv) as [Hret Hcache].
  fold out1 in Hret, Hcache. split; [exact Hret|].
  rewrite Hcache, (CacheProps.requestWithCache_rejected _ _ _ _ _ _ _ Hw2).
  rewrite JsMapFacts.get_set_same. unfold onThrow. simpl.
  destruct (Z.ltb_spec (now_after w2 - now_after w1)
              (parseTTL (defaultTTL cfg ttl1) (Cache_Control r1) * 2))
    as [_|Hge]; [reflexivity | lia].
Qed.

(** X4. The two windows. With an entry whose age is at least its ttl
    when the call starts and less than twice its ttl when the request
    fails, the request goes out without a conditional header (the entry
    is no longer trusted) and yet the entry is what the call returns
    (it is still good enough for an outage). *)
Theorem stale_entry_serves_outage
    endpoint options customTTL w cache (c : CacheEntry.t T) (e : Thrown) :
  JsMap.get (cacheKeyOf endpoint options) cache = Some c ->
  conditionalHeaders (own_props (prop "headers" options)) = [] ->
  fetched w = FetchRejects e ->
  CacheEntry.ttl c <= now_before w - CacheEntry.timestamp c ->
  now_after w - CacheEntry.timestamp c < 2 * CacheEntry.ttl c ->
  let out := requestWithCache cfg endpoint options customTTL w cache in
  (exists headers,
      sentHeaders (effects out) = [headers] /\ conditionalHeaders headers = [])
  /\ returned out = {| success := true; data := CacheEntry.data c;
                       error := None; message := None |}.
Proof.
  intros Hget Hopt Hw Hstale Hage out. subst out. split.
  - eexists. split; [apply requestWithCache_sent|].
    rewrite CacheProps.conditionalHeaders_request by exact Hopt.
    rewrite Hget. simpl.
    destruct (Z.ltb_spec (now_before w - CacheEntry.timestamp c)
                (CacheEntry.ttl c)) as [Hlt|_]; [lia | reflexivity].
  - rewrite (CacheProps.requestWithCache_rejected _ _ _ _ _ _ _ Hw), Hget.
    unfold onThrow.
    destruct (Z.ltb_spec (now_after w - CacheEntry.timestamp c)
                (CacheEntry.ttl c * 2)) as [_|Hge]; [reflexivity | lia].
Qed.

(** X5. Clearing takes the fallback away. Right after
    [clearContentCache] the statistics show no entry, and a call that
    meets a transport failure fails with the message of the error,
    whatever the cache held before. *)
Theorem clear_removes_fallback
    endpoint options customTTL w cache (e : Thrown) (now : Z) :
  fetched w = FetchRejects e ->
  let cleared := clearContentCache cache in
  size (getCacheStats now cleared) = 0%nat
  /\ entries (getCacheStats now cleared) = []
  /\ returned (requestWithCache cfg endpoint options customTTL w cleared)
     = {| success := false; data := None;
          error := Some (error_message e); message := None |}.
Proof.
  intros Hw cleared. repeat split.
  now rewrite (CacheProps.requestWithCache_rejected _ _ _ _ _ _ _ Hw).
Qed.

End Calls.






Lemma cached_request_frame_witness :
  JsMap.get sample_key
    (cache_after (requestWithCache production_config "/api/content/menu" []
                    None (world_ok 5) sample_cache))
  = Some sample_entry.
Proof.
  pose proof (cached_request_frame production_config "/api/content/menu" []
                None (world_ok 5) sample_cache) as H.
  cbv zeta in H. destruct H as [H _].
  rewrite (H sample_key); [reflexivity | vm_compute; discriminate].
Defined.

Lemma written_entry_is_revalidated_witness :
  let out1 := requestWithCache production_config sample_endpoint [] None
                (world_ok 0) [] in
  let out2 := requestWithCache production_config sample_endpoint [] None
                (world_not_modified 1000) (cache_after out1) in
  (exists headers,
      sentHeaders (effects out2) = [headers]
      /\ conditionalHeaders headers = [("If-None-Match", VString "v2")])
  /\ returned out2 = {| success := true; data := Some "fresh payload";
                        error := None; message := None |}
  /\ cache_after out2 = cache_after out1.
Proof.
  intros out1 out2.
  pose (r1 := {| status := 200; ETag := Some "v2";
                 Cache_Control := Some "public, max-age=60";
                 Bankim_Content_Version := None;
                 body := JsonResolves fresh_body |}).
  assert (Hw : fetched (world_ok 0) = FetchResolves r1) by reflexivity.
  assert (Hs : status r1 <> 304) by discriminate.
  assert (Hj : response_json r1 = JsonResolves fresh_body) by reflexivity.
  assert (Hv : carried (ETag r1) \/ carried (Bankim_Content_Version r1))
    by (left; exists "v2"; split; [reflexivity | discriminate]).
  assert (Hopt : conditionalHeaders
                   (own_props (prop "headers" (@nil (string * JsVal)))) = [])
    by reflexivity.
  assert (Hfresh : now_before (world_not_modified 1000) - now_after (world_ok 0)
                   < parseTTL (defaultTTL production_config None)
                       (Cache_Control r1))
    by (vm_compute; reflexivity).
  pose proof (written_entry_is_revalidated production_config sample_endpoint []
                None None (world_ok 0) (world_not_modified 1000) [] r1
                fresh_body Hw Hs Hj Hv Hopt) as H.
  cbv zeta in H. destruct (H Hfresh) as [Hh Hr].
  split; [exact Hh | exact (Hr _ eq_refl eq_refl)].
Defined.

Lemma fallback_forgets_the_flag_witness :
  let out1 := requestWithCache production_config sample_endpoint [] None
                (world_server_error 0) [] in
  let out2 := requestWithCache production_config sample_endpoint [] None
                (world_offline 500) (cache_after out1) in
  returned out1 = error_body
  /\ returned out2 = {| success := true; data := None;
                        error := None; message := None |}.
Proof.
  intros out1 out2.
  pose (r1 := {| status := 500; ETag := Some "e500"; Cache_Control := None;
                 Bankim_Content_Version := None;
                 body := JsonResolves error_body |}).
  assert (Hw1 : fetched (world_server_error 0) = FetchResolves r1)
    by reflexivity.
  assert (Hs : status r1 <> 304) by discriminate.
  assert (Hj : response_json r1 = JsonResolves error_body) by reflexivity.
  assert (Hv : carried (ETag r1) \/ carried (Bankim_Content_Version r1))
    by (left; exists "e500"; split; [reflexivity | discriminate]).
  assert (Hw2 : fetched (world_offline 500)
                = FetchRejects (ErrorInstance "Failed to fetch"))
    by reflexivity.
  assert (Hage : now_after (world_offline 500) - now_after (world_server_error 0)
                 < 2 * parseTTL (defaultTTL production_config None)
                       (Cache_Control r1))
    by (vm_compute; reflexivity).
  pose proof (fallback_forgets_the_flag production_config sample_endpoint []
                None None (world_server_error 0) (world_offline 500) [] r1
                error_body (ErrorInstance "Failed to fetch")
                Hw1 Hs Hj Hv Hw2) as H.
  cbv zeta in H. exact (H Hage).
Defined.

Lemma stale_entry_serves_outage_witness :
  let out := requestWithCache production_config sample_endpoint [] None
               (world_offline 1500) sample_cache in
  (exists headers,
      sentHeaders (effects out) = [headers] /\ conditionalHeaders headers = [])
  /\ returned out = {| success := true; data := Some "cached payload";
                       error := None; message := None |}.
Proof.
  intros out.
  assert (Hget : JsMap.get (cacheKeyOf sample_endpoint []) sample_cache
                 = Some sample_entry) by reflexivity.
  assert (Hopt : conditionalHeaders
                   (own_props (prop "headers" (@nil (string * JsVal)))) = [])
    by reflexivity.
  assert (Hw : fetched (world_offline 1500)
               = FetchRejects (ErrorInstance "Failed to fetch"))
    by reflexivity.
  assert (Hstale : CacheEntry.ttl sample_entry
                   <= now_before (world_offline 1500)
                      - CacheEntry.timestamp sample_entry)
    by (simpl; lia).
  assert (Hage : now_after (world_offline 1500)
                 - CacheEntry.timestamp sample_entry
                 < 2 * CacheEntry.ttl sample_entry)
    by (simpl; lia).
  exact (stale_entry_serves_outage production_config sample_endpoint [] None
           (world_offline 1500) sample_cache sample_entry
           (ErrorInstance "Failed to fetch") Hget Hopt Hw Hstale Hage).
Defined.

Lemma clear_removes_fallback_witness :
  returned (requestWithCache production_config sample_endpoint [] None
              (world_offline 1500) (clearContentCache sample_cache))
  = {| success := false; data := None;
       error := Some "Failed to fetch"; message := None |}.
Proof.
  assert (Hw : fetched (world_offline 1500)
               = FetchRejects (ErrorInstance "Failed to fetch"))
    by reflexivity.
  pose proof (clear_removes_fallback production_config sample_endpoint [] None
                (world_offline 1500) sample_cache
                (ErrorInstance "Failed to fetch") 1500 Hw) as H.
  cbv zeta in H. exact (proj2 (proj2 H)).
Defined.

End CacheExtras.

(** ** The uncached executor and the operations *)

Module OperationProps.

Import Json Props Behaviour.



(** X6. The uncached executor sends one request, to the base address
    (never to the content address), and does not merge headers: when the
    options have a [headers] property, it is sent as it is and the
    default [Content-Type: application/json] is lost; only without one
    are the default headers sent. Every other option is passed on. *)
Theorem request_replaces_headers {T : Type} (cfg : Config) (endpoint : string)
    (options : JsObject) (w : World T) :
  NoDup (map fst options) ->
  exists init,
    calls (snd (request cfg endpoint options w))
    = [Fetch (API_BASE_URL cfg ++ endpoint)%string init]
    /\ (forall h, JsMap.get "headers" options = Some h ->
                  JsMap.get "headers" init = Some h)
    /\ (JsMap.get "headers" options = None ->
        JsMap.get "headers" init
        = Some (VObject [("Content-Type", VString "application/json")]))
    /\ (forall k, k <> "headers" -> JsMap.get k init = JsMap.get k options).
Proof.
  intros Hnd. exists (requestInit options). split; [|split; [|split]].
  - unfold request.
    destruct (fetched w) as [e|r]; [reflexivity|].
    destruct (response_json r); reflexivity.
  - intros h Hh. unfold requestInit.
    now apply ObjectFacts.get_spread_present.
  - intros Hnone. unfold requestInit.
    rewrite ObjectFacts.get_spread_absent by exact Hnone.
    unfold prop, own_props. rewrite Hnone. reflexivity.
  - intros k Hk. unfold requestInit.
    destruct (JsMap.get k options) as [v|] eqn:E.
    + now apply ObjectFacts.get_spread_present.
    + rewrite ObjectFacts.get_spread_absent by exact E.
      simpl. apply String.eqb_neq in Hk. now rewrite Hk.
Qed.

(** The uncached executor never throws: a rejected [fetch] and a body
    that does not decode both come back as a failure with the message of
    the error, any decoded body comes back as it is, whatever the status
    of the response, and there is no fallback of any kind. *)
Lemma request_outcomes {T : Type} (cfg : Config) (endpoint : string)
    (options : JsObject) (w : World T) :
  (forall e, fetched w = FetchRejects e ->
             fst (request cfg endpoint options w)
             = {| success := false; data := None;
                  error := Some (error_message e); message := None |})
  /\ (forall r e, fetched w = FetchResolves r ->
                  response_json r = JsonRejects e ->
                  fst (request cfg endpoint options w)
                  = {| success := false; data := None;
                       error := Some (error_message e); message := None |})
  /\ (forall r result, fetched w = FetchResolves r ->
                       response_json r = JsonResolves result ->
                       fst (request cfg endpoint options w) = result).
Proof.
  unfold request. repeat split.
  - intros e ->. reflexivity.
  - intros r e -> ->. reflexivity.
  - intros r result -> ->. reflexivity.
Qed.

Section CachedHeaders.

Context {T : Type}.
Variable cfg : Config.

(** X7. The cached executor merges headers: its request always has a
    [Content-Type], and it is [application/json] unless the headers of
    the caller say otherwise. *)
Theorem cached_request_content_type (endpoint : string) (options : JsObject)
    (customTTL : option Z) (w : World T) (cache : JsMap.t (CacheEntry.t T)) :
  exists headers,
    sentHeaders (effects (requestWithCache cfg endpoint options customTTL w cache))
    = [headers]
    /\ JsMap.has "Content-Type" headers = true
    /\ (JsMap.get "Content-Type" (own_props (prop "headers" options)) = None ->
        JsMap.get "Content-Type" headers = Some (VString "application/json")).
Proof.
  eexists. split; [apply CacheExtras.requestWithCache_sent|].
  unfold requestHeaders. split.
  - now do 2 apply ObjectFacts.has_spread.
  - intros Hnone. rewrite ObjectFacts.get_spread_absent by exact Hnone.
    rewrite ObjectFacts.get_spread_absent; [reflexivity|].
    unfold conditionalHeader.
    destruct (JsMap.get (cacheKeyOf endpoint options) cache) as [c|];
      [|reflexivity].
    now destruct (_ && _).
Qed.

End CachedHeaders.

(** X8. Deleting a main page action. With a placeholder base address
    nothing is sent and the call reports success. Otherwise one [DELETE]
    request goes to the base address (although the endpoint is a content
    endpoint) with the default headers, and a transport failure comes
    back as a failure. *)
Theorem deleteMainPageAction_behaviour (cfg : Config) (actionId : string)
    (w : World unit) :
  (isPlaceholderUrl cfg (API_BASE_URL cfg) = true ->
   fst (deleteMainPageAction cfg actionId w)
   = {| success := true; data := None; error := None; message := None |}
   /\ calls (snd (deleteMainPageAction cfg actionId w)) = [])
  /\ (isPlaceholderUrl cfg (API_BASE_URL cfg) = false ->
      calls (snd (deleteMainPageAction cfg actionId w))
      = [Fetch (API_BASE_URL cfg ++ "/api/content/main/actions/" ++ actionId)%string
               [("headers",
                 VObject [("Content-Type", VString "application/json")]);
                ("method", VString "DELETE")]]
      /\ forall e, fetched w = FetchRejects e ->
                   fst (deleteMainPageAction cfg actionId w)
                   = {| success := false; data := None;
                        error := Some (error_message e); message := None |}).
Proof.
  unfold deleteMainPageAction. split; intros ->.
  - split; reflexivity.
  - unfold request. split.
    + destruct (fetched w) as [e|r]; [reflexivity|].
      destruct (response_json r); reflexivity.
    + intros e ->. reflexivity.
Qed.

Section Menu.

Context {T : Type}.
Variable truthyData : T -> bool.
Variable cfg : Config.



End Menu.





Lemma request_replaces_headers_witness :
  exists init,
    calls (snd (request production_config "/api/pages" caller_tag_options
                  (world_offline 0)))
    = [Fetch "https://admin.bankim.example/api/pages" init]
    /\ JsMap.get "headers" init
       = Some (VObject [("If-None-Match", VString "caller-tag")]).
Proof.
  assert (Hnd : NoDup (map fst caller_tag_options))
    by (repeat constructor; intros []).
  destruct (request_replaces_headers production_config "/api/pages"
              caller_tag_options (world_offline 0) Hnd)
    as [init (Hc & Hh & _)].
  exists init. split; [exact Hc | exact (Hh _ eq_refl)].
Defined.

Lemma cached_request_content_type_witness :
  exists headers,
    sentHeaders (effects (requestWithCache production_config sample_endpoint
                            caller_tag_options None (world_offline 0)
                            sample_cache))
    = [headers]
    /\ JsMap.get "Content-Type" headers = Some (VString "application/json").
Proof.
  destruct (cached_request_content_type production_config sample_endpoint
              caller_tag_options None (world_offline 0) sample_cache)
    as [headers (Hs & _ & Hc)].
  exists headers. split; [exact Hs | apply Hc; reflexivity].
Defined.

Lemma deleteMainPageAction_behaviour_witness :
  calls (snd (deleteMainPageAction production_config "action-3"
                world_of_delete_failure))
  = [Fetch "https://admin.bankim.example/api/content/main/actions/action-3"
           [("headers", VObject [("Content-Type", VString "application/json")]);
            ("method", VString "DELETE")]]
  /\ fst (deleteMainPageAction production_config "action-3"
            world_of_delete_failure)
     = {| success := false; data := None;
          error := Some "Failed to fetch"; message := None |}.
Proof.
  assert (Hreal : isPlaceholderUrl production_config
                    (API_BASE_URL production_config) = false)
    by (vm_compute; reflexivity).
  destruct (deleteMainPageAction_behaviour production_config "action-3"
              world_of_delete_failure) as [_ H].
  destruct (H Hreal) as [Hc Hf].
  split; [exact Hc | exact (Hf _ eq_refl)].
Defined.


End OperationProps.

(** ** The aggregator: identifiers, ignored keys, first and last items *)

Module AggregatorExtras.

Import Props Behaviour Aggregator AggregatorProps.

(** *** Sequence numbers *)

Lemma regex_search_group (pre post s ds : string) :
  JsString.regex_search pre post s = Some ds ->
  exists r, fst (JsString.take_digits r) = ds.
Proof.
  assert (Hat : forall s0, JsString.match_at pre post s0 = Some ds ->
                           exists r, fst (JsString.take_digits r) = ds).
  { intros s0. unfold JsString.match_at.
    destruct (JsString.strip_prefix pre s0) as [r|]; [|discriminate].
    destruct (JsString.take_digits r) as [ds' rest] eqn:E.
    destruct ds' as [|c ds']; [discriminate|].
    destruct (JsString.startsWith rest post); [|discriminate].
    intros [= <-]. exists r. now rewrite E. }
  induction s as [|c s IH]; simpl.
  - destruct (JsString.match_at pre post "") eqn:E; [|discriminate].
    intros [= ->]. eauto.
  - destruct (JsString.match_at pre post (String c s)) eqn:E.
    + intros [= ->]. eauto.
    + exact IH.
Qed.

Lemma parse_digits_nonneg (r : string) (acc : Z) :
  0 <= acc ->
  0 <= JsString.parse_digits_from acc (fst (JsString.take_digits r)).
Proof.
  revert acc. induction r as [|c r IH]; intros acc Hacc; simpl; [exact Hacc|].
  destruct (JsString.is_digit c) eqn:Hc; [|exact Hacc].
  destruct (JsString.take_digits r) as [ds rest]. simpl in *.
  apply IH. unfold JsString.is_digit in Hc.
  apply andb_prop in Hc. destruct Hc as [Hlo _].
  apply N.leb_le in Hlo. lia.
Qed.

(** A sequence number is never negative. *)
Lemma actionNumberOf_nonneg (key : string) (n : Z) :
  actionNumberOf key = Some n -> 0 <= n.
Proof.
  unfold actionNumberOf.
  destruct (JsString.regex_search _ _ key) as [ds|] eqn:E; [|discriminate].
  intros [= <-]. apply regex_search_group in E. destruct E as [r <-].
  now apply parse_digits_nonneg.
Qed.

(** *** The loop body, key by key *)

Lemma set_set {V : Type} (k : string) (v v' : V) (m : JsMap.t V) :
  JsMap.set k v (JsMap.set k v' m) = JsMap.set k v m.
Proof.
  induction m as [|[k0 v0] m IH]; simpl.
  - now rewrite String.eqb_refl.
  - destruct (String.eqb k k0) eqn:E; simpl.
    + now rewrite String.eqb_refl.
    + now rewrite E, IH.
Qed.

Lemma get_processItem_same (m : JsMap.t ContentPage.t) (language key : string)
    (d : ContentData.t) (n : Z) :
  actionNumberOf key = Some n ->
  JsMap.get (actionIdOf n) (processItem m (language, (key, d)))
  = Some (setContentType d
            (setTitles language d
               (match JsMap.get (actionIdOf n) m with
                | Some page => page
                | None => newPage n d
                end))).
Proof.
  intros Hk. rewrite processItem_eq, Hk. cbv zeta.
  apply JsMapFacts.get_set_same.
Qed.

Lemma get_processItem_other (m : JsMap.t ContentPage.t)
    (item : string * (string * ContentData.t)) (n : Z) :
  carriesNumber n item = false ->
  JsMap.get (actionIdOf n) (processItem m item) = JsMap.get (actionIdOf n) m.
Proof.
  destruct item as [language [key d]]. unfold carriesNumber. simpl.
  rewrite processItem_eq.
  destruct (actionNumberOf key) as [k|]; [|reflexivity].
  intros Hk. apply Z.eqb_neq in Hk. cbv zeta.
  assert (Hid : actionIdOf n <> actionIdOf k)
    by (intros H; apply actionIdOf_inj in H; congruence).
  rewrite JsMapFacts.get_set_other by exact Hid.
  destruct (JsMap.has (actionIdOf k) m); [reflexivity|].
  now rewrite JsMapFacts.get_set_other.
Qed.

(** The fields that the loop body keeps, and the kind it sets. *)
Lemma updated_meta (language : string) (d : ContentData.t)
    (page : ContentPage.t) (n : Z) :
  shapedBy n page ->
  let page' := setContentType d (setTitles language d page) in
  shapedBy n page'
  /\ ContentPage.status page' = ContentPage.status page
  /\ ContentPage.contentType page'
     = Some (kindOf (ContentData.component_type d)).
Proof.
  intros (Hn & Hnum & Hid & Hurl & Hcat & Hcount).
  assert (Hkeep : ContentPage.pageNumber (setTitles language d page) = n
                  /\ ContentPage.id (setTitles language d page) = actionIdOf n
                  /\ ContentPage.url (setTitles language d page)
                     = ("/dropdown-action-" ++ numberToString n)%string
                  /\ ContentPage.category (setTitles language d page) = "main"
                  /\ ContentPage.actionCount (setTitles language d page)
                     = ContentPage.actionCount page
                  /\ ContentPage.status (setTitles language d page)
                     = ContentPage.status page).
  { unfold setTitles.
    destruct (String.eqb language "ru");
      [simpl; repeat split; assumption|].
    destruct (String.eqb language "he");
      [simpl; repeat split; assumption|].
    destruct (String.eqb language "en"); simpl; repeat split; assumption. }
  destruct Hkeep as (Hnum' & Hid' & Hurl' & Hcat' & Hcount' & Hstatus').
  unfold setContentType, shapedBy, kindOf. simpl.
  rewrite Hnum', Hid', Hurl', Hcat', Hcount', Hstatus'.
  repeat split; auto.
  destruct (String.eqb (ContentData.component_type d) "dropdown"); [|exact Hcount].
  destruct (ContentData.value d); [exact Hcount|].
  unfold orOne. destruct (Z.eqb_spec (ContentPage.actionCount page) 0); lia.
Qed.

Lemma itemsFor_snoc (n : Z) (items : list (string * (string * ContentData.t)))
    (item : string * (string * ContentData.t)) :
  itemsFor n (items ++ [item])
  = itemsFor n items ++ (if carriesNumber n item then [item] else []).
Proof. unfold itemsFor. now rewrite filter_app. Qed.

Lemma processItem_tracksMeta (n : Z)
    (items : list (string * (string * ContentData.t)))
    (item : string * (string * ContentData.t)) (m : JsMap.t ContentPage.t) :
  tracksMeta n items m -> tracksMeta n (items ++ [item]) (processItem m item).
Proof.
  intros Htr. unfold tracksMeta in *. rewrite itemsFor_snoc.
  destruct (carriesNumber n item) eqn:Hc.
  - destruct item as [language [key d]].
    assert (Hk : actionNumberOf key = Some n).
    { unfold carriesNumber in Hc. simpl in Hc.
      destruct (actionNumberOf key) as [k|]; [|discriminate].
      apply Z.eqb_eq in Hc. now subst. }
    rewrite (get_processItem_same m language key d n Hk).
    destruct (JsMap.get (actionIdOf n) m) as [page|].
    + destruct Htr as [Hshape [first (Hfirst & Hstatus & Hkind)]].
      destruct (updated_meta language d page n Hshape) as (Hs' & Hst' & Hk').
      split; [exact Hs'|]. exists first.
      destruct (itemsFor n items) as [|x fs]; [discriminate|].
      split; [exact Hfirst|]. split; [now rewrite Hst'|].
      rewrite Hk'. change (x :: fs) with ([x] ++ fs).
      rewrite <- app_assoc, app_assoc, last_last. reflexivity.
    + assert (Hnew : shapedBy n (newPage n d)).
      { unfold shapedBy, newPage. simpl. repeat split; try lia.
        now apply (actionNumberOf_nonneg key). }
      destruct (updated_meta language d (newPage n d) n Hnew)
        as (Hs' & Hst' & Hk').
      split; [exact Hs'|]. exists (language, (key, d)).
      rewrite Htr. split; [reflexivity|].
      split; [rewrite Hst'; reflexivity | rewrite Hk'; reflexivity].
  - rewrite (get_processItem_other m item n Hc), app_nil_r. exact Htr.
Qed.

Lemma fold_tracksMeta (n : Z) (items : list (string * (string * ContentData.t))) :
  tracksMeta n items (fold_left processItem items JsMap.empty).
Proof.
  induction items as [|item items IH] using rev_ind.
  - reflexivity.
  - rewrite fold_left_app. simpl. now apply processItem_tracksMeta.
Qed.

Lemma finalize_meta (q : ContentPage.t) (n : Z) :
  shapedBy n q ->
  shapedBy n (finalize q)
  /\ ContentPage.status (finalize q) = ContentPage.status q
  /\ ContentPage.contentType (finalize q) = ContentPage.contentType q.
Proof.
  intros (Hn & Hnum & Hid & Hurl & Hcat & Hcount).
  unfold shapedBy, finalize. simpl. repeat split; auto.
  unfold orOne. destruct (Z.eqb_spec (ContentPage.actionCount q) 0); lia.
Qed.

(** What the map says of a page of the output. *)
Lemma output_meta (responses : list ContentApiResponse.t)
    (page : ContentPage.t) :
  In page (transformApiToContentPages responses) ->
  let n := ContentPage.pageNumber page in
  let fs := itemsFor n (itemsOf responses) in
  shapedBy n page
  /\ exists first,
       hd_error fs = Some first
       /\ ContentPage.status page
          = statusOf (ContentData.status (snd (snd first)))
       /\ ContentPage.contentType page
          = Some (kindOf (ContentData.component_type
                            (snd (snd (last fs first))))).
Proof.
  intros Hin n fs.
  destruct (page_of_output responses page Hin) as [q [Hget [Ht Hq]]].
  fold n in Hget.
  pose proof (fold_tracksMeta n (itemsOf responses)) as Htr.
  unfold tracksMeta in Htr. rewrite Hget in Htr.
  destruct Htr as [Hshape [first (Hfirst & Hstatus & Hkind)]].
  destruct (finalize_meta q n Hshape) as (Hs' & Hst' & Hk').
  rewrite Hq. split; [exact Hs'|]. exists first.
  split; [exact Hfirst|].
  split; [rewrite Hst'; exact Hstatus | rewrite Hk'; exact Hkind].
Qed.

(** *** Keys *)

Lemma append_assoc (a b c : string) :
  ((a ++ b) ++ c)%string = (a ++ (b ++ c))%string.
Proof. induction a as [|x a IH]; simpl; [reflexivity | now rewrite IH]. Qed.

Lemma regex_search_unfold (pre post s : string) :
  JsString.regex_search pre post s
  = match JsString.match_at pre post s with
    | Some ds => Some ds
    | None => match s with
              | EmptyString => None
              | String _ t => JsString.regex_search pre post t
              end
    end.
Proof. now destruct s. Qed.

(** A match at the head of the subject: the prefix, a run of digits that
    ends where the suffix begins. *)
Lemma regex_search_head (pre post ds b : string) :
  ds <> EmptyString ->
  JsString.take_digits (ds ++ post ++ b) = (ds, (post ++ b)%string) ->
  JsString.regex_search pre post (pre ++ ds ++ post ++ b) = Some ds.
Proof.
  intros Hne Htd. rewrite regex_search_unfold. unfold JsString.match_at.
  assert (Hp : JsString.strip_prefix pre (pre ++ ds ++ post ++ b)
               = Some (ds ++ post ++ b)%string)
    by now apply JsStringFacts.strip_prefix_spec.
  rewrite Hp, Htd. destruct ds as [|c ds]; [contradiction|].
  unfold JsString.startsWith.
  assert (Hs : JsString.strip_prefix post (post ++ b) = Some b)
    by now apply JsStringFacts.strip_prefix_spec.
  now rewrite Hs.
Qed.

Lemma take_digits_zeros (k : nat) (ds rest s : string) :
  JsString.take_digits s = (ds, rest) ->
  JsString.take_digits (zeros k ++ s) = ((zeros k ++ ds)%string, rest).
Proof.
  intros Hs. induction k as [|k IH]; simpl; [exact Hs|]. now rewrite IH.
Qed.

Lemma parse_zeros (k : nat) (s : string) :
  JsString.parse_digits_from 0 (zeros k ++ s) = JsString.parse_digits_from 0 s.
Proof. induction k as [|k IH]; simpl; [reflexivity | exact IH]. Qed.

(** The digits of a key with a numeral, zeros in front allowed. *)
Lemma numeral_is_matched (pre post : string) (k : nat) (n : Z) (b : string) :
  0 <= n ->
  fst (JsString.take_digits (post ++ b)) = EmptyString ->
  JsString.regex_search pre post
    (pre ++ (zeros k ++ numberToString n) ++ post ++ b)
  = Some (zeros k ++ numberToString n)%string.
Proof.
  intros Hn Hpost.
  destruct (NumberFacts.take_digits_numberToString n (post ++ b) Hn Hpost)
    as [Htd Hne].
  apply regex_search_head.
  - destruct k; simpl; [exact Hne | discriminate].
  - rewrite append_assoc. now apply take_digits_zeros.
Qed.

(** *** Properties of the output *)

(** X10. Keys and sequence numbers. A key [app.main.action.<n>.<rest>],
    [n] a safe integer (from 0 to [Number.MAX_SAFE_INTEGER]) written in
    decimal with or without zeros in front, carries the sequence number
    [n]: the aggregator reads [07] and [7] as the same number. The
    stricter pattern of the main page reads the dropdown keys the same
    way. Beyond the bound the client rounds what it reads, and the
    statement stops there. *)
Theorem sequence_number_is_read_back (n : Z) (k : nat) (rest : string) :
  0 <= n <= MAX_SAFE_INTEGER ->
  actionNumberOf
    ("app.main.action." ++ (zeros k ++ numberToString n) ++ "." ++ rest)
  = Some n
  /\ MainPage.dropdownNumberOf
       ("app.main.action." ++ (zeros k ++ numberToString n)
        ++ ".dropdown." ++ rest)
     = Some n
  /\ JsString.parseInt (numberToString n) = n.
Proof.
  intros [Hn _].
  assert (Hparse : JsString.parseInt (zeros k ++ numberToString n) = n).
  { unfold JsString.parseInt. rewrite parse_zeros.
    now apply NumberFacts.parseInt_numberToString. }
  split; [|split].
  - unfold actionNumberOf.
    rewrite (numeral_is_matched "app.main.action." "." k n rest Hn eq_refl).
    now rewrite Hparse.
  - unfold MainPage.dropdownNumberOf.
    rewrite (numeral_is_matched "app.main.action." ".dropdown." k n rest Hn
               eq_refl).
    now rewrite Hparse.
  - now apply NumberFacts.parseInt_numberToString.
Qed.

Lemma itemsOf_actionKeysOnly (responses : list ContentApiResponse.t) :
  itemsOf (map actionKeysOnly responses)
  = filter (fun item => match actionNumberOf (fst (snd item)) with
                        | Some _ => true
                        | None => false
                        end) (itemsOf responses).
Proof.
  induction responses as [|r responses IH]; [reflexivity|].
  simpl. rewrite filter_app, IH. f_equal.
  destruct (ContentApiResponse.content r) as [content|]; [|reflexivity].
  unfold JsMap.entries.
  induction content as [|[key d] content IHc]; [reflexivity|].
  simpl. destruct (actionNumberOf key); simpl; now rewrite IHc.
Qed.

Lemma fold_skips_other_keys
    (items : list (string * (string * ContentData.t)))
    (m : JsMap.t ContentPage.t) :
  fold_left processItem
    (filter (fun item => match actionNumberOf (fst (snd item)) with
                         | Some _ => true
                         | None => false
                         end) items) m
  = fold_left processItem items m.
Proof.
  revert m. induction items as [|[language [key d]] items IH]; intros m;
    [reflexivity|].
  cbn [filter fold_left fst snd].
  destruct (actionNumberOf key) as [n|] eqn:E; cbn [fold_left].
  - apply IH.
  - rewrite IH. f_equal. now rewrite processItem_eq, E.
Qed.

(** X11. Content whose key has no sequence number never reaches the
    output: the aggregator returns the same pages with and without it. *)
Theorem keys_without_number_are_ignored
    (responses : list ContentApiResponse.t) :
  transformApiToContentPages (map actionKeysOnly responses)
  = transformApiToContentPages responses.
Proof.
  unfold transformApiToContentPages.
  now rewrite !fold_items, itemsOf_actionKeysOnly, fold_skips_other_keys.
Qed.

(** X12. Every page of the output is identified by its sequence number:
    its identifier is [action-<n>] and its address [/dropdown-action-<n>]
    for its number [n], which is not negative; its category is [main],
    its action count at least one, its kind set and its title non-empty.
    No two pages share an identifier. *)
Theorem output_pages_are_identified (responses : list ContentApiResponse.t) :
  (forall page,
      In page (transformApiToContentPages responses) ->
      shapedBy (ContentPage.pageNumber page) page
      /\ ContentPage.contentType page <> None
      /\ exists s, ContentPage.title page = Some s /\ s <> EmptyString)
  /\ NoDup (map ContentPage.id (transformApiToContentPages responses)).
Proof.
  split.
  - intros page Hin.
    destruct (output_meta responses page Hin) as [Hshape [first (_ & _ & Hk)]].
    split; [exact Hshape|]. split; [rewrite Hk; discriminate|].
    destruct (output_titles responses page Hin) as (Ht & -> & _).
    now apply JsStringFacts.truthy_opt_spec.
  - pose proof (output_numbers_nodup responses) as Hnd.
    assert (Hids : map ContentPage.id (transformApiToContentPages responses)
                   = map actionIdOf
                       (map ContentPage.pageNumber
                            (transformApiToContentPages responses))).
    { rewrite map_map. apply map_ext_in. intros page Hin.
      now destruct (output_meta responses page Hin)
        as [(_ & _ & Hid & _) _]. }
    rewrite Hids. clear Hids.
    induction Hnd as [|x l Hx Hnd IH]; simpl; constructor; [|exact IH].
    intros Hin. apply in_map_iff in Hin. destruct Hin as [y [Hy Hin]].
    apply actionIdOf_inj in Hy. now subst.
Qed.

(** X13. First and last. Among the items that carry the sequence number
    of a page, in processing order and in whatever language, the first
    decides the status of the page (published when its status is
    [approved], draft otherwise; later items never change it) and the
    last decides its kind. *)
Theorem status_of_first_kind_of_last
    (responses : list ContentApiResponse.t) (page : ContentPage.t) :
  In page (transformApiToContentPages responses) ->
  let fs := itemsFor (ContentPage.pageNumber page) (itemsOf responses) in
  exists first,
    hd_error fs = Some first
    /\ ContentPage.status page = statusOf (ContentData.status (snd (snd first)))
    /\ ContentPage.contentType page
       = Some (kindOf (ContentData.component_type (snd (snd (last fs first))))).
Proof.
  intros Hin fs. now destruct (output_meta responses page Hin) as [_ H].
Qed.

Lemma validResponses_usable
    (results : list (ApiResponse ContentApiResponse.t)) :
  validResponses (filter usable results) = validResponses results.
Proof.
  unfold validResponses, usable.
  induction results as [|r results IH]; [reflexivity|].
  cbn [filter flat_map].
  destruct (success r) eqn:Hs; destruct (data r) eqn:Hd;
    cbn [andb flat_map app]; rewrite ?Hs, ?Hd; cbn [app]; now rewrite ?IH.
Qed.

Lemma validResponses_none
    (results : list (ApiResponse ContentApiResponse.t)) :
  validResponses results = [] <-> existsb usable results = false.
Proof.
  unfold validResponses, usable.
  induction results as [|r results IH]; [split; reflexivity|].
  cbn [existsb flat_map].
  destruct (success r) eqn:Hs; destruct (data r) eqn:Hd;
    cbn [andb orb app]; try exact IH.
  split; discriminate.
Qed.

(** X14. [getAllMainPageLanguages] tolerates partial failure: it fails
    exactly when none of the results is a success with data, and
    otherwise returns the pages of the results that are, in their
    order; results that failed change nothing. *)
Theorem main_page_languages_tolerate_failures
    (results : list (ApiResponse ContentApiResponse.t)) :
  (existsb usable results = false ->
   getAllMainPageLanguages results
   = {| success := false; data := None;
        error := Some "No content data available for any language";
        message := None |})
  /\ (existsb usable results = true ->
      getAllMainPageLanguages results
      = {| success := true;
           data := Some (transformApiToContentPages (validResponses results));
           error := None; message := None |})
  /\ getAllMainPageLanguages (filter usable results)
     = getAllMainPageLanguages results.
Proof.
  unfold getAllMainPageLanguages. split; [|split].
  - intros H. apply validResponses_none in H. now rewrite H.
  - intros H. destruct (validResponses results) eqn:E; [|reflexivity].
    assert (existsb usable results = false) by now apply validResponses_none.
    congruence.
  - now rewrite validResponses_usable.
Qed.





Lemma sequence_number_is_read_back_witness :
  actionNumberOf "app.main.action.07.text.bank" = Some 7
  /\ MainPage.dropdownNumberOf "app.main.action.07.dropdown.bank" = Some 7
  /\ actionNumberOf "app.main.action.9007199254740991.text.bank"
     = Some 9007199254740991.
Proof.
  assert (Hn : 0 <= 7 <= MAX_SAFE_INTEGER) by (unfold MAX_SAFE_INTEGER; lia).
  assert (Hmax : 0 <= MAX_SAFE_INTEGER <= MAX_SAFE_INTEGER)
    by (unfold MAX_SAFE_INTEGER; lia).
  split; [|split].
  - exact (proj1 (sequence_number_is_read_back 7 1 "text.bank" Hn)).
  - exact (proj1 (proj2 (sequence_number_is_read_back 7 1 "bank" Hn))).
  - exact (proj1 (sequence_number_is_read_back MAX_SAFE_INTEGER 0 "text.bank"
                    Hmax)).
Defined.

Lemma output_pages_are_identified_witness :
  NoDup (map ContentPage.id
           (transformApiToContentPages [ruResponse [3; 1; 2]; hebrewOnly])).
Proof.
  exact (proj2 (output_pages_are_identified [ruResponse [3; 1; 2]; hebrewOnly])).
Defined.

Lemma status_of_first_kind_of_last_witness :
  Forall (fun page => ContentPage.status page = draft
                      /\ ContentPage.contentType page = Some text)
         (transformApiToContentPages [draftDropdownRu; approvedTextHe]).
Proof.
  assert (E : exists page,
             transformApiToContentPages [draftDropdownRu; approvedTextHe]
             = [page]) by (eexists; vm_compute; reflexivity).
  destruct E as [page E].
  assert (Hin : In page
                  (transformApiToContentPages [draftDropdownRu; approvedTextHe]))
    by (rewrite E; left; reflexivity).
  pose proof (status_of_first_kind_of_last [draftDropdownRu; approvedTextHe]
                page Hin) as H.
  cbv zeta in H. destruct H as [first (Hhd & Hst & Hk)].
  rewrite E. constructor; [|constructor].
  assert (Hn : ContentPage.pageNumber page = 5).
  { assert (Hm : map ContentPage.pageNumber
                   (transformApiToContentPages [draftDropdownRu; approvedTextHe])
                 = [5]) by (vm_compute; reflexivity).
    rewrite E in Hm. now injection Hm. }
  rewrite Hn in Hhd, Hk. vm_compute in Hhd. injection Hhd as <-.
  split; [exact Hst | exact Hk].
Defined.

Lemma main_page_languages_tolerate_failures_witness :
  getAllMainPageLanguages (filter usable settledResults)
  = getAllMainPageLanguages settledResults
  /\ success (getAllMainPageLanguages settledResults) = true.
Proof.
  assert (Hu : existsb usable settledResults = true) by reflexivity.
  destruct (main_page_languages_tolerate_failures settledResults)
    as (_ & Hok & Hf).
  split; [exact Hf | rewrite (Hok Hu); reflexivity].
Defined.

End AggregatorExtras.

(** ** Sorting by a numeric key *)

Module SortFacts.

Import Aggregator.

Section ByKey.

Context {A : Type}.
Variable key : A -> Z.

Let compare (a b : A) : Z := key a - key b.

Lemma insert_by_key_perm (x : A) (l : list A) :
  Permutation (insert compare x l) (x :: l).
Proof.
  induction l as [|y l IH]; simpl; [reflexivity|].
  destruct (compare x y <=? 0); [reflexivity|].
  rewrite IH. apply perm_swap.
Qed.

Lemma sort_by_key_perm (l : list A) : Permutation (sort compare l) l.
Proof.
  induction l as [|x l IH]; simpl; [reflexivity|].
  rewrite insert_by_key_perm. now constructor.
Qed.

Lemma insert_by_key_sorted (x : A) (l : list A) :
  StronglySorted (fun a b => key a <= key b) l ->
  StronglySorted (fun a b => key a <= key b) (insert compare x l).
Proof.
  induction 1 as [|y l Hl IH Hy]; simpl.
  - repeat constructor.
  - unfold compare at 1.
    destruct (Z.leb_spec (key x - key y) 0) as [Hle|Hgt].
    + constructor; [now constructor|].
      constructor; [lia|]. revert Hy. apply Forall_impl. intros; lia.
    + constructor; [exact IH|].
      eapply Permutation_Forall; [symmetry; apply insert_by_key_perm|].
      constructor; [lia | exact Hy].
Qed.

Lemma sort_by_key_sorted (l : list A) :
  StronglySorted (fun a b => key a <= key b) (sort compare l).
Proof.
  induction l as [|x l IH]; simpl; [constructor | now apply insert_by_key_sorted].
Qed.

End ByKey.

End SortFacts.

(** ** The main page *)

Module MainPageProps.

Import Props Behaviour MainPage.

Section Operations.

Variable clock : nat -> Z.
Variable toLocaleDateString : Z -> string.
Variable toLocaleTimeString : Z -> string.
Variable cfg : Config.

(** What the extraction gives for each key. *)
Lemma extractActions_shape (content : JsMap.t ContentData.t) (tick : nat) :
  Forall (fun a => MainPageAction.id a
                   = Aggregator.actionIdOf (MainPageAction.actionNumber a)
                   /\ MainPageAction.titleHe a = EmptyString
                   /\ MainPageAction.titleEn a = EmptyString)
         (extractActions clock tick content)
  /\ length (extractActions clock tick content)
     = length (filter (fun kv => match dropdownNumberOf (fst kv) with
                                 | Some _ => true
                                 | None => false
                                 end) content).
Proof.
  revert tick. induction content as [|[key value] content IH]; intros tick.
  - split; [constructor | reflexivity].
  - simpl. destruct (dropdownNumberOf key) as [n|].
    + destruct (IH (S (S tick))) as [Hall Hlen].
      split; [constructor; [repeat split | exact Hall] | simpl; now rewrite Hlen].
    + apply IH.
Qed.

(** The result of the call when the content arrived. *)
Lemma getMainPageContent_success
    (w : World ContentApiResponse.t)
    (cache : JsMap.t (CacheEntry.t ContentApiResponse.t))
    (apiData : ContentApiResponse.t) (content : JsMap.t ContentData.t) :
  success (returned (getContentByScreen cfg "main_page" "ru" w cache)) = true ->
  data (returned (getContentByScreen cfg "main_page" "ru" w cache))
  = Some apiData ->
  ContentApiResponse.content apiData = Some content ->
  exists page,
    fst (fst (MainPage.getMainPageContent clock toLocaleDateString
              toLocaleTimeString cfg w cache))
    = {| success := true; data := Some page; error := None; message := None |}
    /\ MainPageContent.actions page
       = Aggregator.sort byActionNumber (extractActions clock 0 content)
    /\ MainPageContent.actionCount page
       = Z.of_nat (length (MainPageContent.actions page))
    /\ MainPageContent.pageTitle page = pageTitleOf content.
Proof.
  intros Hs Hd Hc. unfold MainPage.getMainPageContent.
  rewrite Hs, Hd, Hc. eexists. split; [reflexivity|]. repeat split.
Qed.

(** X15. The actions of the main page. When the content arrived, the
    call succeeds with one action for every key that matches the
    dropdown pattern (keys with the same number are not merged), in
    ascending order of their numbers; the count it reports is the number
    of these actions; every action is identified by its number, and its
    Hebrew and English titles are empty. *)
Theorem main_page_actions
    (w : World ContentApiResponse.t)
    (cache : JsMap.t (CacheEntry.t ContentApiResponse.t))
    (apiData : ContentApiResponse.t) (content : JsMap.t ContentData.t) :
  success (returned (getContentByScreen cfg "main_page" "ru" w cache)) = true ->
  data (returned (getContentByScreen cfg "main_page" "ru" w cache))
  = Some apiData ->
  ContentApiResponse.content apiData = Some content ->
  exists page,
    fst (fst (MainPage.getMainPageContent clock toLocaleDateString
              toLocaleTimeString cfg w cache))
    = {| success := true; data := Some page; error := None; message := None |}
    /\ StronglySorted
         (fun a b => MainPageAction.actionNumber a <= MainPageAction.actionNumber b)
         (MainPageContent.actions page)
    /\ length (MainPageContent.actions page)
       = length (filter (fun kv => match dropdownNumberOf (fst kv) with
                                   | Some _ => true
                                   | None => false
                                   end) content)
    /\ MainPageContent.actionCount page
       = Z.of_nat (length (MainPageContent.actions page))
    /\ Forall (fun a => MainPageAction.id a
                        = Aggregator.actionIdOf (MainPageAction.actionNumber a)
                        /\ MainPageAction.titleHe a = EmptyString
                        /\ MainPageAction.titleEn a = EmptyString)
              (MainPageContent.actions page).
Proof.
  intros Hs Hd Hc.
  destruct (getMainPageContent_success w cache apiData content Hs Hd Hc)
    as [page (Hres & Hactions & Hcount & _)].
  exists page. split; [exact Hres|].
  destruct (extractActions_shape content 0) as [Hall Hlen].
  pose proof (SortFacts.sort_by_key_perm MainPageAction.actionNumber
                (extractActions clock 0 content)) as Hperm.
  rewrite Hactions. repeat split.
  - apply (SortFacts.sort_by_key_sorted MainPageAction.actionNumber).
  - rewrite <- Hlen. now apply Permutation_length.
  - now rewrite Hcount, Hactions.
  - eapply Permutation_Forall; [symmetry; exact Hperm | exact Hall].
Qed.

(** X16. Failures of the content request reach the caller of
    [getMainPageContent]. With a real backend configured and no entry in
    the cache for the request, a transport failure comes back as a
    failure whose message is the message of the error (or a default when
    it is empty), without data; nothing is written to the cache. *)
Theorem main_page_content_failure
    (w : World ContentApiResponse.t)
    (cache : JsMap.t (CacheEntry.t ContentApiResponse.t)) (e : Thrown) :
  isPlaceholderUrl cfg (API_BASE_URL cfg) = false ->
  fetched w = FetchRejects e ->
  JsMap.get (cacheKeyOf (screenEndpoint "main_page" "ru") []) cache = None ->
  fst (fst (MainPage.getMainPageContent clock toLocaleDateString
              toLocaleTimeString cfg w cache))
  = {| success := false; data := None;
       error := Some (if JsString.truthy (error_message e)
                      then error_message e else "Failed to fetch content");
       message := None |}
  /\ snd (fst (MainPage.getMainPageContent clock toLocaleDateString
              toLocaleTimeString cfg w cache)) = cache.
Proof.
  intros Hreal Hw Hnone.
  unfold MainPage.getMainPageContent, getContentByScreen.
  rewrite Hreal.
  change ("/api/content/" ++ "main_page" ++ "/" ++ "ru")%string
    with (screenEndpoint "main_page" "ru").
  rewrite (CacheProps.requestWithCache_rejected _ _ _ _ _ _ _ Hw), Hnone.
  simpl. split; reflexivity.
Qed.

(** X17. [getMainPageAction] does not look at the identifier it is given.
    Every action of the main page has the identifier [action-<number>],
    which the second alternative of the search accepts for every action:
    whatever identifier is asked for, the call returns the first action
    of the page, the one with the lowest number, and [null] only when
    the page has no action at all. *)
Theorem main_page_action_ignores_id
    (actionId : string) (w : World ContentApiResponse.t)
    (cache : JsMap.t (CacheEntry.t ContentApiResponse.t))
    (apiData : ContentApiResponse.t) (content : JsMap.t ContentData.t) :
  success (returned (getContentByScreen cfg "main_page" "ru" w cache)) = true ->
  data (returned (getContentByScreen cfg "main_page" "ru" w cache))
  = Some apiData ->
  ContentApiResponse.content apiData = Some content ->
  fst (fst (MainPage.getMainPageAction clock toLocaleDateString
              toLocaleTimeString cfg actionId w cache))
  = {| success := true;
       data := Some (hd_error (Aggregator.sort byActionNumber
                                 (extractActions clock 0 content)));
       error := None; message := None |}.
Proof.
  intros Hs Hd Hc.
  destruct (getMainPageContent_success w cache apiData content Hs Hd Hc)
    as [page (Hres & Hactions & _)].
  unfold MainPage.getMainPageAction.
  destruct (MainPage.getMainPageContent clock toLocaleDateString
              toLocaleTimeString cfg w cache) as [[pagesResp cache'] trace].
  simpl in Hres. subst pagesResp. simpl. rewrite Hactions. do 3 f_equal.
  destruct (extractActions_shape content 0) as [Hall _].
  assert (Hsorted : Forall (fun a => matchesAction actionId a = true)
                      (Aggregator.sort byActionNumber
                         (extractActions clock 0 content))).
  { eapply Permutation_Forall;
      [symmetry; apply (SortFacts.sort_by_key_perm MainPageAction.actionNumber)|].
    revert Hall. apply Forall_impl. intros a (Hid & _).
    unfold matchesAction. rewrite Hid, String.eqb_refl. apply orb_true_r. }
  destruct Hsorted as [|a l Ha _]; [reflexivity|]. simpl. now rewrite Ha.
Qed.

End Operations.




Lemma main_page_actions_witness :
  exists page,
    fst (fst (MainPage.getMainPageContent still_clock no_format no_format
                production_config (world_of_content 0 twoDropdowns) []))
    = {| success := true; data := Some page; error := None; message := None |}
    /\ StronglySorted
         (fun a b => MainPageAction.actionNumber a <= MainPageAction.actionNumber b)
         (MainPageContent.actions page)
    /\ length (MainPageContent.actions page) = 2%nat.
Proof.
  assert (Hs : success (returned (getContentByScreen production_config
                                    "main_page" "ru"
                                    (world_of_content 0 twoDropdowns) []))
               = true) by (vm_compute; reflexivity).
  assert (Hd : data (returned (getContentByScreen production_config
                                 "main_page" "ru"
                                 (world_of_content 0 twoDropdowns) []))
               = Some twoDropdowns) by (vm_compute; reflexivity).
  destruct (main_page_actions still_clock no_format no_format production_config
              (world_of_content 0 twoDropdowns) [] twoDropdowns _
              Hs Hd eq_refl)
    as [page (Hres & Hsorted & Hlen & _)].
  exists page. split; [exact Hres|]. split; [exact Hsorted | exact Hlen].
Defined.

Lemma main_page_content_failure_witness :
  fst (fst (MainPage.getMainPageContent still_clock no_format no_format
              production_config (world_of_content_failure 0) []))
  = {| success := false; data := None;
       error := Some "Failed to fetch"; message := None |}.
Proof.
  assert (Hreal : isPlaceholderUrl production_config
                    (API_BASE_URL production_config) = false)
    by (vm_compute; reflexivity).
  assert (Hw : fetched (world_of_content_failure 0)
               = FetchRejects (ErrorInstance "Failed to fetch"))
    by reflexivity.
  assert (Hnone : JsMap.get (cacheKeyOf (screenEndpoint "main_page" "ru") [])
                    (@nil (string * CacheEntry.t ContentApiResponse.t))
                  = None) by reflexivity.
  exact (proj1 (main_page_content_failure still_clock no_format no_format
                  production_config (world_of_content_failure 0) []
                  (ErrorInstance "Failed to fetch") Hreal Hw Hnone)).
Defined.

Lemma main_page_action_ignores_id_witness :
  option_map (option_map MainPageAction.actionNumber)
    (data (fst (fst (MainPage.getMainPageAction still_clock no_format no_format
                       production_config "action-7"
                       (world_of_content 0 twoDropdowns) []))))
  = Some (Some 3).
Proof.
  assert (Hs : success (returned (getContentByScreen production_config
                                    "main_page" "ru"
                                    (world_of_content 0 twoDropdowns) []))
               = true) by (vm_compute; reflexivity).
  assert (Hd : data (returned (getContentByScreen production_config
                                 "main_page" "ru"
                                 (world_of_content 0 twoDropdowns) []))
               = Some twoDropdowns) by (vm_compute; reflexivity).
  rewrite (main_page_action_ignores_id still_clock no_format no_format
             production_config "action-7" (world_of_content 0 twoDropdowns) []
             twoDropdowns _ Hs Hd eq_refl).
  vm_compute. reflexivity.
Defined.

End MainPageProps.

(** ** The lifetime of an entry *)

Module TtlProps.

Import Json Props Behaviour Aggregator.

(** The directive does not overlap itself: an occurrence that starts
    inside the text before it lies inside that text. *)
Lemma max_age_no_overlap (c : ascii) (a s : string) :
  JsString.startsWith (String c a) "max-age=" = false ->
  JsString.strip_prefix "max-age=" (String c a ++ "max-age=" ++ s) = None.
Proof.
  unfold JsString.startsWith. intros H.
  do 7 (try destruct a as [|? a]);
    cbn [JsString.strip_prefix append] in *;
    repeat match goal with
           | |- (if Ascii.eqb ?x ?y then _ else _) = None =>
               let E := fresh "E" in
               destruct (Ascii.eqb x y) eqn:E;
                 [try discriminate E; rewrite ?E in H | reflexivity]
           end;
    try reflexivity; discriminate.
Qed.

(** The search goes past a text that does not hold the directive. *)
Lemma regex_search_skip (a s : string) :
  JsString.includes a "max-age=" = false ->
  JsString.regex_search "max-age=" "" (a ++ "max-age=" ++ s)
  = JsString.regex_search "max-age=" "" ("max-age=" ++ s).
Proof.
  induction a as [|c a IH]; intros H; [reflexivity|].
  cbn [JsString.includes] in H. apply orb_false_iff in H. destruct H as [Hs Hi].
  rewrite AggregatorExtras.regex_search_unfold. unfold JsString.match_at.
  rewrite (max_age_no_overlap c a s Hs). cbn [append]. exact (IH Hi).
Qed.

(** Reading [max-age=<n>] in a [Cache-Control] header. *)
Lemma parseTTL_max_age (ttl n : Z) (a rest : string) :
  0 <= n ->
  JsString.includes a "max-age=" = false ->
  fst (JsString.take_digits rest) = EmptyString ->
  parseTTL ttl (Some (a ++ "max-age=" ++ numberToString n ++ rest)%string)
  = n * 1000.
Proof.
  intros Hn Ha Hrest. unfold parseTTL.
  assert (Hi : JsString.includes
                 (a ++ "max-age=" ++ numberToString n ++ rest) "max-age="
               = true)
    by (apply JsStringFacts.includes_spec;
        now exists a, (numberToString n ++ rest)%string).
  rewrite Hi.
  assert (Ht : JsString.truthy (a ++ "max-age=" ++ numberToString n ++ rest)
               = true) by now destruct a.
  rewrite Ht. cbn [andb].
  rewrite regex_search_skip by exact Ha.
  destruct (NumberFacts.take_digits_numberToString n rest Hn Hrest)
    as [Htd Hne].
  pose proof (AggregatorExtras.regex_search_head "max-age=" ""
                (numberToString n) rest Hne Htd) as Hm.
  cbn [append] in Hm |- *. rewrite Hm.
  now rewrite NumberFacts.parseInt_numberToString.
Qed.

Section Lifetime.

Context {T : Type}.
Variable cfg : Config.

(** X18. The lifetime the server announces. When a stored response carries
    a [Cache-Control] header whose first [max-age=] directive is followed
    by the decimal numeral of [n] seconds, [n * 1000] being a safe
    integer (at most [Number.MAX_SAFE_INTEGER], so that reading the
    numeral and multiplying are exact), the entry written for the
    request lives [n * 1000] milliseconds, whatever lifetime the caller
    or the configuration asked for; the directive may stand anywhere in
    the header. *)
Theorem max_age_sets_the_lifetime
    (endpoint : string) (options : JsObject) (customTTL : option Z)
    (w : World T) (cache : JsMap.t (CacheEntry.t T))
    (r : Response T) (result : ApiResponse T) (n : Z) (a rest : string) :
  fetched w = FetchResolves r ->
  status r <> 304 ->
  response_json r = JsonResolves result ->
  carried (ETag r) \/ carried (Bankim_Content_Version r) ->
  Cache_Control r = Some (a ++ "max-age=" ++ numberToString n ++ rest)%string ->
  0 <= n ->
  n * 1000 <= MAX_SAFE_INTEGER ->
  JsString.includes a "max-age=" = false ->
  fst (JsString.take_digits rest) = EmptyString ->
  option_map CacheEntry.ttl
    (JsMap.get (cacheKeyOf endpoint options)
       (cache_after (requestWithCache cfg endpoint options customTTL w cache)))
  = Some (n * 1000).
Proof.
  intros Hw Hs Hj Hv Hcc Hn _ Ha Hrest.
  destruct (CacheExtras.requestWithCache_written cfg endpoint options customTTL
              w cache r result Hw Hs Hj Hv) as [_ Hafter].
  rewrite Hafter, JsMapFacts.get_set_same. cbn [option_map CacheEntry.ttl].
  rewrite Hcc. f_equal. now apply parseTTL_max_age.
Qed.

End Lifetime.


Lemma max_age_sets_the_lifetime_witness :
  option_map CacheEntry.ttl
    (JsMap.get sample_key
       (cache_after (requestWithCache production_config sample_endpoint [] None
                       (world_ok 1500) sample_cache)))
  = Some 60000.
Proof.
  pose (r := {| status := 200; ETag := Some "v2";
                Cache_Control := Some "public, max-age=60";
                Bankim_Content_Version := None;
                body := JsonResolves fresh_body |}).
  assert (Hw : fetched (world_ok 1500) = FetchResolves r) by reflexivity.
  assert (Hs : status r <> 304) by discriminate.
  assert (Hj : response_json r = JsonResolves fresh_body) by reflexivity.
  assert (Hv : carried (ETag r) \/ carried (Bankim_Content_Version r))
    by (left; exists "v2"; split; [reflexivity | discriminate]).
  assert (Hcc : Cache_Control r
                = Some ("public, " ++ "max-age=" ++ numberToString 60 ++ "")%string)
    by (vm_compute; reflexivity).
  assert (Hn : 0 <= 60) by lia.
  assert (Hsafe : 60 * 1000 <= MAX_SAFE_INTEGER)
    by (unfold MAX_SAFE_INTEGER; lia).
  assert (Ha : JsString.includes "public, " "max-age=" = false)
    by (vm_compute; reflexivity).
  assert (Hrest : fst (JsString.take_digits "") = EmptyString) by reflexivity.
  exact (max_age_sets_the_lifetime production_config sample_endpoint [] None
           (world_ok 1500) sample_cache r fresh_body 60 "public, " EmptyString
           Hw Hs Hj Hv Hcc Hn Hsafe Ha Hrest).
Defined.

End TtlProps.

(** ** Fingerprints of the content requests *)

Module FingerprintExtras.

Import Json Props Behaviour.

Lemma length_append (a b : string) :
  String.length (a ++ b) = (String.length a + String.length b)%nat.
Proof. induction a as [|c a IH]; simpl; [reflexivity | now rewrite IH]. Qed.

Lemma append_inv_tail (s1 s2 t : string) :
  (s1 ++ t)%string = (s2 ++ t)%string -> s1 = s2.
Proof.
  revert s2. induction s1 as [|c s1 IH]; intros [|d s2] H.
  - reflexivity.
  - apply (f_equal String.length) in H. simpl in H.
    rewrite length_append in H. lia.
  - apply (f_equal String.length) in H. simpl in H.
    rewrite length_append in H. lia.
  - simpl in H. injection H as -> H. f_equal. now apply IH.
Qed.

(** A path segment ends at the first slash. *)
Lemma segment_inj (s1 s2 l1 l2 : string) :
  JsString.includes s1 "/" = false ->
  JsString.includes s2 "/" = false ->
  (s1 ++ "/" ++ l1)%string = (s2 ++ "/" ++ l2)%string ->
  s1 = s2 /\ l1 = l2.
Proof.
  revert s2. induction s1 as [|c s1 IH]; intros [|d s2] H1 H2 H.
  - simpl in H. injection H as H. now split.
  - simpl in H. injection H as <- _.
    rewrite JsStringFacts.includes_unfold in H2. discriminate.
  - simpl in H. injection H as -> _.
    rewrite JsStringFacts.includes_unfold in H1. discriminate.
  - simpl in H. injection H as -> H.
    rewrite JsStringFacts.includes_unfold in H1, H2.
    apply orb_false_iff in H1, H2.
    destruct (IH s2 (proj2 H1) (proj2 H2) H) as [-> ->]. now split.
Qed.

(** The fingerprints of two content requests. *)
Lemma screen_key_inj (s1 l1 s2 l2 : string) :
  JsString.includes s1 "/" = false ->
  JsString.includes s2 "/" = false ->
  cacheKeyOf (screenEndpoint s1 l1) [] = cacheKeyOf (screenEndpoint s2 l2) [] ->
  s1 = s2 /\ l1 = l2.
Proof.
  intros H1 H2 H. unfold cacheKeyOf in H.
  apply append_inv_tail in H. unfold screenEndpoint in H.
  apply FingerprintProps.append_inv_head in H.
  now apply segment_inj.
Qed.

(** X19. Screens and languages do not share entries. For screen
    locations without a slash, two content requests have the same
    fingerprint only when they ask for the same screen in the same
    language; so a request for one screen in one language, whatever its
    outcome, leaves the entry of every other screen and language as it
    was. *)
Theorem screen_requests_are_isolated
    (cfg : Config) (s1 l1 s2 l2 : string)
    (w : World ContentApiResponse.t)
    (cache : JsMap.t (CacheEntry.t ContentApiResponse.t)) :
  JsString.includes s1 "/" = false ->
  JsString.includes s2 "/" = false ->
  (s1, l1) <> (s2, l2) ->
  cacheKeyOf (screenEndpoint s1 l1) [] <> cacheKeyOf (screenEndpoint s2 l2) []
  /\ JsMap.get (cacheKeyOf (screenEndpoint s2 l2) [])
       (cache_after (getContentByScreen cfg s1 l1 w cache))
     = JsMap.get (cacheKeyOf (screenEndpoint s2 l2) []) cache.
Proof.
  intros H1 H2 Hne.
  assert (Hk : cacheKeyOf (screenEndpoint s1 l1) []
               <> cacheKeyOf (screenEndpoint s2 l2) []).
  { intros Hk. destruct (screen_key_inj s1 l1 s2 l2 H1 H2 Hk) as [-> ->].
    now apply Hne. }
  split; [exact Hk|].
  unfold getContentByScreen.
  destruct (isPlaceholderUrl cfg (API_BASE_URL cfg)); [reflexivity|].
  change ("/api/content/" ++ s1 ++ "/" ++ l1)%string with (screenEndpoint s1 l1).
  destruct (CacheProps.requestWithCache_cache_after cfg (screenEndpoint s1 l1)
              [] None w cache) as [->|[entry [-> _]]]; [reflexivity|].
  apply JsMapFacts.get_set_other. congruence.
Qed.


Lemma screen_requests_are_isolated_witness :
  JsMap.get (cacheKeyOf (screenEndpoint "main_page" "he") [])
    (cache_after (getContentByScreen production_config "main_page" "ru"
                    (world_of_content 1500 twoDropdowns) hebrew_cache))
  = JsMap.get (cacheKeyOf (screenEndpoint "main_page" "he") []) hebrew_cache.
Proof.
  assert (H1 : JsString.includes "main_page" "/" = false)
    by (vm_compute; reflexivity).
  assert (Hne : ("main_page", "ru") <> ("main_page", "he")) by discriminate.
  exact (proj2 (screen_requests_are_isolated production_config
                  "main_page" "ru" "main_page" "he"
                  (world_of_content 1500 twoDropdowns) hebrew_cache
                  H1 H1 Hne)).
Defined.

End FingerprintExtras.

(** ** The action count of a page *)

Module ActionCountProps.

Import Props Behaviour Aggregator AggregatorProps.

Lemma largest_snoc (counts : list Z) (c : Z) :
  largest (counts ++ [c]) = Z.max (largest counts) c.
Proof.
  unfold largest. induction counts as [|x counts IH]; simpl; [lia|].
  rewrite IH. lia.
Qed.

Lemma largest_spec (counts : list Z) :
  1 <= largest counts
  /\ Forall (fun c => c <= largest counts) counts
  /\ (largest counts = 1 \/ In (largest counts) counts).
Proof.
  unfold largest. induction counts as [|x counts (H1 & Hall & Hin)]; simpl.
  - repeat split; [lia | constructor | now left].
  - split; [lia|]. split.
    + constructor; [lia|]. revert Hall. apply Forall_impl. intros; lia.
    + destruct (Z.max_spec x (fold_right Z.max 1 counts)) as [[_ ->]|[_ ->]].
      * destruct Hin as [->|Hin]; [now left | right; now right].
      * right. now left.
Qed.

Lemma setTitles_actionCount (language : string) (d : ContentData.t)
    (page : ContentPage.t) :
  ContentPage.actionCount (setTitles language d page)
  = ContentPage.actionCount page.
Proof.
  unfold setTitles.
  destruct (String.eqb language "ru"); [reflexivity|].
  destruct (String.eqb language "he"); [reflexivity|].
  destruct (String.eqb language "en"); reflexivity.
Qed.

(** The counter after the loop body. *)
Lemma updated_count (language key : string) (d : ContentData.t)
    (page : ContentPage.t) (counts : list Z) :
  ContentPage.actionCount page = largest counts ->
  ContentPage.actionCount (setContentType d (setTitles language d page))
  = largest (counts ++ optionCount (language, (key, d))).
Proof.
  intros Hc. unfold setContentType, optionCount.
  cbn [ContentPage.actionCount snd]. rewrite setTitles_actionCount, Hc.
  destruct (String.eqb (ContentData.component_type d) "dropdown");
    [|now rewrite app_nil_r].
  destruct (ContentData.value d) as [s|options]; [now rewrite app_nil_r|].
  rewrite largest_snoc. unfold orOne.
  destruct (largest_spec counts) as [H1 _].
  destruct (Z.eqb_spec (largest counts) 0); [lia | reflexivity].
Qed.

Lemma optionCounts_snoc (n : Z)
    (items : list (string * (string * ContentData.t)))
    (item : string * (string * ContentData.t)) :
  optionCounts n (items ++ [item])
  = optionCounts n items
    ++ (if carriesNumber n item then optionCount item else []).
Proof.
  unfold optionCounts. rewrite AggregatorExtras.itemsFor_snoc, flat_map_app.
  destruct (carriesNumber n item); simpl; now rewrite ?app_nil_r.
Qed.

Lemma processItem_tracksCount (n : Z)
    (items : list (string * (string * ContentData.t)))
    (item : string * (string * ContentData.t)) (m : JsMap.t ContentPage.t) :
  tracksCount n items m -> tracksCount n (items ++ [item]) (processItem m item).
Proof.
  intros Htr. unfold tracksCount in *.
  rewrite optionCounts_snoc, AggregatorExtras.itemsFor_snoc.
  destruct (carriesNumber n item) eqn:Hc.
  - destruct item as [language [key d]].
    assert (Hk : actionNumberOf key = Some n).
    { unfold carriesNumber in Hc. simpl in Hc.
      destruct (actionNumberOf key) as [k|]; [|discriminate].
      apply Z.eqb_eq in Hc. now subst. }
    rewrite (AggregatorExtras.get_processItem_same m language key d n Hk).
    destruct (JsMap.get (actionIdOf n) m) as [page|].
    + now apply updated_count.
    + unfold optionCounts. rewrite Htr.
      now apply (updated_count language key d (newPage n d) []).
  - rewrite (AggregatorExtras.get_processItem_other m item n Hc), !app_nil_r.
    exact Htr.
Qed.

Lemma fold_tracksCount (n : Z)
    (items : list (string * (string * ContentData.t))) :
  tracksCount n items (fold_left processItem items JsMap.empty).
Proof.
  induction items as [|item items IH] using rev_ind.
  - reflexivity.
  - rewrite fold_left_app. simpl. now apply processItem_tracksCount.
Qed.

(** X20. The action count of a page of the output is the largest number
    of options among the dropdown items of its sequence number whose
    value is an array, in whatever language and order they come, and 1
    when there is no such item: it is at least 1, no such dropdown has
    more options, and it is 1 or the number of options of one of them. *)
Theorem action_count_is_largest_option_count
    (responses : list ContentApiResponse.t) (page : ContentPage.t) :
  In page (transformApiToContentPages responses) ->
  let counts :=
    optionCounts (ContentPage.pageNumber page) (itemsOf responses) in
  1 <= ContentPage.actionCount page
  /\ Forall (fun c => c <= ContentPage.actionCount page) counts
  /\ (ContentPage.actionCount page = 1
      \/ In (ContentPage.actionCount page) counts).
Proof.
  intros Hin counts.
  destruct (page_of_output responses page Hin) as [q [Hget [_ Hq]]].
  pose proof (fold_tracksCount (ContentPage.pageNumber page) (itemsOf responses))
    as Htr.
  unfold tracksCount in Htr. rewrite Hget in Htr. fold counts in Htr.
  assert (Hcount : ContentPage.actionCount page = largest counts).
  { rewrite Hq. unfold finalize. cbn [ContentPage.actionCount].
    rewrite Htr. unfold orOne.
    destruct (largest_spec counts) as [H1 _].
    destruct (Z.eqb_spec (largest counts) 0); [lia | reflexivity]. }
  rewrite Hcount. apply largest_spec.
Qed.

Lemma action_count_is_largest_option_count_witness :
  Forall (fun page => ContentPage.actionCount page = 2)
         (transformApiToContentPages [draftDropdownRu; approvedTextHe]).
Proof.
  assert (E : exists page,
             transformApiToContentPages [draftDropdownRu; approvedTextHe]
             = [page]) by (eexists; vm_compute; reflexivity).
  destruct E as [page E].
  assert (Hin : In page
                  (transformApiToContentPages [draftDropdownRu; approvedTextHe]))
    by (rewrite E; left; reflexivity).
  pose proof (action_count_is_largest_option_count
                [draftDropdownRu; approvedTextHe] page Hin) as H.
  cbv zeta in H. destruct H as (H1 & Hall & Hor).
  rewrite E. constructor; [|constructor].
  assert (Hn : ContentPage.pageNumber page = 5).
  { assert (Hm : map ContentPage.pageNumber
                   (transformApiToContentPages [draftDropdownRu; approvedTextHe])
                 = [5]) by (vm_compute; reflexivity).
    rewrite E in Hm. now injection Hm. }
  assert (Hcounts : optionCounts 5 (itemsOf [draftDropdownRu; approvedTextHe])
                    = [2]) by (vm_compute; reflexivity).
  rewrite Hn, Hcounts in Hall, Hor.
  inversion Hall as [|c cs Hle _]. clear Hall.
  destruct Hor as [Hone|[Hor|[]]]; [lia | now symmetry].
Defined.

End ActionCountProps.
